(** * End-to-end encrypted chat: envelope codec, disappearing-message
      policy and cleanup sweep

    A shallow embedding of

    - [lib/crypto.ts]            (module [Crypto]),
    - the [Chat] component       (module [Chat]),
    - [api/messages/cleanup]     (module [Cleanup]),

    followed by the properties checked against the specification.

    Conventions.  Timestamps are milliseconds since the epoch, as
    [Date.now()] and [Date.prototype.getTime()] return them; the ISO-8601
    text produced by [toISOString()] is only their rendering on the wire.
    The clock is the current instant, for which [toISOString()] always has
    a rendering (also three hours on); for an instant computed from a
    column of the table it throws when the instant is no date.
    SQL [NULL] / JS [null] is [None].  The message table is a finite map
    from the primary key [id] to the row. *)

From Stdlib Require Import ZArith String Ascii List Bool Lia.
From Stdlib Require Strings.Byte.
From stdpp Require Import base option list gmap strings fin_maps.

Local Open Scope string_scope.
Local Open Scope list_scope.
Local Open Scope Z_scope.

(** ** Message rows of the external store *)

Record Message := mkMessage {
  sender_id : string;
  receiver_id : string;
  encrypted_content : option string;
  media_type : string;
  media_url : option string;
  is_viewed : option bool;
  viewed_at : option Z;
  view_count : option Z;
  is_view_once : option bool;
  is_disappearing : option bool;
  disappearing_duration : option Z;
  expires_at : option Z;
  is_saved : option bool
}.

(** The argument of [.update({...})]: the columns it names. *)
Record Patch := mkPatch {
  set_is_viewed : option bool;
  set_viewed_at : option Z;
  set_view_count : option Z;
  set_expires_at : option Z
}.

Definition apply_patch (p : Patch) (m : Message) : Message :=
  mkMessage (sender_id m) (receiver_id m) (encrypted_content m) (media_type m)
    (media_url m)
    (match set_is_viewed p with Some b => Some b | None => is_viewed m end)
    (match set_viewed_at p with Some t => Some t | None => viewed_at m end)
    (match set_view_count p with Some n => Some n | None => view_count m end)
    (is_view_once m) (is_disappearing m) (disappearing_duration m)
    (match set_expires_at p with Some t => Some t | None => expires_at m end)
    (is_saved m).

(** The [messages] table, keyed by [id]. *)
Abbreviation Table := (gmap string Message).

(** JS truthiness of the nullable columns. *)
Definition truthy_bool (b : option bool) : bool :=
  match b with Some true => true | _ => false end.

Definition truthy_num (n : option Z) : bool :=
  match n with Some k => negb (k =? 0) | None => false end.

(** [x || 0] on a nullable integer column. *)
Definition or_zero (n : option Z) : Z :=
  match n with Some k => k | None => 0 end.

(** ** JSON values

    Numbers are never computed with by this code; only whether a number is
    zero (its truthiness) is observed, so an integer payload is enough. *)

#[warnings="-register-all"]
Inductive json :=
| JNull
| JBool (b : bool)
| JNum (n : Z)
| JStr (s : string)
| JArr (items : list json)
| JObj (fields : gmap string json).

(** [!!v] for a value that may be [undefined] ([None]). *)
Definition truthy (v : option json) : bool :=
  match v with
  | None | Some JNull | Some (JBool false) | Some (JStr "") => false
  | Some (JNum n) => negb (n =? 0)
  | Some _ => true
  end.

(** [v === "h1"] and the like. *)
Definition strict_eq_str (v : option json) (s : string) : bool :=
  match v with Some (JStr t) => bool_decide (t = s) | _ => false end.

(** ** Effects: exceptions, a trace of platform calls, entropy, the store *)

Inductive Event :=
| GenerateKey (algorithm : string)
| GetRandomValues (n : nat)
| SubtleEncrypt (algorithm : string)
| SubtleDecrypt (algorithm : string)
| SubtleExportKey (format : string)
| SubtleImportKey (format : string)
| ConsoleError (label : string)
| ToastError (text : string)
| ToastInfo (text : string)
| Fetch (url : string)
| StorageUpload (path : string)
| DbInsert (m : Message)
| DbUpdate (id : string) (p : Patch)
| SetShowSnapshotView (id : string) (content : string)
| SetMessages (shown : list (string * string))
| SetLoading (b : bool)
| SetBlobUrl (url : string)
| AppendMessage (id : string) (content : string)
| SetNewMessage (text : string).

Record World := mkWorld {
  tick : nat;             (* how much entropy has been drawn *)
  clock : Z;              (* Date.now(), one instant per handler run *)
  trace : list Event;
  db : Table
}.

Inductive Result (A : Type) :=
| Ok (a : A)
| Throw (e : string).
Arguments Ok {A} a.
Arguments Throw {A} e.

Definition Eff (A : Type) : Type := World → Result A * World.

Definition ret {A} (a : A) : Eff A := λ w, (Ok a, w).

Definition bind {A B} (m : Eff A) (k : A → Eff B) : Eff B :=
  λ w, match m w with
       | (Ok a, w') => k a w'
       | (Throw e, w') => (Throw e, w')
       end.

Definition throw {A} (e : string) : Eff A := λ w, (Throw e, w).

(** [try { m } catch (e) { h e }] *)
Definition try_catch {A} (m : Eff A) (h : string → Eff A) : Eff A :=
  λ w, match m w with
       | (Ok a, w') => (Ok a, w')
       | (Throw e, w') => h e w'
       end.

(** The three ways a world changes: events are logged, entropy is drawn,
    the table is replaced. *)
Definition logged (w : World) (evs : list Event) : World :=
  mkWorld (tick w) (clock w) (trace w ++ evs) (db w).

Definition drawn (w : World) : World :=
  mkWorld (S (tick w)) (clock w) (trace w) (db w).

Definition stored (w : World) (tbl : Table) : World :=
  mkWorld (tick w) (clock w) (trace w) tbl.

Definition emit (ev : Event) : Eff unit := λ w, (Ok tt, logged w [ev]).

Definition draw : Eff nat := λ w, (Ok (tick w), drawn w).

Definition Date_now : Eff Z := λ w, (Ok (clock w), w).

Definition get_db : Eff Table := λ w, (Ok (db w), w).

Definition set_db (t : Table) : Eff unit := λ w, (Ok tt, stored w t).

(** [supabase.from("messages").update(p).eq("id", id)]; the answer is not
    inspected by the callers. *)
Definition db_update (id : string) (p : Patch) : Eff unit :=
  λ w, (Ok tt, stored (logged w [DbUpdate id p]) (alter (apply_patch p) id (db w))).

(** A platform call that throws when it has no answer. *)
Definition lift {A} (e : string) (o : option A) : Eff A :=
  match o with Some a => ret a | None => throw e end.

Declare Scope eff_scope.
Delimit Scope eff_scope with eff.
Notation "'let!' x ':=' m 'in' k" := (bind m (λ x, k))
  (at level 10, x name, m at level 100, k at level 200) : eff_scope.
Notation "'do!' m 'in' k" := (bind m (λ _, k))
  (at level 10, m at level 100, k at level 200) : eff_scope.
Local Open Scope eff_scope.

(** [new Date(t).toISOString()]: a [RangeError] when [t] is not a time
    value, that is more than 8.64e15 ms away from the epoch.  (The sum [t]
    is computed on doubles; for a clock of this era it is exact whenever it
    is a time value, and beyond any time value otherwise.) *)
Definition time_value (t : Z) : bool :=
  (-8640000000000000 <=? t) && (t <=? 8640000000000000).

Definition toISOString (t : Z) : Eff Z :=
  if time_value t then ret t else throw "RangeError".

(** The own property [k] of a value, without effects. *)
Definition own_prop (j : json) (k : string) : option json :=
  match j with JObj fields => fields !! k | _ => None end.

(** The names every object inherits from [Object.prototype]: [o[k]] finds a
    value under them also when [o] has no such property of its own. *)
Definition Object_prototype_property (k : string) : bool :=
  bool_decide (k ∈ ["constructor"; "hasOwnProperty"; "isPrototypeOf";
                    "propertyIsEnumerable"; "toLocaleString"; "toString";
                    "valueOf"; "__proto__"; "__defineGetter__";
                    "__defineSetter__"; "__lookupGetter__"; "__lookupSetter__"]).

Record Blob := mkBlob { blob_bytes : list Byte.byte; blob_type : string }.

(** ** The platform: Web Crypto, base64, JSON, text codecs

    None of this is code of the repository; the embedding is parametric in
    it.  A [None] answer is a thrown exception. *)

Class Platform := {
  PublicKey : Type;
  PrivateKey : Type;
  AESKey : Type;
  btoa : string → string;
  atob : string → option string;
  JSON_parse : string → option json;
  JSON_stringify : json → string;
  ToString : json → string;
  TextEncoder_encode : string → list Byte.byte;
  TextDecoder_decode : list Byte.byte → string;
  rsa_oaep_encrypt : PublicKey → list Byte.byte → option (list Byte.byte);
  rsa_oaep_decrypt : PrivateKey → list Byte.byte → option (list Byte.byte);
  aes_gcm_encrypt : AESKey → list Byte.byte → list Byte.byte → list Byte.byte;
  aes_gcm_decrypt : AESKey → list Byte.byte → list Byte.byte → option (list Byte.byte);
  aes_generate : nat → AESKey;
  aes_export_raw : AESKey → list Byte.byte;
  aes_import_raw : list Byte.byte → option AESKey;
  spki_import : list Byte.byte → option PublicKey;
  random_values : nat → nat → list Byte.byte;
  http_get : string → option (list Byte.byte);
  object_url : nat → Blob → string;
  String_trim : string → string
}.

(** Property access [packet.k]: a [TypeError] on [null], the own property
    of an object, [undefined] otherwise.  This is what JS does for the
    names [iv], [content], [keys], [v], [key] and [media_iv] that the code
    reads, none of which is inherited from a built-in prototype.  For
    [packet.keys[id]] it is what JS does when [keys] is an object and
    either has [id] as an own property or
    [Object_prototype_property id = false]. *)
Definition get_prop (packet : json) (k : string) : Eff (option json) :=
  match packet with
  | JNull => throw "TypeError"
  | JObj fields => ret (fields !! k)
  | _ => ret None
  end.

(** ** lib/crypto.ts *)

Module Crypto.
Section WithPlatform.
Context `{Platform}.

(** A possibly [undefined] value handed to a parameter typed [string]. *)
Definition to_str (v : option json) : string :=
  match v with Some j => ToString j | None => "undefined" end.

(** The loop appends [String.fromCharCode(bytes[i])] byte by byte, which is
    what [string_of_list_byte] does; [base64ToBuffer] reads the char codes
    back with [list_byte_of_string]. *)
Definition bufferToBase64 (buffer : list Byte.byte) : string :=
  btoa (string_of_list_byte buffer).

Definition base64ToBuffer (base64 : string) : Eff (list Byte.byte) :=
  let! binaryString := lift "InvalidCharacterError" (atob base64) in
  ret (list_byte_of_string binaryString).

Definition importPublicKey (pem : string) : Eff PublicKey :=
  let! binaryDer := base64ToBuffer pem in
  do! emit (SubtleImportKey "spki") in
  lift "DataError" (spki_import binaryDer).

Definition generateAESKey : Eff AESKey :=
  do! emit (GenerateKey "AES-GCM") in
  let! t := draw in
  ret (aes_generate t).

Definition getRandomValues (n : nat) : Eff (list Byte.byte) :=
  do! emit (GetRandomValues n) in
  let! t := draw in
  ret (random_values t n).

Definition encryptWithAES (text : string) (key : AESKey) : Eff (string * string) :=
  let! iv := getRandomValues 12 in
  do! emit (SubtleEncrypt "AES-GCM") in
  let encrypted := aes_gcm_encrypt key iv (TextEncoder_encode text) in
  ret (bufferToBase64 encrypted, bufferToBase64 iv).

Definition decryptWithAES (encryptedBase64 ivBase64 : string) (key : AESKey)
    : Eff string :=
  try_catch
    (let! encryptedBytes := base64ToBuffer encryptedBase64 in
     let! ivBytes := base64ToBuffer ivBase64 in
     do! emit (SubtleDecrypt "AES-GCM") in
     let! decryptedBuffer :=
       lift "OperationError" (aes_gcm_decrypt key ivBytes encryptedBytes) in
     ret (TextDecoder_decode decryptedBuffer))
    (λ error,
     do! emit (ConsoleError "AES Decryption failed:") in
     throw error).

Definition encryptAESKeyForUser (aesKey : AESKey) (userPublicKey : PublicKey)
    : Eff string :=
  do! emit (SubtleExportKey "raw") in
  let exported := aes_export_raw aesKey in
  do! emit (SubtleEncrypt "RSA-OAEP") in
  let! encrypted :=
    lift "OperationError" (rsa_oaep_encrypt userPublicKey exported) in
  ret (bufferToBase64 encrypted).

Definition decryptAESKeyWithUserPrivateKey (encryptedAESKeyBase64 : string)
    (userPrivateKey : PrivateKey) : Eff AESKey :=
  try_catch
    (let! bytes := base64ToBuffer encryptedAESKeyBase64 in
     do! emit (SubtleDecrypt "RSA-OAEP") in
     let! decryptedBuffer :=
       lift "OperationError" (rsa_oaep_decrypt userPrivateKey bytes) in
     do! emit (SubtleImportKey "raw") in
     lift "DataError" (aes_import_raw decryptedBuffer))
    (λ error,
     do! emit (ConsoleError "AES Key decryption failed:") in
     throw error).

(** The object literal [{content, iv, key, v: "h1"}]. *)
Definition hybrid_packet (content iv key : string) : json :=
  JObj (<["v" := JStr "h1"]> (<["key" := JStr key]>
       (<["iv" := JStr iv]> (<["content" := JStr content]> ∅)))).

Definition encryptMessage (message : string) (publicKey : PublicKey) : Eff string :=
  try_catch
    (let! aesKey := generateAESKey in
     let! encrypted := encryptWithAES message aesKey in
     let! encryptedKey := encryptAESKeyForUser aesKey publicKey in
     ret (JSON_stringify (hybrid_packet encrypted.1 encrypted.2 encryptedKey)))
    (λ e,
     do! emit (ConsoleError "Hybrid encryption failed, falling back to RSA") in
     let data := TextEncoder_encode message in
     do! emit (SubtleEncrypt "RSA-OAEP") in
     let! encrypted := lift "OperationError" (rsa_oaep_encrypt publicKey data) in
     ret (bufferToBase64 encrypted)).

(** The legacy branch, written out twice in [decryptMessage]: once in the
    handler of the failed [JSON.parse], once after the shape test. *)
Definition legacy_rsa (encryptedStr : string) (privateKey : PrivateKey) : Eff string :=
  let! data := base64ToBuffer encryptedStr in
  do! emit (SubtleDecrypt "RSA-OAEP") in
  let! decryptedBuffer :=
    lift "OperationError" (rsa_oaep_decrypt privateKey data) in
  ret (TextDecoder_decode decryptedBuffer).

(** [packet.v === "h1" && packet.key && packet.content && packet.iv] *)
Definition is_h1 (v key content iv : option json) : bool :=
  strict_eq_str v "h1" && truthy key && truthy content && truthy iv.

(** The [try] block of [decryptMessage]. *)
Definition decryptMessage_try (encryptedStr : string) (privateKey : PrivateKey)
    : Eff string :=
  match JSON_parse encryptedStr with
  | None => legacy_rsa encryptedStr privateKey
  | Some packet =>
      let! v := get_prop packet "v" in
      let! key := get_prop packet "key" in
      let! content := get_prop packet "content" in
      let! iv := get_prop packet "iv" in
      if is_h1 v key content iv then
        let! aesKey :=
          decryptAESKeyWithUserPrivateKey (to_str key) privateKey in
        decryptWithAES (to_str content) (to_str iv) aesKey
      else legacy_rsa encryptedStr privateKey
  end.

Definition decryptMessage (encryptedStr : string) (privateKey : PrivateKey)
    : Eff string :=
  try_catch (decryptMessage_try encryptedStr privateKey)
    (λ error, ret "[Secure Signal]").

(** Does a parsed packet pass the shape test of [decryptMessage]? *)
Definition h1_shape (packet : json) : bool :=
  match packet with
  | JObj f => is_h1 (f !! "v") (f !! "key") (f !! "content") (f !! "iv")
  | _ => false
  end.

Definition encryptBlob (blob : Blob) (key : AESKey) : Eff (Blob * string) :=
  let! iv := getRandomValues 12 in
  let arrayBuffer := blob_bytes blob in
  do! emit (SubtleEncrypt "AES-GCM") in
  let encrypted := aes_gcm_encrypt key iv arrayBuffer in
  ret (mkBlob encrypted "application/octet-stream", bufferToBase64 iv).

Definition decryptToBlob (encryptedArrayBuffer : list Byte.byte)
    (ivBase64 : string) (key : AESKey) (mimeType : string) : Eff Blob :=
  try_catch
    (let! ivBytes := base64ToBuffer ivBase64 in
     do! emit (SubtleDecrypt "AES-GCM") in
     let! decryptedBuffer :=
       lift "OperationError"
            (aes_gcm_decrypt key ivBytes encryptedArrayBuffer) in
     ret (mkBlob decryptedBuffer mimeType))
    (λ error,
     do! emit (ConsoleError "Blob decryption failed:") in
     throw error).

End WithPlatform.
End Crypto.

(** [s.endsWith(suffix)]: some tail of [s] is [suffix]. *)
Fixpoint endsWith (s suffix : string) : bool :=
  bool_decide (s = suffix) ||
  match s with
  | EmptyString => false
  | String _ rest => endsWith rest suffix
  end.

(** ** The Chat component *)

(** An element of the component's [messages] state: a row as it was
    delivered, its id, and what [decryptMessageContent] made of it. *)
Record ChatMessage := mkChatMessage {
  id : string;
  row : Message;
  decrypted_content : string
}.

Module Chat.
Section WithSession.
Context `{Platform}.

(** [session.user.id], [initialContact.id] and the [privateKey] prop. *)
Variables (me contact : string) (privateKey : option PrivateKey).

(** Answers of the collaborators: the [public_key] column of [profiles]
    (absent when there is no row or the column is null), whether the
    message query, the upload and the insert fail, the public URL of an
    uploaded path and the id the store gives an inserted row. *)
Variables (profiles : gmap string string)
          (query_error insert_error : bool) (upload_error : option string)
          (getPublicUrl : string → string) (inserted_id : string).

Import Crypto.

Fixpoint mapM {A B} (f : A → Eff B) (l : list A) : Eff (list B) :=
  match l with
  | [] => ret []
  | a :: rest =>
      let! b := f a in
      let! bs := mapM f rest in
      ret (b :: bs)
  end.

Fixpoint forM_ {A} (l : list A) (f : A → Eff unit) : Eff unit :=
  match l with
  | [] => ret tt
  | a :: rest => do! f a in forM_ rest f
  end.

Definition is_image_or_snapshot (mediaType : string) : bool :=
  bool_decide (mediaType = "image") || bool_decide (mediaType = "snapshot").

Definition decryptMessageContent (msg : Message) : Eff string :=
  try_catch
    (match encrypted_content msg with
     | None => ret "[Empty Signal]"
     | Some raw =>
       if bool_decide (raw = "") then ret "[Empty Signal]" else
       match JSON_parse raw with
       | None => ret raw
       | Some packet =>
         let! iv := get_prop packet "iv" in
         let! content := get_prop packet "content" in
         let! keys := get_prop packet "keys" in
         if negb (truthy iv) || negb (truthy content) || negb (truthy keys)
         then ret raw
         else
           let! encryptedAESKey := get_prop (default JNull keys) me in
           if negb (truthy encryptedAESKey)
           then ret "[Secure Signal: Key mismatch for current node]"
           else
             match privateKey with
             | None => ret "[Decrypting...]"
             | Some sk =>
               let! aesKey :=
                 decryptAESKeyWithUserPrivateKey (to_str encryptedAESKey) sk in
               if is_image_or_snapshot (media_type msg) then
                 match media_url msg with
                 | None => ret "[Media Missing]"
                 | Some url =>
                   if bool_decide (url = "") then ret "[Media Missing]" else
                   do! emit (Fetch url) in
                   let! encryptedArrayBuffer := lift "TypeError" (http_get url) in
                   let mimeType :=
                     if bool_decide (media_type msg = "snapshot")
                     then "image/jpeg" else "image/*" in
                   let! media_iv := get_prop packet "media_iv" in
                   let! decryptedBlob :=
                     decryptToBlob encryptedArrayBuffer
                       (to_str (if truthy media_iv then media_iv else iv))
                       aesKey mimeType in
                   let! t := draw in
                   let url := object_url t decryptedBlob in
                   do! emit (SetBlobUrl url) in
                   ret url
                 end
               else
                 let! decrypted :=
                   decryptWithAES (to_str content) (to_str iv) aesKey in
                 ret (if bool_decide (decrypted = "")
                      then "[Empty Signal]" else decrypted)
             end
       end
     end)
    (λ e, ret "[Secure Signal]").

(** Does a parsed packet pass the shape test of [decryptMessageContent]
    ([iv], [content] and [keys] all truthy)? *)
Definition chat_shape (packet : json) : bool :=
  match packet with
  | JObj f => truthy (f !! "iv") && truthy (f !! "content") && truthy (f !! "keys")
  | _ => false
  end.

(** The [.or(and(...),and(...))] filter of the message query. *)
Definition in_conversation (m : Message) : bool :=
  (bool_decide (sender_id m = me) && bool_decide (receiver_id m = contact)) ||
  (bool_decide (sender_id m = contact) && bool_decide (receiver_id m = me)).

(** [m.receiver_id === session.user.id && !m.is_viewed] *)
Definition unviewed (m : Message) : bool :=
  bool_decide (receiver_id m = me) && negb (truthy_bool (is_viewed m)).

(** [baseUpdate] of one unviewed row; [toISOString()] throws when the
    expiry is no date. *)
Definition view_update (now : Z) (m : Message) : Eff Patch :=
  if truthy_bool (is_disappearing m) && truthy_num (disappearing_duration m) then
    let! expires_at :=
      toISOString (now + or_zero (disappearing_duration m) * 60 * 1000) in
    ret (mkPatch (Some true) (Some now) None (Some expires_at))
  else ret (mkPatch (Some true) (Some now) None None).

Definition fetchMessages : Eff unit :=
  do! emit (SetLoading true) in
  do! try_catch
    (let! tbl := get_db in
     if query_error then ret tt else
     let data := map_to_list (filter (λ kv, in_conversation kv.2 = true) tbl) in
     let! decryptedMessages :=
       mapM (λ kv, let! d := decryptMessageContent kv.2 in ret (kv.1, d)) data in
     do! emit (SetMessages decryptedMessages) in
     let unviewed := List.filter (λ kv, unviewed kv.2) data in
     if (0 <? length unviewed)%nat then
       let! now := Date_now in
       let! updates :=
         mapM (λ kv, let! baseUpdate := view_update now kv.2 in
                     ret (kv.1, baseUpdate)) unviewed in
       forM_ updates (λ update, db_update update.1 update.2)
     else ret tt)
    (λ err, emit (ConsoleError "Fetch messages error:")) in
  emit (SetLoading false).

(** The [keys] object: computed names, the later one wins on a clash. *)
Definition keys_object (encryptedKeyForMe encryptedKeyForPartner : string)
    : gmap string json :=
  <[contact := JStr encryptedKeyForPartner]> (<[me := JStr encryptedKeyForMe]> ∅).

(** The object literal given to [JSON.stringify] in [sendMessage]. *)
Definition envelope (iv content : string) (mediaIv : option string)
    (encryptedKeyForMe encryptedKeyForPartner : string) : json :=
  JObj (<["keys" := JObj (keys_object encryptedKeyForMe encryptedKeyForPartner)]>
       (<["media_iv" := match mediaIv with Some s => JStr s | None => JNull end]>
       (<["content" := JStr content]>
       (<["iv" := JStr iv]> ∅)))).

(** The object literal [messageData]; columns it does not name are left
    to the store ([None]). *)
Definition messageData (autoDeleteMode : string) (now : Z) (packet : string)
    (mediaType : string) (mediaUrl : option string) : Message :=
  mkMessage me contact (Some packet) mediaType mediaUrl
    (Some false) None None
    (Some (bool_decide (autoDeleteMode = "view")))
    (Some (endsWith autoDeleteMode "_view"))
    (if bool_decide (autoDeleteMode = "1m_view") then Some 1
     else if bool_decide (autoDeleteMode = "1h_view") then Some 60
     else if bool_decide (autoDeleteMode = "3h_view") then Some 180
     else None)
    (if bool_decide (autoDeleteMode = "3h") then Some (now + 3 * 60 * 60 * 1000)
     else if bool_decide (autoDeleteMode = "1m") then Some (now + 60 * 1000)
     else None)
    None.

(** [supabase.from("messages").insert(messageData).select()] *)
Definition db_insert (m : Message) : Eff (option string) :=
  do! emit (DbInsert m) in
  if insert_error then ret None else
  let! tbl := get_db in
  do! set_db (<[inserted_id := m]> tbl) in
  ret (Some inserted_id).

Definition sendMessage (newMessage autoDeleteMode : string)
    (myPublicKey : option PublicKey)
    (mediaType : string) (mediaBlob : option Blob) : Eff unit :=
  let textToSend := String_trim newMessage in
  if bool_decide (textToSend = "")
     && match mediaBlob with None => true | Some _ => false end
  then ret tt else
  try_catch
    (match profiles !! contact with
     | None =>
         emit (ToastError "Partner node not synchronized. Encryption impossible.")
     | Some partner_public_key =>
       if bool_decide (partner_public_key = "") then
         emit (ToastError "Partner node not synchronized. Encryption impossible.")
       else
       let! currentMyPublicKey :=
         match myPublicKey with
         | Some k => ret (Some k)
         | None =>
           match profiles !! me with
           | None => ret None
           | Some my_public_key =>
             if bool_decide (my_public_key = "") then ret None else
             let! k := importPublicKey my_public_key in
             ret (Some k)
           end
         end in
       match currentMyPublicKey with
       | None => emit (ToastError "Your encryption keys are not ready.")
       | Some currentMyPublicKey =>
         let! aesKey := generateAESKey in
         let! media :=
           match mediaBlob with
           | None => ret (None, None)
           | Some blob =>
             let! enc := encryptBlob blob aesKey in
             let! now := Date_now in
             let fileName := mediaType +:+ "-" +:+ ToString (JNum now) +:+ ".enc" in
             let filePath := "chat/" +:+ me +:+ "/" +:+ fileName in
             do! emit (StorageUpload filePath) in
             match upload_error with
             | Some e => throw e
             | None => ret (Some (getPublicUrl filePath), Some enc.2)
             end
           end in
         let mediaUrl := media.1 in
         let mediaIv := media.2 in
         let contentToEncrypt :=
           if bool_decide (textToSend = "") then " " else textToSend in
         let! encrypted := encryptWithAES contentToEncrypt aesKey in
         let! partnerKey := importPublicKey partner_public_key in
         let! encryptedKeyForPartner := encryptAESKeyForUser aesKey partnerKey in
         let! encryptedKeyForMe := encryptAESKeyForUser aesKey currentMyPublicKey in
         let packet :=
           JSON_stringify
             (envelope encrypted.2 encrypted.1 mediaIv
                encryptedKeyForMe encryptedKeyForPartner) in
         let! now := Date_now in
         let! inserted :=
           db_insert (messageData autoDeleteMode now packet mediaType mediaUrl) in
         match inserted with
         | None => ret tt
         | Some new_id =>
           let! decryptedContent :=
             match mediaBlob with
             | None => ret contentToEncrypt
             | Some blob =>
               let! t := draw in
               do! emit (SetBlobUrl (object_url t blob)) in
               ret (object_url t blob)
             end in
           do! emit (AppendMessage new_id decryptedContent) in
           emit (SetNewMessage "")
         end
       end
     end)
    (λ e,
     do! emit (ConsoleError "Send message error:") in
     emit (ToastError "Signal encryption failed")).

Definition openSnapshot (message : ChatMessage) : Eff unit :=
  if bool_decide (receiver_id (row message) = me)
     && (2 <=? or_zero (view_count (row message)))
  then emit (ToastError "Signal purged")
  else
    do! emit (SetShowSnapshotView (id message) (decrypted_content message)) in
    if bool_decide (receiver_id (row message) = me) then
      let newViews := or_zero (view_count (row message)) + 1 in
      db_update (id message) (mkPatch (Some (2 <=? newViews)) None (Some newViews) None)
    else ret tt.

End WithSession.

(** A snapshot from [alice] to [bob], not yet opened. *)
Definition sample_snapshot : Message :=
  mkMessage "alice" "bob" (Some "[bob]") "snapshot" (Some "https://cdn/s1.enc")
    (Some false) None None (Some true) (Some false) None None None.

Definition sample_world : World :=
  mkWorld 0 1000 [] (<["s1" := sample_snapshot]> ∅).

End Chat.

(** ** What is assumed of the platform *)

(** Base64 text parses, if at all, to a JSON primitive. *)
Definition json_primitive (j : json) : Prop :=
  match j with JNull | JBool _ | JNum _ => True | _ => False end.

Class PlatformLaws `{Platform} : Prop := {
  atob_btoa : ∀ s, atob (btoa s) = Some s;
  btoa_nonempty : ∀ s, s ≠ "" → btoa s ≠ "";
  btoa_parse_primitive : ∀ s j, JSON_parse (btoa s) = Some j → json_primitive j;
  btoa_parse_null : ∀ s, JSON_parse (btoa s) = Some JNull → String.length s = 3%nat;
  JSON_roundtrip_h1 : ∀ content iv key,
    JSON_parse (JSON_stringify (Crypto.hybrid_packet content iv key))
    = Some (Crypto.hybrid_packet content iv key);
  ToString_JStr : ∀ s, ToString (JStr s) = s;
  aes_gcm_correct : ∀ k iv m,
    aes_gcm_decrypt k iv (aes_gcm_encrypt k iv m) = Some m;
  aes_gcm_ciphertext_nonempty : ∀ k iv m, aes_gcm_encrypt k iv m ≠ [];
  aes_raw_roundtrip : ∀ k, aes_import_raw (aes_export_raw k) = Some k;
  random_values_length : ∀ t n, length (random_values t n) = n
}.

(** [publicKey] and [privateKey] belong together: what the one encrypts
    the other decrypts, a raw AES key fits into one RSA-OAEP block, and a
    ciphertext is as long as the modulus (far more than three bytes). *)
Record KeyPair `{Platform} (publicKey : PublicKey) (privateKey : PrivateKey)
    : Prop := {
  rsa_oaep_correct : ∀ m c,
    rsa_oaep_encrypt publicKey m = Some c → rsa_oaep_decrypt privateKey c = Some m;
  rsa_oaep_wraps_keys : ∀ t,
    is_Some (rsa_oaep_encrypt publicKey (aes_export_raw (aes_generate t)));
  rsa_oaep_ciphertext_long : ∀ m c,
    rsa_oaep_encrypt publicKey m = Some c → (3 < length c)%nat
}.

(** ** A small executable platform

    It satisfies [PlatformLaws], so the assumptions are consistent, and the
    functions above can be run on it. *)

Module Model.

Fixpoint enc_str (s : string) : string :=
  match s with
  | EmptyString => "0"
  | String c rest => String "1" (String c (enc_str rest))
  end.

Fixpoint dec_str (s : string) : option (string * string) :=
  match s with
  | String "0" rest => Some ("", rest)
  | String "1" (String c rest) =>
      match dec_str rest with
      | Some (x, rest') => Some (String c x, rest')
      | None => None
      end
  | _ => None
  end.

Definition as_str (v : option json) : string :=
  match v with Some (JStr s) => s | _ => "" end.

Definition stringify (j : json) : string :=
  match j with
  | JNull => "null"
  | JObj fields =>
      String "{" (enc_str (as_str (fields !! "content"))
                  +:+ (enc_str (as_str (fields !! "iv"))
                  +:+ (enc_str (as_str (fields !! "key")) +:+ "")))
  | _ => "0"
  end.

(** A document with [iv], [content] and a [keys] object for [bob] only. *)
Definition for_bob : json :=
  JObj (<["keys" := JObj (<["bob" := JStr "bWJvYg=="]> ∅)]>
       (<["content" := JStr "Yw=="]> (<["iv" := JStr "aXY="]> ∅))).

Definition parse (s : string) : option json :=
  match s with
  | String "{" rest =>
      match dec_str rest with
      | Some (content, rest1) =>
        match dec_str rest1 with
        | Some (iv, rest2) =>
          match dec_str rest2 with
          | Some (key, "") => Some (Crypto.hybrid_packet content iv key)
          | _ => None
          end
        | None => None
        end
      | None => None
      end
  | _ =>
      if bool_decide (s = "null") then Some JNull
      else if bool_decide (s = "7") then Some (JNum 7)
      else if bool_decide (s = "[bob]") then Some for_bob
      else None
  end.

Definition rsa_encrypt (k : Byte.byte) (m : list Byte.byte)
    : option (list Byte.byte) :=
  Some (k :: k :: k :: k :: m).

Definition rsa_decrypt (k : Byte.byte) (c : list Byte.byte)
    : option (list Byte.byte) :=
  match c with
  | a :: b :: c :: d :: m =>
      if Byte.eqb a k && Byte.eqb b k && Byte.eqb c k && Byte.eqb d k
      then Some m else None
  | _ => None
  end.

Definition aes_decrypt (k iv c : list Byte.byte) : option (list Byte.byte) :=
  match c with
  | t :: m => if Byte.eqb t Byte.x47 then Some m else None
  | [] => None
  end.

#[export] Instance platform : Platform := {|
  PublicKey := Byte.byte;
  PrivateKey := Byte.byte;
  AESKey := list Byte.byte;
  btoa := λ s, String "b" s;
  atob := λ s, match s with String "b" r => Some r | _ => None end;
  JSON_parse := parse;
  JSON_stringify := stringify;
  ToString := λ j, as_str (Some j);
  TextEncoder_encode := list_byte_of_string;
  TextDecoder_decode := string_of_list_byte;
  rsa_oaep_encrypt := rsa_encrypt;
  rsa_oaep_decrypt := rsa_decrypt;
  aes_gcm_encrypt := λ k iv m, Byte.x47 :: m;
  aes_gcm_decrypt := aes_decrypt;
  aes_generate := λ t, repeat Byte.x2a 32;
  aes_export_raw := λ k, k;
  aes_import_raw := λ raw, Some raw;
  spki_import := λ der, match der with [k] => Some k | _ => None end;
  random_values := λ t n, repeat Byte.x00 n;
  http_get := λ url, None;
  object_url := λ t b, "blob:0";
  String_trim := λ s, s
|}.

Definition world0 : World := mkWorld 0 1000 [] ∅.

End Model.

(** ** The cleanup route *)

Module Cleanup.

(** What the store may answer besides data. *)
Record Faults := mkFaults {
  fetch_error : option string;
  delete_error : option string
}.

Definition no_faults : Faults := mkFaults None None.

Inductive Body :=
| ErrorBody (error : string)
| DeletedBody (message : string) (deleted : Z).

Record Response := mkResponse { body : Body; status : Z }.

(** [.eq("is_viewed", true)] *)
Definition eq_is_viewed_true (m : Message) : bool :=
  match is_viewed m with Some true => true | _ => false end.

(** [.or("is_saved.is.null,is_saved.eq.false")] *)
Definition or_is_saved (m : Message) : bool :=
  match is_saved m with None => true | Some b => negb b end.

(** [.or(`expires_at.is.null,expires_at.lt.${now}`)] *)
Definition or_expires_at (now : Z) (m : Message) : bool :=
  match expires_at m with None => true | Some t => t <? now end.

(** The three filters of one request are conjoined. *)
Definition selected (now : Z) (m : Message) : bool :=
  eq_is_viewed_true m && or_is_saved m && or_expires_at now m.

(** [.from("messages").select("id")...]: the ids of the matching rows. *)
Definition select_ids (now : Z) (tbl : Table) : list string :=
  (map_to_list (filter (λ kv, selected now kv.2 = true) tbl)).*1.

(** [[...new Set(ids)]]: first occurrences, in insertion order. *)
Definition Set_add (acc : list string) (x : string) : list string :=
  if decide (x ∈ acc) then acc else acc ++ [x].

Definition spread_Set (ids : list string) : list string :=
  fold_left Set_add ids [].

(** [.delete().in("id", uniqueIds)] *)
Definition delete_in (ids : list string) (tbl : Table) : Table :=
  filter (λ kv, kv.1 ∉ ids) tbl.

(** The body of [POST] after the query has answered
    [messagesToDelete]; returns the response, the delete request that was
    issued (if any) and the table afterwards. *)
Definition POST_after_fetch (f : Faults) (messagesToDelete : option (list string))
    (tbl : Table) : Response * option (list string) * Table :=
  let idsToDelete := default [] messagesToDelete in
  let uniqueIds := spread_Set idsToDelete in
  if (length uniqueIds =? 0)%nat then
    (mkResponse (DeletedBody "No messages to delete" 0) 200, None, tbl)
  else
    match delete_error f with
    | Some e => (mkResponse (ErrorBody e) 500, Some uniqueIds, tbl)
    | None =>
        (mkResponse (DeletedBody "Messages cleaned up" (Z.of_nat (length uniqueIds))) 200,
         Some uniqueIds, delete_in uniqueIds tbl)
    end.

Definition POST (f : Faults) (now : Z) (tbl : Table)
    : Response * option (list string) * Table :=
  match fetch_error f with
  | Some e => (mkResponse (ErrorBody e) 500, None, tbl)
  | None => POST_after_fetch f (Some (select_ids now tbl)) tbl
  end.

Definition GET := POST.

(** The filter, in the words of the specification. *)
Definition completed (now : Z) (m : Message) : Prop :=
  is_viewed m = Some true
  ∧ (is_saved m = None ∨ is_saved m = Some false)
  ∧ (expires_at m = None ∨ ∃ t, expires_at m = Some t ∧ t < now).

(** The ids the sweep asks the store to delete. *)
Definition requested (r : Response * option (list string) * Table) : list string :=
  default [] r.1.2.


(** Four rows at time 100: [a] is viewed with no expiry, [b] is viewed
    and expires at 500, [c] is viewed, expired and saved, [d] is not
    viewed. *)
Definition sample_row (viewed saved : option bool) (expires : option Z) : Message :=
  mkMessage "alice" "bob" (Some "x") "text" None viewed None None
    (Some false) (Some false) None expires saved.

Definition sample_table : Table :=
  <["a" := sample_row (Some true) None None]>
  (<["b" := sample_row (Some true) (Some false) (Some 500)]>
  (<["c" := sample_row (Some true) (Some true) (Some 50)]>
  (<["d" := sample_row (Some false) None None]> ∅))).

End Cleanup.

(** ** Vocabulary of the properties *)

Module Observations.
Import Crypto Chat.

(** [preserves I m]: running [m] takes every world to an [I]-related one. *)
Definition preserves {A} (I : relation World) (m : Eff A) : Prop :=
  ∀ w, I w (m w).2.

Definition store_request (ev : Event) : Prop :=
  match ev with DbInsert _ | DbUpdate _ _ => True | _ => False end.

(** Same table, same instant. *)
Definition same_store : relation World :=
  λ w w', db w' = db w ∧ clock w' = clock w.

(** The update loop, as a fold over the table. *)
Definition apply_updates (tbl : Table) (updates : list (string * Patch)) : Table :=
  foldl (λ t u, alter (apply_patch u.2) u.1 t) tbl updates.

(** The rows the query returns that the loop will update. *)
Definition to_update (me contact : string) (w : World) : list (string * Message) :=
  List.filter (λ kv, unviewed me kv.2)
    (map_to_list (filter (λ kv, in_conversation me contact kv.2 = true) (db w))).

(** The expiry that viewing [m] at [now] calls for is a date: [m] is not
    disappearing, or has no duration, or the duration added to [now] is a
    time value. *)
Definition expiry_is_date (now : Z) (m : Message) : bool :=
  negb (truthy_bool (is_disappearing m) && truthy_num (disappearing_duration m))
  || time_value (now + or_zero (disappearing_duration m) * 60 * 1000).

(** The update of a row viewed at [now] when its expiry is a date. *)
Definition view_patch (now : Z) (m : Message) : Patch :=
  mkPatch (Some true) (Some now) None
    (if truthy_bool (is_disappearing m) && truthy_num (disappearing_duration m)
     then Some (now + or_zero (disappearing_duration m) * 60 * 1000)
     else None).

(** Every row that a fetch in [w] would update has an expiry that is a
    date. *)
Definition dates_in_range (me contact : string) (w : World) : Prop :=
  ∀ j r, (j, r) ∈ to_update me contact w → expiry_is_date (clock w) r = true.

(** The sender's public key is at hand as [myKey]: in the component's
    state, or else as the importable [public_key] of their profile. *)
Definition own_key `{Platform} (profiles : gmap string string) (me : string)
    (myPublicKey : option PublicKey) (myKey : PublicKey) : Prop :=
  myPublicKey = Some myKey
  ∨ (myPublicKey = None
     ∧ ∃ pem der, profiles !! me = Some pem ∧ pem ≠ ""
                  ∧ atob pem = Some der
                  ∧ spki_import (list_byte_of_string der) = Some myKey).

(** The platform calls that getting hold of that key takes. *)
Definition own_key_events `{Platform} (myPublicKey : option PublicKey)
    : list Event :=
  match myPublicKey with
  | Some _ => []
  | None => [SubtleImportKey "spki"]
  end.

(** What the specification says of a record created under [mode] at
    instant [now]. *)
Definition lifecycle_of (mode : string) (now : Z) (m : Message) : Prop :=
  let minute := 60 * 1000 in
  (∃ b, is_view_once m = Some b ∧ (b = true ↔ mode = "view"))
  ∧ (∃ b, is_disappearing m = Some b ∧ (b = true ↔ ∃ p, mode = p +:+ "_view"))
  ∧ (mode = "1m_view" → disappearing_duration m = Some 1)
  ∧ (mode = "1h_view" → disappearing_duration m = Some 60)
  ∧ (mode = "3h_view" → disappearing_duration m = Some 180)
  ∧ (mode ≠ "1m_view" → mode ≠ "1h_view" → mode ≠ "3h_view" →
     disappearing_duration m = None)
  ∧ (mode = "3h" → expires_at m = Some (now + 180 * minute))
  ∧ (mode = "1m" → expires_at m = Some (now + 1 * minute))
  ∧ (mode ≠ "3h" → mode ≠ "1m" → expires_at m = None).

(** The trace only grows, the clock stands at [c], and every record the
    added events insert satisfies [P]. *)
Definition inserts_only (c : Z) (P : Message → Prop) : relation World :=
  λ w w', clock w = c →
    clock w' = c
    ∧ ∃ evs, trace w' = trace w ++ evs ∧ ∀ m, DbInsert m ∈ evs → P m.

(** The legacy decryption of the whole string, with the placeholder of
    [decryptMessage] on failure. *)
Definition legacy_or_placeholder `{Platform} (s : string) (sk : PrivateKey)
    : Eff string :=
  try_catch (legacy_rsa s sk) (λ _, ret "[Secure Signal]").

(** The input is not JSON, or is JSON other than [null] that fails the
    shape test [shape]. *)
Definition not_hybrid `{Platform} (shape : json → bool) (s : string) : Prop :=
  JSON_parse s = None
  ∨ ∃ j, JSON_parse s = Some j ∧ j ≠ JNull ∧ shape j = false.




(** The events of a successful text-only send, in order. *)
Definition text_events (inserted_id : string) (m : Message) (text : string) : list Event :=
  [GenerateKey "AES-GCM"; GetRandomValues 12; SubtleEncrypt "AES-GCM";
   SubtleImportKey "spki";
   SubtleExportKey "raw"; SubtleEncrypt "RSA-OAEP";
   SubtleExportKey "raw"; SubtleEncrypt "RSA-OAEP";
   DbInsert m; AppendMessage inserted_id text; SetNewMessage ""].

(** The events of a successful send with an attachment, in order. *)
Definition media_events (inserted_id : string) (m : Message) (path url : string) : list Event :=
  [GenerateKey "AES-GCM"; GetRandomValues 12; SubtleEncrypt "AES-GCM";
   StorageUpload path;
   GetRandomValues 12; SubtleEncrypt "AES-GCM";
   SubtleImportKey "spki";
   SubtleExportKey "raw"; SubtleEncrypt "RSA-OAEP";
   SubtleExportKey "raw"; SubtleEncrypt "RSA-OAEP";
   DbInsert m; SetBlobUrl url; AppendMessage inserted_id url; SetNewMessage ""].

End Observations.

(** ** Sample data on the executable platform *)

Module Samples.
Import Crypto Chat Model.

(** A legacy ciphertext of "hi" under key [x01], as it is stored. *)
Definition legacy_hi : string :=
  bufferToBase64 (H:=platform) (Byte.x01 :: Byte.x01 :: Byte.x01 :: Byte.x01 ::
                  list_byte_of_string "hi").

Definition legacy_row : Message :=
  mkMessage "alice" "bob" (Some legacy_hi) "text" None
    (Some false) None None (Some false) (Some false) None None None.

Definition for_bob_row : Message :=
  mkMessage "bob" "carol" (Some "[bob]") "text" None
    (Some false) None None (Some false) (Some false) None None None.

(** [alice] sends "hi" to [bob] under mode "3h" at instant 1000. *)
Definition bob_profile : gmap string string := <["bob" := "bB"]> ∅.

Definition alice_sends : Eff unit :=
  sendMessage (H:=platform) "alice" "bob" bob_profile false None (λ p, p) "m1"
    "hi" "3h" (Some Byte.x41) "text" None.

Definition sent_envelope : json :=
  let k := aes_generate (Platform:=platform) 0 in
  let iv := random_values (Platform:=platform) 1 12 in
  envelope "alice" "bob" (bufferToBase64 (H:=platform) iv)
    (bufferToBase64 (H:=platform)
       (aes_gcm_encrypt (Platform:=platform) k iv (list_byte_of_string "hi")))
    None
    (bufferToBase64 (H:=platform)
       (Byte.x41 :: Byte.x41 :: Byte.x41 :: Byte.x41 :: k))
    (bufferToBase64 (H:=platform)
       (Byte.x42 :: Byte.x42 :: Byte.x42 :: Byte.x42 :: k)).

Definition sent_record : Message :=
  messageData "alice" "bob" "3h" 1000
    (JSON_stringify (Platform:=platform) sent_envelope) "text" None.

End Samples.

(** ** The clear-chat route *)

Module Clear.
Section WithPlatform.
Context `{Platform}.

Inductive Body :=
| ErrorBody (error : string)
| SuccessBody.

Record Response := mkResponse { body : Body; status : Z }.

(** An id made of letters, digits, [-] and [_] only, as a UUID is.  The
    route pastes the ids into the filter text as they come; the store
    reads such an id back as the value it is, whereas a comma, a
    parenthesis, a quote or the like would change the filter. *)
Definition id_char (c : ascii) : bool :=
  let n := N_of_ascii c in
  ((48 <=? n) && (n <=? 57) || (65 <=? n) && (n <=? 90)
   || (97 <=? n) && (n <=? 122) || (n =? 45) || (n =? 95))%N.

Definition plain_id (s : string) : bool :=
  forallb id_char (list_ascii_of_string s).

(** [and(sender_id.eq.u,receiver_id.eq.c),and(sender_id.eq.c,receiver_id.eq.u)]
    as the store reads it when both ids are plain. *)
Definition between (userId contactId : string) (m : Message) : bool :=
  (bool_decide (sender_id m = userId) && bool_decide (receiver_id m = contactId))
  || (bool_decide (sender_id m = contactId) && bool_decide (receiver_id m = userId)).

(** [.delete().or(...)] *)
Definition delete_between (userId contactId : string) (tbl : Table) : Table :=
  filter (λ kv, between userId contactId kv.2 = false) tbl.

(** [POST]: [request_json] is what [req.json()] gives, [inl msg] when it
    throws with message [msg]; [type_error] is the message of the
    [TypeError] raised by destructuring [null]; [delete_error] the error of
    the store, if any. *)
Definition POST (type_error : string) (delete_error : option string)
    (request_json : string + json) (tbl : Table) : Response * Table :=
  match request_json with
  | inl msg => (mkResponse (ErrorBody msg) 500, tbl)
  | inr JNull => (mkResponse (ErrorBody type_error) 500, tbl)
  | inr parsed =>
      let userId := own_prop parsed "userId" in
      let contactId := own_prop parsed "contactId" in
      if negb (truthy userId) || negb (truthy contactId) then
        (mkResponse (ErrorBody "Missing parameters") 400, tbl)
      else
        match delete_error with
        | Some e => (mkResponse (ErrorBody e) 500, tbl)
        | None =>
            (mkResponse SuccessBody 200,
             delete_between (Crypto.to_str userId) (Crypto.to_str contactId) tbl)
        end
  end.

(** The body [{ userId, contactId }]. *)
Definition clear_request (userId contactId : string) : string + json :=
  inr (JObj (<["contactId" := JStr contactId]> (<["userId" := JStr userId]> ∅))).

End WithPlatform.
End Clear.

(** ** lib/crypto.ts: tokens *)

Module Token.
Section WithPlatform.
Context `{Platform}.

Definition hex_digit (d : N) : ascii :=
  match d with
  | 0%N => "0" | 1%N => "1" | 2%N => "2" | 3%N => "3" | 4%N => "4"
  | 5%N => "5" | 6%N => "6" | 7%N => "7" | 8%N => "8" | 9%N => "9"
  | 10%N => "a" | 11%N => "b" | 12%N => "c" | 13%N => "d" | 14%N => "e"
  | _ => "f"
  end%char.

(** [byte.toString(16)] for a byte: one digit below 16, two from there on. *)
Definition toString16 (n : N) : string :=
  if (n <? 16)%N then String (hex_digit n) ""
  else String (hex_digit (n / 16)) (String (hex_digit (n mod 16)) "").

(** [s.padStart(2, '0')] *)
Definition padStart2 (s : string) : string :=
  match String.length s with
  | O => "00"
  | S O => String "0" s
  | _ => s
  end.

Definition byte_hex (b : Byte.byte) : string :=
  padStart2 (toString16 (Byte.to_N b)).

(** [Array.from(array, f).join('')] *)
Definition join_map {A} (f : A → string) (l : list A) : string :=
  fold_right (λ a acc, f a +:+ acc) "" l.

(** [getRandomValues] takes at most 65536 bytes at a time and throws a
    [QuotaExceededError] beyond (unless the array could not even be
    allocated, which throws a [RangeError] before). *)
Definition generateSecureToken (length : nat) : Eff string :=
  if (65536 <? Z.of_nat length) then throw "QuotaExceededError" else
  let! array := Crypto.getRandomValues length in
  ret (join_map byte_hex array).

(** The value of a hex digit, for reading a token back. *)
Definition hex_value (c : ascii) : option N :=
  let n := N_of_ascii c in
  if ((48 <=? n) && (n <=? 57))%N then Some (n - 48)%N
  else if ((97 <=? n) && (n <=? 102))%N then Some (n - 87)%N
  else None.

Fixpoint hex_decode (s : string) : option (list Byte.byte) :=
  match s with
  | EmptyString => Some []
  | String hi (String lo rest) =>
      match hex_value hi, hex_value lo, hex_decode rest with
      | Some h, Some l, Some bs =>
          match Byte.of_N (16 * h + l) with
          | Some b => Some (b :: bs)
          | None => None
          end
      | _, _, _ => None
      end
  | _ => None
  end.

Definition is_hex (c : ascii) : bool :=
  match hex_value c with Some _ => true | None => false end.

End WithPlatform.
End Token.

(** ** The Chat component: realtime inserts and the auto-delete setting *)

Module Live.
Section WithSession.
Context `{Platform}.
Variables (me contact : string) (privateKey : option PrivateKey).

(** [setMessages(prev => prev.find(m => m.id === msg.id) ? prev : [...prev, msg])] *)
Definition add_message (prev : list ChatMessage) (msg : ChatMessage)
    : list ChatMessage :=
  if existsb (λ m, bool_decide (id m = id msg)) prev then prev else prev ++ [msg].

(** The update of a received row.  The row model carries no [is_delivered]
    and [delivered_at]; those two columns of the update are outside it.
    [toISOString()] throws when the expiry is no date. *)
Definition delivered_update (now : Z) (m : Message) : Eff Patch :=
  if truthy_bool (is_disappearing m) && truthy_num (disappearing_duration m) then
    let! expires_at :=
      toISOString (now + or_zero (disappearing_duration m) * 60 * 1000) in
    ret (mkPatch (Some true) (Some now) None (Some expires_at))
  else ret (mkPatch (Some true) (Some now) None None).

(** The handler of [INSERT] events on [messages], given the [messages]
    state; it returns the new state.  Nothing catches what the handler
    throws; [setMessages] has run by then. *)
Definition on_insert (prev : list ChatMessage) (new_id : string)
    (payload_new : Message) : Eff (list ChatMessage) :=
  if (bool_decide (receiver_id payload_new = me)
      && bool_decide (sender_id payload_new = contact))
     || (bool_decide (sender_id payload_new = me)
         && bool_decide (receiver_id payload_new = contact))
  then
    let! decryptedContent := Chat.decryptMessageContent me privateKey payload_new in
    let msg := mkChatMessage new_id payload_new decryptedContent in
    let messages := add_message prev msg in
    if bool_decide (receiver_id payload_new = me) then
      let! now := Date_now in
      let! update := delivered_update now payload_new in
      do! db_update new_id update in
      if bool_decide (media_type payload_new = "snapshot") then
        do! emit (ToastInfo "Snapshot Received") in
        do! emit (SetShowSnapshotView new_id decryptedContent) in
        ret messages
      else ret messages
    else ret messages
  else ret prev.

End WithSession.

(** The [chat_settings] table: [disappearing_mode] by [(user_id, contact_id)]. *)
Abbreviation Settings := (gmap (string * string) (option string)).

(** [data.disappearing_mode || "none"] *)
Definition mode_or_none (mode : option string) : string :=
  match mode with
  | None => "none"
  | Some s => if bool_decide (s = "") then "none" else s
  end.

(** [fetchSettings]: the mode to put into [autoDeleteMode], if a row was
    found, and the table afterwards (a default row is inserted otherwise). *)
Definition fetchSettings (me contact : string) (settings : Settings)
    : option string * Settings :=
  match settings !! (me, contact) with
  | Some mode => (Some (mode_or_none mode), settings)
  | None => (None, <[(me, contact) := Some "none"]> settings)
  end.

(** [.upsert(updates, { onConflict: "user_id,contact_id" })]: one statement;
    the store rejects it as a whole when two of its rows have the same key. *)
Definition upsert (updates : list (string * string * option string))
    (settings : Settings) : Settings :=
  if bool_decide (NoDup updates.*1)
  then foldl (λ t u, <[u.1 := u.2]> t) settings updates
  else settings.

(** [updateAutoDeleteMode]: the new [autoDeleteMode] and the table. *)
Definition updateAutoDeleteMode (me contact mode : string) (settings : Settings)
    : string * Settings :=
  (mode, upsert [((me, contact), Some mode); ((contact, me), Some mode)] settings).

End Live.

(** ** lib/crypto.ts: AES keys as text *)

Module Keys.
Section WithPlatform.
Context `{Platform}.

Definition exportKey (key : AESKey) : Eff string :=
  do! emit (SubtleExportKey "raw") in
  ret (Crypto.bufferToBase64 (aes_export_raw key)).

Definition importAESKey (base64 : string) : Eff AESKey :=
  let! bytes := Crypto.base64ToBuffer base64 in
  do! emit (SubtleImportKey "raw") in
  lift "DataError" (aes_import_raw bytes).

End WithPlatform.
End Keys.

(** ** A second executable platform, whose JSON also carries envelopes *)

Module Model2.
Import Model.

Definition enc_opt (o : option json) : string :=
  match o with
  | Some (JStr s) => String "1" (enc_str s)
  | _ => "0"
  end.

Definition dec_opt (s : string) : option (json * string) :=
  match s with
  | String "0" rest => Some (JNull, rest)
  | String "1" rest =>
      match dec_str rest with
      | Some (x, rest') => Some (JStr x, rest')
      | None => None
      end
  | _ => None
  end.

Fixpoint enc_pairs (l : list (string * json)) : string :=
  match l with
  | [] => "0"
  | (k, v) :: rest => String "1" (enc_str k +:+ (enc_str (as_str (Some v)) +:+ enc_pairs rest))
  end.

Fixpoint dec_pairs (fuel : nat) (s : string) : option (list (string * json)) :=
  match fuel with
  | O => None
  | S n =>
      match s with
      | String "0" EmptyString => Some []
      | String "1" rest =>
          match dec_str rest with
          | Some (k, r1) =>
              match dec_str r1 with
              | Some (v, r2) =>
                  match dec_pairs n r2 with
                  | Some l => Some ((k, JStr v) :: l)
                  | None => None
                  end
              | None => None
              end
          | None => None
          end
      | _ => None
      end
  end.

(** An object with a [keys] object is written with its [v] (if it has one),
    [iv], [content], [media_iv] and the entries of [keys]. *)
Definition stringify (j : json) : string :=
  match j with
  | JObj fields =>
      match fields !! "keys" with
      | Some (JObj keys) =>
          String "E" (enc_opt (fields !! "v")
                      +:+ (enc_str (as_str (fields !! "iv"))
                      +:+ (enc_str (as_str (fields !! "content"))
                      +:+ (enc_opt (fields !! "media_iv")
                      +:+ enc_pairs (map_to_list keys)))))
      | _ => Model.stringify j
      end
  | _ => Model.stringify j
  end.

Definition with_tag (v : json) (fields : gmap string json) : gmap string json :=
  match v with JStr _ => <["v" := v]> fields | _ => fields end.

Definition parse (s : string) : option json :=
  match s with
  | String "E" rest =>
      match dec_opt rest with
      | Some (v, r0) =>
        match dec_str r0 with
        | Some (iv, r1) =>
            match dec_str r1 with
            | Some (content, r2) =>
                match dec_opt r2 with
                | Some (media_iv, r3) =>
                    match dec_pairs (String.length r3) r3 with
                    | Some keys =>
                        Some (JObj (with_tag v
                                     (<["keys" := JObj (list_to_map keys)]>
                                     (<["media_iv" := media_iv]>
                                     (<["content" := JStr content]>
                                     (<["iv" := JStr iv]> ∅))))))
                    | None => None
                    end
                | None => None
                end
            | None => None
            end
        | None => None
        end
      | None => None
      end
  | _ => Model.parse s
  end.

(** [TextDecoder.decode] leaves out a byte order mark at the start. *)
Definition decode_utf8 (bytes : list Byte.byte) : string :=
  match bytes with
  | Byte.xef :: Byte.xbb :: Byte.xbf :: rest => string_of_list_byte rest
  | _ => string_of_list_byte bytes
  end.

(** A snapshot of three bytes, and what the blob store serves for it. *)
Definition sample_blob : Blob :=
  mkBlob [Byte.x01; Byte.x02; Byte.x03] "image/jpeg".

(** RSA-OAEP whose key [x00] has a short modulus: it takes fewer than 32
    bytes, so it cannot wrap an AES-256 key. *)
Definition rsa_encrypt (k : Byte.byte) (m : list Byte.byte)
    : option (list Byte.byte) :=
  if Byte.eqb k Byte.x00 && (32 <=? length m)%nat then None
  else Some (k :: k :: k :: k :: m).

#[export] Instance platform : Platform := {|
  PublicKey := Byte.byte;
  PrivateKey := Byte.byte;
  AESKey := list Byte.byte;
  btoa := λ s, String "b" s;
  atob := λ s, match s with String "b" r => Some r | _ => None end;
  JSON_parse := parse;
  JSON_stringify := stringify;
  ToString := λ j, as_str (Some j);
  TextEncoder_encode := list_byte_of_string;
  TextDecoder_decode := decode_utf8;
  rsa_oaep_encrypt := rsa_encrypt;
  rsa_oaep_decrypt := rsa_decrypt;
  aes_gcm_encrypt := λ k iv m, Byte.x47 :: m;
  aes_gcm_decrypt := aes_decrypt;
  aes_generate := λ t, repeat Byte.x2a 32;
  aes_export_raw := λ k, k;
  aes_import_raw := λ raw, Some raw;
  spki_import := λ der, match der with [k] => Some k | _ => None end;
  random_values := λ t n, repeat Byte.x00 n;
  http_get := λ url, Some (Byte.x47 :: blob_bytes sample_blob);
  object_url := λ t b, "blob:" +:+ string_of_list_byte (blob_bytes b);
  String_trim := λ s, s
|}.

End Model2.

(** * Properties *)

Import Observations.

(** ** The JS operators, on samples *)

Example truthy_samples :
  truthy None = false ∧ truthy (Some JNull) = false
  ∧ truthy (Some (JStr "")) = false ∧ truthy (Some (JStr "a")) = true
  ∧ truthy (Some (JNum 0)) = false ∧ truthy (Some (JNum 7)) = true
  ∧ truthy (Some (JBool false)) = false ∧ truthy (Some (JObj ∅)) = true
  ∧ truthy (Some (JArr [])) = true.
Proof. repeat split. Qed.

Example endsWith_samples :
  endsWith "1h_view" "_view" = true ∧ endsWith "view" "_view" = false
  ∧ endsWith "3h" "_view" = false ∧ endsWith "_view" "_view" = true
  ∧ endsWith "" "_view" = false ∧ endsWith "1h_viewx" "_view" = false.
Proof. repeat split. Qed.

(** ** The cleanup sweep *)

Module CleanupFacts.
Import Cleanup.

Lemma fold_Set_add_elem (l acc : list string) (x : string) :
  x ∈ fold_left Set_add l acc ↔ x ∈ acc ∨ x ∈ l.
Proof.
  revert acc. induction l as [|y l IH]; intros acc; simpl.
  - rewrite elem_of_nil. tauto.
  - rewrite IH, elem_of_cons. unfold Set_add.
    destruct (decide (y ∈ acc)) as [Hin|Hout].
    + split; [tauto|]. intros [?|[->|?]]; tauto.
    + rewrite elem_of_app, list_elem_of_singleton. tauto.
Qed.

Lemma fold_Set_add_NoDup (l acc : list string) :
  NoDup acc → NoDup (fold_left Set_add l acc).
Proof.
  revert acc. induction l as [|y l IH]; intros acc Hacc; simpl; [done|].
  apply IH. unfold Set_add. destruct (decide (y ∈ acc)); [done|].
  apply NoDup_app. repeat split; [done| |apply NoDup_singleton].
  intros x Hx Hy. apply list_elem_of_singleton in Hy. by subst.
Qed.

Lemma spread_Set_elem (l : list string) (x : string) : x ∈ spread_Set l ↔ x ∈ l.
Proof.
  unfold spread_Set. rewrite fold_Set_add_elem, elem_of_nil. tauto.
Qed.

Lemma spread_Set_NoDup (l : list string) : NoDup (spread_Set l).
Proof. apply fold_Set_add_NoDup, NoDup_nil_2. Qed.

Lemma select_ids_elem (now : Z) (tbl : Table) (i : string) :
  i ∈ select_ids now tbl ↔ ∃ m, tbl !! i = Some m ∧ selected now m = true.
Proof.
  unfold select_ids. rewrite list_elem_of_fmap. split.
  - intros [[k m] [-> Hkm]]. apply elem_of_map_to_list in Hkm.
    apply map_lookup_filter_Some in Hkm as [Hl Hs]. by exists m.
  - intros [m [Hl Hs]]. exists (i, m). split; [done|].
    apply elem_of_map_to_list, map_lookup_filter_Some. done.
Qed.

Lemma selected_completed (now : Z) (m : Message) :
  selected now m = true ↔ completed now m.
Proof.
  unfold selected, completed, eq_is_viewed_true, or_is_saved, or_expires_at.
  rewrite !andb_true_iff.
  assert (Hv : (match is_viewed m with Some true => true | _ => false end) = true
               ↔ is_viewed m = Some true)
    by (destruct (is_viewed m) as [[]|]; split; congruence).
  assert (Hs : (match is_saved m with None => true | Some b => negb b end) = true
               ↔ is_saved m = None ∨ is_saved m = Some false)
    by (destruct (is_saved m) as [[]|]; simpl; intuition congruence).
  assert (He : (match expires_at m with None => true | Some t => t <? now end) = true
               ↔ expires_at m = None ∨ ∃ t, expires_at m = Some t ∧ t < now).
  { destruct (expires_at m) as [t|]; [|split; auto].
    rewrite Z.ltb_lt. split.
    - intros Ht. right. by exists t.
    - intros [?|[t' [Heq Ht]]]; [congruence|]. by inversion Heq; subst. }
  tauto.
Qed.

Lemma requested_POST (f : Faults) (now : Z) (tbl : Table) :
  fetch_error f = None →
  requested (POST f now tbl) = spread_Set (select_ids now tbl).
Proof.
  intros Hf. unfold POST, POST_after_fetch, requested. rewrite Hf. simpl.
  destruct (spread_Set (select_ids now tbl)) as [|x l] eqn:E; simpl; [done|].
  by destruct (delete_error f).
Qed.

Lemma delete_in_lookup (ids : list string) (tbl : Table) (i : string) :
  delete_in ids tbl !! i = if decide (i ∈ ids) then None else tbl !! i.
Proof.
  unfold delete_in. destruct (decide (i ∈ ids)) as [Hin|Hout].
  - apply map_lookup_filter_None. right. intros m _ Hno. by apply Hno.
  - destruct (tbl !! i) as [m|] eqn:E.
    + by apply map_lookup_filter_Some.
    + apply map_lookup_filter_None. by left.
Qed.

Lemma table_after_POST (f : Faults) (now : Z) (tbl : Table) (i : string) :
  fetch_error f = None → delete_error f = None →
  (POST f now tbl).2 !! i
  = if decide (i ∈ select_ids now tbl) then None else tbl !! i.
Proof.
  intros Hf Hd. unfold POST, POST_after_fetch. rewrite Hf, Hd. simpl.
  destruct (spread_Set (select_ids now tbl)) as [|x l] eqn:E; simpl.
  - destruct (decide (i ∈ select_ids now tbl)) as [Hin|]; [|done].
    apply spread_Set_elem in Hin. rewrite E in Hin. inversion Hin.
  - rewrite delete_in_lookup, <- E.
    destruct (decide (i ∈ spread_Set _)) as [Hin|Hout],
             (decide (i ∈ select_ids _ _)) as [Hin'|Hout']; try done.
    + exfalso. apply Hout'. by apply spread_Set_elem.
    + exfalso. apply Hout. by apply spread_Set_elem.
Qed.

Lemma requested_after_fetch (f : Faults) (answer : list string) (tbl : Table) :
  requested (POST_after_fetch f (Some answer) tbl) = spread_Set answer.
Proof.
  unfold POST_after_fetch, requested. simpl.
  destruct (spread_Set answer) as [|x l] eqn:E; simpl; [done|].
  by destruct (delete_error f).
Qed.

Lemma table_after_fetch (f : Faults) (answer : list string) (tbl : Table) (i : string) :
  delete_error f = None →
  (POST_after_fetch f (Some answer) tbl).2 !! i
  = if decide (i ∈ answer) then None else tbl !! i.
Proof.
  intros Hd. unfold POST_after_fetch. rewrite Hd. simpl.
  destruct (spread_Set answer) as [|x l] eqn:E; simpl.
  - destruct (decide (i ∈ answer)) as [Hin|]; [|done].
    apply spread_Set_elem in Hin. rewrite E in Hin. inversion Hin.
  - rewrite delete_in_lookup, <- E.
    destruct (decide (i ∈ spread_Set _)) as [Hin|Hout],
             (decide (i ∈ answer)) as [Hin'|Hout']; try done.
    + exfalso. apply Hout'. by apply spread_Set_elem.
    + exfalso. apply Hout. by apply spread_Set_elem.
Qed.

(** C8.  When the query answers, the sweep asks the store to delete
    exactly the ids of the rows with [is_viewed] true, [is_saved] null or
    false, and [expires_at] null or before [now]; a row whose
    [expires_at] is not yet past is never in it, nor is a saved row; and
    when the delete succeeds those rows, and only those, are gone from
    the table.  Whatever list of ids the query answers, with repetitions
    or without, the list sent to the store holds each of its ids once and
    no other id, and the rows under those ids are the ones deleted. *)
Theorem cleanup_selects_exactly (f : Faults) (now : Z) (tbl : Table) :
  fetch_error f = None →
  let ids := requested (POST f now tbl) in
  (∀ i, i ∈ ids ↔ ∃ m, tbl !! i = Some m ∧ completed now m)
  ∧ NoDup ids
  ∧ (∀ i m t, tbl !! i = Some m → expires_at m = Some t → now ≤ t → i ∉ ids)
  ∧ (∀ i m, tbl !! i = Some m → is_saved m = Some true → i ∉ ids)
  ∧ (delete_error f = None →
     ∀ i, (POST f now tbl).2 !! i = if decide (i ∈ ids) then None else tbl !! i)
  ∧ (∀ answer : list string,
       let sent := requested (POST_after_fetch f (Some answer) tbl) in
       NoDup sent
       ∧ (∀ i, i ∈ sent ↔ i ∈ answer)
       ∧ (delete_error f = None →
          ∀ i, (POST_after_fetch f (Some answer) tbl).2 !! i
               = if decide (i ∈ answer) then None else tbl !! i)).
Proof.
  intros Hf ids.
  assert (Hids : ∀ i, i ∈ ids ↔ ∃ m, tbl !! i = Some m ∧ completed now m).
  { intros i. unfold ids. rewrite requested_POST, spread_Set_elem by done.
    rewrite select_ids_elem. by setoid_rewrite selected_completed. }
  split; [exact Hids|]. split.
  { unfold ids. rewrite requested_POST by done. apply spread_Set_NoDup. }
  split.
  { intros i m t Hi Ht Hnow [m' [Hi' (_ & _ & He)]]%Hids.
    rewrite Hi in Hi'. inversion Hi'; subst m'.
    destruct He as [He|[t' [He Hlt]]]; rewrite Ht in He; [done|].
    inversion He; subst. lia. }
  split.
  { intros i m Hi Hs [m' [Hi' (_ & Hsaved & _)]]%Hids.
    rewrite Hi in Hi'. inversion Hi'; subst m'.
    destruct Hsaved as [Hn|Hn]; rewrite Hs in Hn; done. }
  split.
  { intros Hd i. rewrite table_after_POST by done.
    unfold ids. rewrite requested_POST by done.
    destruct (decide (i ∈ select_ids now tbl)) as [Hin|Hout],
             (decide (i ∈ spread_Set _)) as [Hin'|Hout']; try done.
    - exfalso. apply Hout'. by apply spread_Set_elem.
    - exfalso. apply Hout. by apply spread_Set_elem. }
  intros answer sent. unfold sent. rewrite requested_after_fetch.
  split; [apply spread_Set_NoDup|]. split; [intros i; apply spread_Set_elem|].
  intros Hd i. by apply table_after_fetch.
Qed.

Lemma cleanup_selects_exactly_witness :
  requested (POST no_faults 100 sample_table) = ["a"]
  ∧ NoDup (requested (POST no_faults 100 sample_table))
  ∧ ("b" ∉ requested (POST no_faults 100 sample_table))
  ∧ ("c" ∉ requested (POST no_faults 100 sample_table))
  ∧ requested (POST_after_fetch no_faults (Some ["a"; "b"; "a"; "b"]) sample_table)
    = ["a"; "b"]
  ∧ NoDup (requested (POST_after_fetch no_faults (Some ["a"; "b"; "a"; "b"])
                        sample_table)).
Proof.
  pose proof (cleanup_selects_exactly no_faults 100 sample_table eq_refl)
    as (_ & Hnodup & Hfuture & Hsaved & _ & Hany).
  split; [vm_compute; reflexivity|]. split; [exact Hnodup|]. split.
  - apply (Hfuture "b" (sample_row (Some true) (Some false) (Some 500)) 500);
      [vm_compute; reflexivity|reflexivity|lia].
  - split.
    + apply (Hsaved "c" (sample_row (Some true) (Some true) (Some 50)));
        [vm_compute; reflexivity|reflexivity].
    + split; [vm_compute; reflexivity|].
      exact (proj1 (Hany ["a"; "b"; "a"; "b"])).
Defined.

End CleanupFacts.

(** ** Worlds in normal form: [logged (stored (drawn ... w) tbl) evs] *)

Lemma logged_logged (w : World) (a b : list Event) :
  logged (logged w a) b = logged w (a ++ b).
Proof. unfold logged. simpl. by rewrite <- app_assoc. Qed.

Lemma drawn_logged (w : World) (a : list Event) :
  drawn (logged w a) = logged (drawn w) a.
Proof. reflexivity. Qed.

Lemma stored_logged (w : World) (a : list Event) (tbl : Table) :
  stored (logged w a) tbl = logged (stored w tbl) a.
Proof. reflexivity. Qed.

Lemma drawn_stored (w : World) (tbl : Table) :
  drawn (stored w tbl) = stored (drawn w) tbl.
Proof. reflexivity. Qed.

Lemma tick_logged (w : World) (a : list Event) : tick (logged w a) = tick w.
Proof. reflexivity. Qed.

Lemma clock_logged (w : World) (a : list Event) : clock (logged w a) = clock w.
Proof. reflexivity. Qed.

Lemma db_logged (w : World) (a : list Event) : db (logged w a) = db w.
Proof. reflexivity. Qed.

Lemma tick_drawn (w : World) : tick (drawn w) = S (tick w).
Proof. reflexivity. Qed.

Lemma clock_drawn (w : World) : clock (drawn w) = clock w.
Proof. reflexivity. Qed.

Lemma db_drawn (w : World) : db (drawn w) = db w.
Proof. reflexivity. Qed.

Lemma tick_stored (w : World) (tbl : Table) : tick (stored w tbl) = tick w.
Proof. reflexivity. Qed.

Lemma clock_stored (w : World) (tbl : Table) : clock (stored w tbl) = clock w.
Proof. reflexivity. Qed.

Lemma db_stored (w : World) (tbl : Table) : db (stored w tbl) = tbl.
Proof. reflexivity. Qed.

Create Rewrite HintDb world.
#[global] Hint Rewrite logged_logged drawn_logged stored_logged drawn_stored
  tick_logged clock_logged db_logged tick_drawn clock_drawn db_drawn
  tick_stored clock_stored db_stored : world.

(** ** Opening a snapshot *)

Module SnapshotFacts.
Import Chat.

Lemma openSnapshot_receiver (me : string) (message : ChatMessage) (w : World) :
  receiver_id (row message) = me →
  openSnapshot me message w =
    if 2 <=? or_zero (view_count (row message)) then
      (Ok tt, logged w [ToastError "Signal purged"])
    else
      let newViews := or_zero (view_count (row message)) + 1 in
      let p := mkPatch (Some (2 <=? newViews)) None (Some newViews) None in
      (Ok tt, stored
                (logged w [SetShowSnapshotView (id message) (decrypted_content message);
                           DbUpdate (id message) p])
                (alter (apply_patch p) (id message) (db w))).
Proof.
  intros Hme. unfold openSnapshot. rewrite bool_decide_eq_true_2 by done. simpl.
  destruct (2 <=? or_zero (view_count (row message))); [done|].
  unfold bind, emit, db_update. by rewrite logged_logged.
Qed.

Lemma openSnapshot_not_receiver (me : string) (message : ChatMessage) (w : World) :
  receiver_id (row message) ≠ me →
  openSnapshot me message w =
    (Ok tt, logged w [SetShowSnapshotView (id message) (decrypted_content message)]).
Proof.
  intros Hme. unfold openSnapshot. by rewrite bool_decide_eq_false_2.
Qed.

(** C10.  Opening a snapshot whose receiver is not the local user shows
    it and issues no update: the table is left as it was, and the only
    event is the display. *)
Theorem openSnapshot_sender_frame (me : string) (message : ChatMessage) (w : World) :
  receiver_id (row message) ≠ me →
  openSnapshot me message w =
    (Ok tt, logged w [SetShowSnapshotView (id message) (decrypted_content message)])
  ∧ db (openSnapshot me message w).2 = db w.
Proof.
  intros Hme. by rewrite openSnapshot_not_receiver.
Qed.

Lemma openSnapshot_sender_frame_witness :
  db (openSnapshot "alice" (mkChatMessage "s1" sample_snapshot "blob:0") sample_world).2
  = db sample_world.
Proof.
  refine (proj2 (openSnapshot_sender_frame "alice"
                   (mkChatMessage "s1" sample_snapshot "blob:0") sample_world _)).
  simpl. discriminate.
Defined.

(** Whatever copy of a message is opened, fresh or stale, no row ends
    up with a [view_count] above 2 unless it had one before. *)
Lemma openSnapshot_view_count_bound (me : string) (message : ChatMessage) (w : World) :
  (∀ j r, db w !! j = Some r → or_zero (view_count r) ≤ 2) →
  ∀ j r, db (openSnapshot me message w).2 !! j = Some r → or_zero (view_count r) ≤ 2.
Proof.
  intros Hw j r. destruct (decide (receiver_id (row message) = me)) as [Hme|Hme].
  - rewrite openSnapshot_receiver by done.
    destruct (Z.leb_spec 2 (or_zero (view_count (row message)))) as [Hge|Hlt];
      simpl; [apply Hw|].
    destruct (decide (id message = j)) as [->|Hne].
    + rewrite lookup_alter_eq. destruct (db w !! j) as [r0|]; simpl; [|done].
      intros Hr. inversion Hr; subst r. simpl. lia.
    + rewrite lookup_alter_ne by done. apply Hw.
  - rewrite openSnapshot_not_receiver by done. apply Hw.
Qed.

(** A call that is not rejected: the element handed in has a count below
    2, is shown, and its count plus one is written to the stored row. *)
Lemma openSnapshot_shown (me : string) (message : ChatMessage) (m : Message)
    (c : Z) (w : World) :
  receiver_id (row message) = me → or_zero (view_count (row message)) = c →
  c < 2 → db w !! id message = Some m →
  let p := mkPatch (Some (2 <=? c + 1)) None (Some (c + 1)) None in
  openSnapshot me message w
  = (Ok tt, stored (logged w [SetShowSnapshotView (id message)
                                (decrypted_content message);
                              DbUpdate (id message) p])
              (alter (apply_patch p) (id message) (db w)))
  ∧ db (openSnapshot me message w).2 !! id message = Some (apply_patch p m).
Proof.
  intros Hme Hc Hlt Hi p.
  assert (E : openSnapshot me message w
              = (Ok tt, stored (logged w [SetShowSnapshotView (id message)
                                            (decrypted_content message);
                                          DbUpdate (id message) p])
                          (alter (apply_patch p) (id message) (db w)))).
  { rewrite openSnapshot_receiver by done. rewrite Hc.
    destruct (Z.leb_spec 2 c) as [?|_]; [lia|]. reflexivity. }
  split; [exact E|]. rewrite E. simpl. by rewrite lookup_alter_eq, Hi.
Qed.

Lemma openSnapshot_rejected (me : string) (message : ChatMessage) (w : World) :
  receiver_id (row message) = me → 2 ≤ or_zero (view_count (row message)) →
  openSnapshot me message w = (Ok tt, logged w [ToastError "Signal purged"]).
Proof.
  intros Hme Hge. rewrite openSnapshot_receiver by done.
  destruct (Z.leb_spec 2 (or_zero (view_count (row message)))) as [_|?]; [done|lia].
Qed.

(** C1, as the code has it.  [openSnapshot] decides by the [view_count]
    of the element of [messages] it is handed, and writes to the stored
    row.  For a snapshot addressed to the local user and not yet opened:
    the first call shows it and writes [view_count] 1 and [is_viewed]
    false.  When the element has been brought up to date with the stored
    row, the second call shows it again and writes [view_count] 2 and
    [is_viewed] true; and from then on every call handed an element as
    the row is stored is rejected ("Signal purged"), shows nothing and
    changes nothing, so that the row stays as it is.  Handed the element
    as it was before the first call, [openSnapshot] shows the snapshot at
    every call and writes [view_count] 1 again.  No call ever writes a
    [view_count] above 2. *)
Theorem view_once_two_views (me : string) (m0 m1 : ChatMessage) (w : World) :
  receiver_id (row m0) = me → or_zero (view_count (row m0)) = 0 →
  db w !! id m0 = Some (row m0) →
  id m1 = id m0 →
  let p1 := mkPatch (Some false) None (Some 1) None in
  let p2 := mkPatch (Some true) None (Some 2) None in
  let w1 := (openSnapshot me m0 w).2 in
  let w2 := (openSnapshot me m1 w1).2 in
  (trace w1 = trace w ++ [SetShowSnapshotView (id m0) (decrypted_content m0);
                          DbUpdate (id m0) p1]
   ∧ db w1 !! id m0 = Some (apply_patch p1 (row m0)))
  ∧ (db w1 !! id m0 = Some (row m1) →
     trace w2 = trace w1 ++ [SetShowSnapshotView (id m0) (decrypted_content m1);
                             DbUpdate (id m0) p2]
     ∧ db w2 !! id m0 = Some (apply_patch p2 (row m1))
     ∧ view_count <$> db w2 !! id m0 = Some (Some 2)
     ∧ is_viewed <$> db w2 !! id m0 = Some (Some true))
  ∧ (∀ m' w', receiver_id (row m') = me →
       db w' !! id m' = Some (row m') → 2 ≤ or_zero (view_count (row m')) →
       openSnapshot me m' w' = (Ok tt, logged w' [ToastError "Signal purged"])
       ∧ db (openSnapshot me m' w').2 !! id m' = Some (row m'))
  ∧ (∀ w', trace (openSnapshot me m0 w').2
           = trace w' ++ [SetShowSnapshotView (id m0) (decrypted_content m0);
                          DbUpdate (id m0) p1])
  ∧ (∀ message w',
       (∀ j r, db w' !! j = Some r → or_zero (view_count r) ≤ 2) →
       ∀ j r, db (openSnapshot me message w').2 !! j = Some r →
              or_zero (view_count r) ≤ 2).
Proof.
  intros Hme H0 Hi Hid p1 p2 w1 w2.
  destruct (openSnapshot_shown me m0 (row m0) 0 w Hme H0 ltac:(lia) Hi)
    as [E1 L1].
  change (mkPatch (Some (2 <=? 0 + 1)) None (Some (0 + 1)) None) with p1 in E1, L1.
  split; [|split; [|split; [|split]]].
  - split; [unfold w1; by rewrite E1|exact L1].
  - intros Hfresh.
    assert (Hrow : row m1 = apply_patch p1 (row m0)).
    { fold w1 in L1. rewrite L1 in Hfresh. by inversion Hfresh. }
    assert (Hme1 : receiver_id (row m1) = me) by (by rewrite Hrow).
    assert (H1 : or_zero (view_count (row m1)) = 1) by (by rewrite Hrow).
    rewrite <- Hid in Hfresh.
    destruct (openSnapshot_shown me m1 (row m1) 1 w1 Hme1 H1 ltac:(lia) Hfresh)
      as [E2 L2].
    change (mkPatch (Some (2 <=? 1 + 1)) None (Some (1 + 1)) None) with p2 in E2, L2.
    rewrite Hid in E2, L2. fold w2 in L2.
    split; [unfold w2; by rewrite E2|]. split; [exact L2|].
    by rewrite L2.
  - intros m' w' Hme' Hfresh Hge.
    rewrite (openSnapshot_rejected me m' w' Hme' Hge). by split.
  - intros w'. rewrite openSnapshot_receiver by done. rewrite H0. reflexivity.
  - intros message w'. apply openSnapshot_view_count_bound.
Qed.

Lemma view_once_two_views_witness :
  let p1 := mkPatch (Some false) None (Some 1) None in
  let m0 := mkChatMessage "s1" sample_snapshot "blob:0" in
  let m1 := mkChatMessage "s1" (apply_patch p1 sample_snapshot) "blob:0" in
  let w1 := (openSnapshot "bob" m0 sample_world).2 in
  let w2 := (openSnapshot "bob" m1 w1).2 in
  view_count <$> db w1 !! "s1" = Some (Some 1)
  ∧ view_count <$> db w2 !! "s1" = Some (Some 2)
  ∧ is_viewed <$> db w2 !! "s1" = Some (Some true).
Proof.
  intros p1 m0 m1 w1 w2.
  pose proof (view_once_two_views "bob" m0 m1 sample_world
                eq_refl eq_refl eq_refl eq_refl) as ((_ & H1) & H2 & _).
  destruct (H2 eq_refl) as (_ & _ & Hc & Hv).
  split; [|exact (conj Hc Hv)].
  change (db w1 !! "s1") with
    (db (openSnapshot "bob" m0 sample_world).2 !! id m0).
  by rewrite H1.
Defined.

(** C1 as stated fails: the second call is not rejected.  After two
    calls, the second on the element brought up to date, the content has
    been shown twice and no error was raised. *)
Lemma second_open_is_shown :
  let p1 := mkPatch (Some false) None (Some 1) None in
  let m0 := mkChatMessage "s1" sample_snapshot "blob:0" in
  let m1 := mkChatMessage "s1" (apply_patch p1 sample_snapshot) "blob:0" in
  let w1 := (openSnapshot "bob" m0 sample_world).2 in
  let w2 := (openSnapshot "bob" m1 w1).2 in
  db w1 !! "s1" = Some (row m1)
  ∧ trace w2 = [SetShowSnapshotView "s1" "blob:0";
                DbUpdate "s1" (mkPatch (Some false) None (Some 1) None);
                SetShowSnapshotView "s1" "blob:0";
                DbUpdate "s1" (mkPatch (Some true) None (Some 2) None)]
  ∧ ToastError "Signal purged" ∉ trace w2.
Proof.
  intros p1 m0 m1 w1 w2.
  assert (E : trace w2
              = [SetShowSnapshotView "s1" "blob:0";
                 DbUpdate "s1" (mkPatch (Some false) None (Some 1) None);
                 SetShowSnapshotView "s1" "blob:0";
                 DbUpdate "s1" (mkPatch (Some true) None (Some 2) None)])
    by (vm_compute; reflexivity).
  split; [vm_compute; reflexivity|]. rewrite E. split; [reflexivity|].
  intros Hin. repeat (apply elem_of_cons in Hin as [Hin|Hin]; [discriminate|]).
  inversion Hin.
Qed.

End SnapshotFacts.

(** ** What a computation leaves alone

    [preserves I m]: running [m] takes every world to an [I]-related one.
    For a preorder [I] that drawing entropy and emitting events other than
    store requests respect, every function of [lib/crypto.ts] and
    [decryptMessageContent] preserve [I]. *)

Section Preservation.
Context `{Platform}.
Context (I : relation World) `{!PreOrder I}.
Hypothesis I_draw : ∀ w, I w (draw w).2.
Hypothesis I_emit : ∀ ev w, ¬ store_request ev → I w (emit ev w).2.

Lemma preserves_ret {A} (a : A) : preserves I (ret a).
Proof. intros w. reflexivity. Qed.

Lemma preserves_throw {A} (e : string) : preserves I (throw (A:=A) e).
Proof. intros w. reflexivity. Qed.

Lemma preserves_lift {A} (e : string) (o : option A) : preserves I (lift e o).
Proof. destruct o; [apply preserves_ret|apply preserves_throw]. Qed.

Lemma preserves_bind {A B} (m : Eff A) (k : A → Eff B) :
  preserves I m → (∀ a, preserves I (k a)) → preserves I (bind m k).
Proof.
  intros Hm Hk w. unfold bind. specialize (Hm w).
  destruct (m w) as [[a|e] w1]; simpl in *; [|done].
  etransitivity; [exact Hm|apply Hk].
Qed.

Lemma preserves_try_catch {A} (m : Eff A) (h : string → Eff A) :
  preserves I m → (∀ e, preserves I (h e)) → preserves I (try_catch m h).
Proof.
  intros Hm Hh w. unfold try_catch. specialize (Hm w).
  destruct (m w) as [[a|e] w1]; simpl in *; [done|].
  etransitivity; [exact Hm|apply Hh].
Qed.

Lemma preserves_emit (ev : Event) : ¬ store_request ev → preserves I (emit ev).
Proof. intros Hev w. by apply I_emit. Qed.

Lemma preserves_draw : preserves I draw.
Proof. exact I_draw. Qed.

Lemma preserves_Date_now : preserves I Date_now.
Proof. intros w. reflexivity. Qed.

Lemma preserves_get_db : preserves I get_db.
Proof. intros w. reflexivity. Qed.

Lemma preserves_get_prop (packet : json) (k : string) :
  preserves I (get_prop packet k).
Proof. destruct packet; first [apply preserves_ret|apply preserves_throw]. Qed.

Ltac preserve_with tac :=
  repeat first
    [ tac
    | apply preserves_ret | apply preserves_throw | apply preserves_lift
    | apply preserves_draw | apply preserves_get_prop
    | apply preserves_Date_now | apply preserves_get_db
    | apply preserves_emit; simpl; tauto
    | apply preserves_bind; [|intros ?]
    | apply preserves_try_catch; [|intros ?]
    | assumption
    | case_match ].

Ltac preserve := preserve_with fail.

Lemma preserves_base64ToBuffer s : preserves I (Crypto.base64ToBuffer s).
Proof. unfold Crypto.base64ToBuffer. preserve. Qed.

Lemma preserves_importPublicKey s : preserves I (Crypto.importPublicKey s).
Proof.
  unfold Crypto.importPublicKey.
  apply preserves_bind; [apply preserves_base64ToBuffer|intros ?]. preserve.
Qed.

Lemma preserves_generateAESKey : preserves I Crypto.generateAESKey.
Proof. unfold Crypto.generateAESKey. preserve. Qed.

Lemma preserves_getRandomValues n : preserves I (Crypto.getRandomValues n).
Proof. unfold Crypto.getRandomValues. preserve. Qed.

Lemma preserves_encryptWithAES text key :
  preserves I (Crypto.encryptWithAES text key).
Proof.
  unfold Crypto.encryptWithAES.
  apply preserves_bind; [apply preserves_getRandomValues|intros ?]. preserve.
Qed.

Lemma preserves_decryptWithAES c iv key :
  preserves I (Crypto.decryptWithAES c iv key).
Proof.
  unfold Crypto.decryptWithAES.
  apply preserves_try_catch; [|intros ?; preserve].
  do 2 (apply preserves_bind; [apply preserves_base64ToBuffer|intros ?]).
  preserve.
Qed.

Lemma preserves_encryptAESKeyForUser k pk :
  preserves I (Crypto.encryptAESKeyForUser k pk).
Proof. unfold Crypto.encryptAESKeyForUser. preserve. Qed.

Lemma preserves_decryptAESKeyWithUserPrivateKey s sk :
  preserves I (Crypto.decryptAESKeyWithUserPrivateKey s sk).
Proof.
  unfold Crypto.decryptAESKeyWithUserPrivateKey.
  apply preserves_try_catch; [|intros ?; preserve].
  apply preserves_bind; [apply preserves_base64ToBuffer|intros ?]. preserve.
Qed.

Lemma preserves_encryptBlob blob key : preserves I (Crypto.encryptBlob blob key).
Proof.
  unfold Crypto.encryptBlob.
  apply preserves_bind; [apply preserves_getRandomValues|intros ?]. preserve.
Qed.

Lemma preserves_decryptToBlob buf iv key mime :
  preserves I (Crypto.decryptToBlob buf iv key mime).
Proof.
  unfold Crypto.decryptToBlob.
  apply preserves_try_catch; [|intros ?; preserve].
  apply preserves_bind; [apply preserves_base64ToBuffer|intros ?]. preserve.
Qed.

Lemma preserves_decryptMessageContent me privateKey msg :
  preserves I (Chat.decryptMessageContent me privateKey msg).
Proof.
  unfold Chat.decryptMessageContent.
  apply preserves_try_catch; [|intros ?; preserve].
  repeat first
    [ apply preserves_decryptAESKeyWithUserPrivateKey
    | apply preserves_decryptToBlob
    | apply preserves_decryptWithAES
    | progress preserve ].
Qed.

Lemma preserves_mapM {A B} (f : A → Eff B) (l : list A) :
  (∀ a, preserves I (f a)) → preserves I (Chat.mapM f l).
Proof. intros Hf. induction l as [|a l IH]; simpl; preserve. apply Hf. Qed.

(** [sendMessage] preserves [I] as soon as its one store request, the
    insert of [messageData] built at the current instant, does. *)
Lemma preserves_sendMessage me contact profiles insert_error upload_error
    getPublicUrl inserted_id newMessage autoDeleteMode myPublicKey mediaType
    mediaBlob :
  (∀ packet mediaUrl (k : option string → Eff unit),
     (∀ o, preserves I (k o)) →
     preserves I
       (let! now := Date_now in
        let! inserted :=
          Chat.db_insert insert_error inserted_id
            (Chat.messageData me contact autoDeleteMode now packet
               mediaType mediaUrl) in
        k inserted)) →
  preserves I
    (Chat.sendMessage me contact profiles insert_error upload_error
       getPublicUrl inserted_id newMessage autoDeleteMode myPublicKey
       mediaType mediaBlob).
Proof.
  intros Hins. unfold Chat.sendMessage.
  preserve_with ltac:(first
    [ cbv zeta; apply Hins; intros ?
    | apply preserves_importPublicKey
    | apply preserves_generateAESKey
    | apply preserves_encryptBlob
    | apply preserves_encryptWithAES
    | apply preserves_encryptAESKeyForUser ]).
Qed.

End Preservation.

(** ** Marking messages as viewed *)

Module ViewFacts.
Import Chat Observations.

#[local] Instance same_store_preorder : PreOrder same_store.
Proof.
  split.
  - by intros w.
  - intros w1 w2 w3 [H1 H2] [H3 H4]. split; congruence.
Qed.

Lemma same_store_draw w : same_store w (draw w).2.
Proof. by split. Qed.

Lemma same_store_emit ev w : ¬ store_request ev → same_store w (emit ev w).2.
Proof. by split. Qed.

Lemma try_catch_ret_total {A} (m : Eff A) (x : A) (w : World) :
  ∃ a, (try_catch m (λ _, ret x) w).1 = Ok a.
Proof.
  unfold try_catch. destruct (m w) as [[a|e] w1]; simpl; eauto.
Qed.

Lemma mapM_total {A B} (f : A → Eff B) (l : list A) :
  (∀ a w, ∃ b, (f a w).1 = Ok b) → ∀ w, ∃ bs, (mapM f l w).1 = Ok bs.
Proof.
  intros Hf. induction l as [|a l IH]; intros w; simpl; [by eexists|].
  unfold bind. destruct (Hf a w) as [b Hb].
  destruct (f a w) as [r w1]; simpl in Hb; subst r.
  destruct (IH w1) as [bs Hbs].
  destruct (mapM f l w1) as [r w2]; simpl in Hbs; subst r. by eexists.
Qed.

Lemma forM_db_update (updates : list (string * Patch)) (w : World) :
  (forM_ updates (λ update, db_update update.1 update.2) w).1 = Ok tt
  ∧ db (forM_ updates (λ update, db_update update.1 update.2) w).2
    = apply_updates (db w) updates.
Proof.
  revert w. induction updates as [|u l IH]; intros w; simpl; [done|].
  unfold bind. simpl. apply IH.
Qed.

Lemma apply_updates_other (updates : list (string * Patch)) (tbl : Table) i :
  i ∉ updates.*1 → apply_updates tbl updates !! i = tbl !! i.
Proof.
  revert tbl. induction updates as [|[j p] l IH]; intros tbl Hi; simpl; [done|].
  rewrite fmap_cons, not_elem_of_cons in Hi. destruct Hi as [Hne Hl].
  unfold apply_updates in *. simpl. rewrite IH by done.
  by rewrite lookup_alter_ne.
Qed.

Lemma apply_updates_lookup (updates : list (string * Patch)) (tbl : Table) i p :
  NoDup updates.*1 → (i, p) ∈ updates →
  apply_updates tbl updates !! i = apply_patch p <$> tbl !! i.
Proof.
  revert tbl. induction updates as [|[j q] l IH]; intros tbl Hnd Hin.
  - inversion Hin.
  - rewrite fmap_cons in Hnd. apply NoDup_cons in Hnd as [Hj Hnd].
    apply elem_of_cons in Hin as [Heq|Hin].
    + inversion Heq; subst j q. unfold apply_updates. simpl.
      fold (apply_updates (alter (apply_patch p) i tbl) l).
      rewrite apply_updates_other by done. by rewrite lookup_alter_eq.
    + unfold apply_updates. simpl.
      fold (apply_updates (alter (apply_patch q) j tbl) l).
      rewrite IH by done. rewrite lookup_alter_ne; [done|].
      intros ->. apply Hj. apply list_elem_of_fmap. by exists (i, p).
Qed.

Section Fetch.
Context `{Platform}.
Variables (me contact : string) (privateKey : option PrivateKey).

Lemma decryptMessageContent_total (msg : Message) (w : World) :
  ∃ d, (decryptMessageContent me privateKey msg w).1 = Ok d.
Proof. unfold decryptMessageContent. apply try_catch_ret_total. Qed.

Lemma view_update_run (now : Z) (m : Message) (w : World) :
  view_update now m w
  = if expiry_is_date now m then (Ok (view_patch now m), w)
    else (Throw "RangeError", w).
Proof.
  unfold view_update, expiry_is_date, view_patch.
  destruct (truthy_bool (is_disappearing m) && truthy_num (disappearing_duration m));
    simpl; [|done].
  unfold bind, toISOString.
  by destruct (time_value (now + or_zero (disappearing_duration m) * 60 * 1000)).
Qed.

Lemma mapM_view_update (now : Z) (l : list (string * Message)) (w : World) :
  mapM (λ kv, let! baseUpdate := view_update now kv.2 in ret (kv.1, baseUpdate)) l w
  = if forallb (λ kv, expiry_is_date now kv.2) l
    then (Ok (List.map (λ kv, (kv.1, view_patch now kv.2)) l), w)
    else (Throw "RangeError", w).
Proof.
  induction l as [|kv l IH]; simpl; [done|].
  unfold bind at 1. unfold bind at 1. rewrite view_update_run.
  destruct (expiry_is_date now kv.2); simpl; [|done].
  unfold bind at 1. rewrite IH.
  by destruct (forallb (λ kv, expiry_is_date now kv.2) l).
Qed.

Lemma dates_in_range_forallb (w : World) :
  dates_in_range me contact w
  ↔ forallb (λ kv, expiry_is_date (clock w) kv.2) (to_update me contact w) = true.
Proof.
  unfold dates_in_range. rewrite forallb_forall. split.
  - intros Hd [j r] Hin. apply (Hd j r). by apply list_elem_of_In.
  - intros Hf j r Hin. apply (Hf (j, r)). by apply list_elem_of_In.
Qed.

Lemma fetchMessages_db (w : World) :
  db (fetchMessages me contact privateKey false w).2
  = if forallb (λ kv, expiry_is_date (clock w) kv.2) (to_update me contact w)
    then apply_updates (db w)
           (List.map (λ kv, (kv.1, view_patch (clock w) kv.2))
              (to_update me contact w))
    else db w.
Proof.
  unfold fetchMessages.
  set (decrypt := λ kv : string * Message,
         bind (decryptMessageContent me privateKey kv.2) (λ d, ret (kv.1, d))).
  unfold bind at 1. unfold emit at 1. unfold bind at 1. unfold try_catch.
  unfold bind at 1. unfold get_db at 1. rewrite db_logged. unfold bind at 1.
  set (w0 := logged w [SetLoading true]).
  set (data := map_to_list (filter (λ kv, in_conversation me contact kv.2 = true) (db w))).
  assert (Hpres : same_store w0 (mapM decrypt data w0).2).
  { apply (preserves_mapM same_store). intros kv.
    apply (preserves_bind same_store); [|intros d; apply (preserves_ret same_store)].
    apply (preserves_decryptMessageContent same_store
             same_store_draw same_store_emit). }
  destruct (mapM_total decrypt data) with (w := w0) as [ds Hds].
  { intros kv w1. unfold decrypt, bind.
    destruct (decryptMessageContent_total kv.2 w1) as [d Hd].
    destruct (decryptMessageContent me privateKey kv.2 w1) as [r w2].
    simpl in Hd. subst r. by eexists. }
  destruct (mapM decrypt data w0) as [r w1]. simpl in Hds, Hpres. subst r.
  destruct Hpres as [Hdb Hclock]. simpl in Hdb, Hclock.
  unfold bind at 1. unfold emit at 1.
  unfold to_update. fold data.
  set (upd := List.filter (λ kv : string * Message, unviewed me kv.2) data).
  destruct (0 <? length upd)%nat eqn:Hlen.
  - unfold bind at 1. unfold Date_now at 1. rewrite clock_logged, Hclock.
    unfold bind at 1. rewrite mapM_view_update.
    destruct (forallb (λ kv, expiry_is_date (clock w) kv.2) upd).
    + pose proof (forM_db_update
        (List.map (λ kv : string * Message, (kv.1, view_patch (clock w) kv.2)) upd)
        (logged w1 [SetMessages ds])) as [Hok Hfold].
      destruct (forM_ _ _ _) as [r w2]. simpl in Hok, Hfold. subst r.
      simpl. by rewrite Hfold, Hdb.
    + simpl. exact Hdb.
  - simpl. apply Nat.ltb_ge in Hlen.
    destruct upd; [simpl; done|simpl in Hlen; lia].
Qed.

Lemma NoDup_fst_filter {A} (f : string * A → bool) (l : list (string * A)) :
  NoDup l.*1 → NoDup (List.filter f l).*1.
Proof.
  induction l as [|x l IH]; simpl; [done|].
  intros [Hx Hl]%NoDup_cons. destruct (f x); simpl; [|by apply IH].
  apply NoDup_cons. split; [|by apply IH].
  intros [y [Hy Hin]]%list_elem_of_fmap. apply Hx.
  apply list_elem_of_fmap. exists y. split; [done|].
  apply list_elem_of_In in Hin. apply filter_In in Hin as [Hin _].
  by apply list_elem_of_In.
Qed.

Lemma to_update_NoDup (w : World) : NoDup (to_update me contact w).*1.
Proof. apply NoDup_fst_filter, NoDup_fst_map_to_list. Qed.

Lemma to_update_elem (w : World) (i : string) (m : Message) :
  db w !! i = Some m → in_conversation me contact m = true →
  unviewed me m = true → (i, m) ∈ to_update me contact w.
Proof.
  intros Hi Hc Hu. apply list_elem_of_In, filter_In. split; [|done].
  apply list_elem_of_In, elem_of_map_to_list, map_lookup_filter_Some. done.
Qed.

(** A fetch in which some expiry is no date changes no row. *)
Lemma fetchMessages_cancelled (w : World) :
  ¬ dates_in_range me contact w →
  db (fetchMessages me contact privateKey false w).2 = db w.
Proof.
  intros Hno. rewrite fetchMessages_db.
  destruct (forallb _ _) eqn:E; [|done].
  exfalso. by apply Hno, dates_in_range_forallb.
Qed.

(** After a [fetchMessages] in which every expiry is a date, an unviewed
    row of the conversation that is addressed to the local user is its old
    self with [baseUpdate] applied. *)
Lemma fetchMessages_row (w : World) (i : string) (m : Message) :
  dates_in_range me contact w →
  db w !! i = Some m → in_conversation me contact m = true →
  unviewed me m = true →
  db (fetchMessages me contact privateKey false w).2 !! i
  = Some (apply_patch (view_patch (clock w) m) m).
Proof.
  intros Hd Hi Hc Hu. rewrite fetchMessages_db.
  rewrite (proj1 (dates_in_range_forallb w) Hd).
  rewrite (apply_updates_lookup _ _ i (view_patch (clock w) m)).
  - by rewrite Hi.
  - rewrite <- list_fmap_compose.
    erewrite list_fmap_ext; [apply to_update_NoDup|]. by intros ? [].
  - apply list_elem_of_fmap. exists (i, m). split; [done|].
    by apply to_update_elem.
Qed.

(** C7, as the code has it.  When the receiver fetches the conversation
    and the expiry of every row the fetch is to mark is a date, every
    message addressed to them that was not yet viewed gets [is_viewed =
    true] and [viewed_at = now]; if it is disappearing with a duration of
    [d] minutes other than 0, [expires_at] becomes [now] plus [d] minutes;
    if it is not disappearing, or has no duration or the duration 0,
    [expires_at] stays as it was.  In particular a message sent under
    mode "1h_view" and viewed at [T] expires at [T] + 60 minutes.  When
    the expiry of some row to be marked is no date, the fetch marks
    nothing: the table stays as it was. *)
Theorem first_view_sets_expiry (w : World) (i : string) (m : Message) :
  db w !! i = Some m → sender_id m = contact → receiver_id m = me →
  truthy_bool (is_viewed m) = false →
  let now := clock w in
  let minute := 60 * 1000 in
  let w1 := (fetchMessages me contact privateKey false w).2 in
  (dates_in_range me contact w →
   ∃ m', db w1 !! i = Some m'
     ∧ is_viewed m' = Some true
     ∧ viewed_at m' = Some now
     ∧ (∀ d, is_disappearing m = Some true → disappearing_duration m = Some d →
             d ≠ 0 → expires_at m' = Some (now + d * minute))
     ∧ (is_disappearing m ≠ Some true ∨ disappearing_duration m = None
        ∨ disappearing_duration m = Some 0 →
        expires_at m' = expires_at m)
     ∧ (∀ t0 packet mediaType mediaUrl,
          m = messageData contact me "1h_view" t0 packet mediaType mediaUrl →
          expires_at m' = Some (now + 60 * minute)))
  ∧ (¬ dates_in_range me contact w → db w1 = db w).
Proof.
  intros Hi Hs Hr Hv now minute w1. split; [|apply fetchMessages_cancelled].
  intros Hdates.
  assert (Hc : in_conversation me contact m = true).
  { unfold in_conversation. rewrite (bool_decide_eq_true_2 _ Hs).
    rewrite (bool_decide_eq_true_2 _ Hr). apply orb_true_r. }
  assert (Hu : unviewed me m = true).
  { unfold unviewed. rewrite (bool_decide_eq_true_2 _ Hr), Hv. done. }
  exists (apply_patch (view_patch now m) m).
  split; [by apply fetchMessages_row|].
  assert (Hd : ∀ d, is_disappearing m = Some true →
                    disappearing_duration m = Some d → d ≠ 0 →
                    expires_at (apply_patch (view_patch now m) m)
                    = Some (now + d * minute)).
  { intros d Hdis Hdur Hd0. unfold view_patch. simpl. rewrite Hdis, Hdur. simpl.
    destruct (Z.eqb_spec d 0) as [?|_]; [done|]. simpl.
    f_equal. unfold minute. lia. }
  repeat split; try done.
  - intros Hno. unfold view_patch. simpl.
    destruct Hno as [Hno|[Hno|Hno]].
    + destruct (is_disappearing m) as [[]|]; simpl; done.
    + rewrite Hno. simpl. by rewrite andb_false_r.
    + rewrite Hno. simpl. by rewrite andb_false_r.
  - intros t0 packet mediaType mediaUrl ->. by apply Hd.
Qed.

End Fetch.

Lemma first_view_sets_expiry_witness :
  let m := messageData "alice" "bob" "1h_view" 0 "[bob]" "text" None in
  let w := mkWorld 0 5000 [] (<["m1" := m]> ∅) in
  dates_in_range "bob" "alice" w
  ∧ ∃ m', db (fetchMessages (H:=Model.platform) "bob" "alice" None false w).2 !! "m1"
          = Some m'
      ∧ is_viewed m' = Some true ∧ viewed_at m' = Some 5000
      ∧ expires_at m' = Some (5000 + 60 * (60 * 1000)).
Proof.
  intros m w.
  assert (Hd : dates_in_range "bob" "alice" w).
  { apply (dates_in_range_forallb "bob" "alice"). vm_compute. reflexivity. }
  split; [exact Hd|].
  destruct (first_view_sets_expiry (H:=Model.platform) "bob" "alice" None w "m1" m
              eq_refl eq_refl eq_refl eq_refl) as [Hok _].
  destruct (Hok Hd) as (m' & Hl & Hv & Ht & _ & _ & He).
  exists m'. split; [exact Hl|]. split; [exact Hv|]. split; [exact Ht|].
  exact (He 0 "[bob]" "text" None eq_refl).
Defined.

(** C7 as stated fails in two ways.  A disappearing row whose duration is
    set to 0 is marked viewed without any expiry.  And next to a row whose
    duration, added to the instant, is no date, an ordinary "1h_view"
    message is not even marked viewed. *)
Lemma first_view_may_set_nothing :
  let zero := mkMessage "alice" "bob" (Some "[bob]") "text" None
                (Some false) None None (Some false) (Some true) (Some 0) None None in
  let w := mkWorld 0 5000 [] (<["m0" := zero]> ∅) in
  let m := messageData "alice" "bob" "1h_view" 0 "[bob]" "text" None in
  let far := mkMessage "alice" "bob" (Some "[bob]") "text" None
               (Some false) None None (Some false) (Some true)
               (Some 1000000000000000) None None in
  let w' := mkWorld 0 5000 [] (<["m1" := m]> (<["m2" := far]> ∅)) in
  (is_viewed <$> db (fetchMessages (H:=Model.platform) "bob" "alice" None false w).2
                 !! "m0" = Some (Some true)
   ∧ expires_at <$> db (fetchMessages (H:=Model.platform) "bob" "alice" None false w).2
                    !! "m0" = Some None)
  ∧ db (fetchMessages (H:=Model.platform) "bob" "alice" None false w').2 !! "m1"
    = Some m
  ∧ is_viewed m = Some false
  ∧ ConsoleError "Fetch messages error:"
    ∈ trace (fetchMessages (H:=Model.platform) "bob" "alice" None false w').2.
Proof.
  intros zero w m far w'.
  split; [split; vm_compute; reflexivity|].
  split; [vm_compute; reflexivity|]. split; [reflexivity|].
  assert (E : trace (fetchMessages (H:=Model.platform) "bob" "alice" None false w').2
              = [SetLoading true;
                 SetMessages [("m1", "[Decrypting...]"); ("m2", "[Decrypting...]")];
                 ConsoleError "Fetch messages error:"; SetLoading false]).
  { vm_compute. reflexivity. }
  rewrite E. do 2 apply list_elem_of_further. apply list_elem_of_here.
Qed.

End ViewFacts.

(** ** Sending: lifecycle fields *)

Module SendFacts.
Import Chat Observations.

Lemma endsWith_spec (s suffix : string) :
  endsWith s suffix = true ↔ ∃ p, s = p +:+ suffix.
Proof.
  induction s as [|c s IH]; simpl.
  - rewrite orb_false_r, bool_decide_eq_true. split.
    + intros <-. by exists "".
    + intros [p Hp]. destruct p; simpl in Hp; [done|discriminate].
  - rewrite orb_true_iff, bool_decide_eq_true, IH. split.
    + intros [<-|[p ->]]; [by exists ""|by exists (String c p)].
    + intros [p Hp]. destruct p as [|c' p]; simpl in Hp; [by left|].
      right. exists p. by inversion Hp.
Qed.

Lemma messageData_lifecycle me contact mode now packet mediaType mediaUrl :
  lifecycle_of mode now (messageData me contact mode now packet mediaType mediaUrl).
Proof.
  unfold lifecycle_of, messageData; simpl.
  split; [eexists; split; [reflexivity|apply bool_decide_eq_true]|].
  split; [eexists; split; [reflexivity|apply endsWith_spec]|].
  repeat split; intros; subst; try done;
    repeat (rewrite bool_decide_eq_false_2 by done); try done.
Qed.

#[local] Instance inserts_only_preorder c P : PreOrder (inserts_only c P).
Proof.
  split.
  - intros w Hc. split; [done|]. exists []. split; [by rewrite app_nil_r|].
    intros m Hm. inversion Hm.
  - intros w1 w2 w3 H12 H23 Hc.
    destruct (H12 Hc) as (Hc2 & evs & Ht & HP).
    destruct (H23 Hc2) as (Hc3 & evs' & Ht' & HP').
    split; [done|]. exists (evs ++ evs'). split.
    + by rewrite Ht', Ht, app_assoc.
    + intros m [Hm|Hm]%elem_of_app; auto.
Qed.

Lemma inserts_only_draw c P w : inserts_only c P w (draw w).2.
Proof.
  intros Hc. split; [done|]. exists []. simpl. split; [by rewrite app_nil_r|].
  intros m Hm. inversion Hm.
Qed.

Lemma inserts_only_emit c P ev w :
  ¬ store_request ev → inserts_only c P w (emit ev w).2.
Proof.
  intros Hev Hc. split; [done|]. exists [ev]. split; [done|].
  intros m Hm. apply list_elem_of_singleton in Hm. subst ev. by destruct Hev.
Qed.

Section Send.
Context `{Platform}.
Variables (me contact : string) (profiles : gmap string string)
          (insert_error : bool) (upload_error : option string)
          (getPublicUrl : string → string) (inserted_id : string).

(** Whatever [sendMessage] does, every record it asks the store to insert
    has the lifecycle fields of the conversation's mode at the instant of
    sending. *)
Lemma inserts_carry_lifecycle_fields newMessage mode myPublicKey mediaType
    mediaBlob (w : World) :
  ∃ evs,
    trace (sendMessage me contact profiles insert_error upload_error
             getPublicUrl inserted_id newMessage mode myPublicKey
             mediaType mediaBlob w).2
    = trace w ++ evs
    ∧ ∀ m, DbInsert m ∈ evs → lifecycle_of mode (clock w) m.
Proof.
  refine (proj2 (preserves_sendMessage
    (inserts_only (clock w) (lifecycle_of mode (clock w)))
    (inserts_only_draw _ _) (inserts_only_emit _ _)
    me contact profiles insert_error upload_error getPublicUrl inserted_id
    newMessage mode myPublicKey mediaType mediaBlob _ w eq_refl)).
  intros packet mediaUrl k Hk w0 Hc.
  set (m := messageData me contact mode (clock w) packet mediaType mediaUrl).
  assert (E : ∃ o ww,
            (let! now := Date_now in
             let! inserted :=
               db_insert insert_error inserted_id
                 (messageData me contact mode now packet mediaType mediaUrl) in
             k inserted) w0 = k o ww
            ∧ clock ww = clock w ∧ trace ww = trace w0 ++ [DbInsert m]).
  { unfold bind, Date_now, db_insert, bind, emit, get_db, set_db.
    simpl. rewrite Hc. fold m. destruct insert_error; simpl.
    - eexists None, _. split; [reflexivity|]. by simpl.
    - eexists (Some inserted_id), _. split; [reflexivity|]. by simpl. }
  destruct E as (o & ww & -> & Hcw & Htw).
  destruct (Hk o ww Hcw) as (Hc' & evs & Ht & HP).
  split; [done|]. exists (DbInsert m :: evs). split.
  - by rewrite Ht, Htw, <- app_assoc.
  - intros m' [Hm'|Hm']%elem_of_cons; [|by apply HP].
    inversion Hm'; subst m'. apply messageData_lifecycle.
Qed.

End Send.

End SendFacts.

(** ** The envelope codec *)

Module CryptoFacts.
Import Crypto.

Lemma truthy_JStr (s : string) : s ≠ "" → truthy (Some (JStr s)) = true.
Proof. by destruct s. Qed.

Lemma string_of_list_byte_nonempty (b : list Byte.byte) :
  b ≠ [] → string_of_list_byte b ≠ "".
Proof. by destruct b. Qed.

Lemma string_of_list_byte_length (b : list Byte.byte) :
  String.length (string_of_list_byte b) = length b.
Proof. induction b as [|x b IH]; simpl; [done|]. by f_equal. Qed.

Section WithLaws.
Context `{PlatformLaws}.

Lemma bufferToBase64_nonempty (b : list Byte.byte) :
  b ≠ [] → bufferToBase64 b ≠ "".
Proof.
  intros Hb. apply btoa_nonempty. by apply string_of_list_byte_nonempty.
Qed.

Lemma base64ToBuffer_bufferToBase64 (b : list Byte.byte) (w : World) :
  base64ToBuffer (bufferToBase64 b) w = (Ok b, w).
Proof.
  unfold base64ToBuffer, bufferToBase64, bind. rewrite atob_btoa. simpl.
  by rewrite list_byte_of_string_of_list_byte.
Qed.

Lemma generateAESKey_run (w : World) :
  generateAESKey w
  = (Ok (aes_generate (tick w)), drawn (logged w [GenerateKey "AES-GCM"])).
Proof. reflexivity. Qed.

Lemma encryptWithAES_run (text : string) (key : AESKey) (w : World) :
  let iv := random_values (tick w) 12 in
  encryptWithAES text key w
  = (Ok (bufferToBase64 (aes_gcm_encrypt key iv (TextEncoder_encode text)),
         bufferToBase64 iv),
     logged (drawn (logged w [GetRandomValues 12])) [SubtleEncrypt "AES-GCM"]).
Proof. reflexivity. Qed.

Lemma encryptAESKeyForUser_run (k : AESKey) (pk : PublicKey) (w : World) c :
  rsa_oaep_encrypt pk (aes_export_raw k) = Some c →
  encryptAESKeyForUser k pk w
  = (Ok (bufferToBase64 c),
     logged w [SubtleExportKey "raw"; SubtleEncrypt "RSA-OAEP"]).
Proof.
  intros Hc. unfold encryptAESKeyForUser, bind, emit. simpl. rewrite Hc.
  unfold logged. simpl. by rewrite <- app_assoc.
Qed.

Lemma decryptAESKeyWithUserPrivateKey_run (k : AESKey) pk sk (w : World) c :
  KeyPair pk sk → rsa_oaep_encrypt pk (aes_export_raw k) = Some c →
  decryptAESKeyWithUserPrivateKey (bufferToBase64 c) sk w
  = (Ok k, logged w [SubtleDecrypt "RSA-OAEP"; SubtleImportKey "raw"]).
Proof.
  intros HK Hc. unfold decryptAESKeyWithUserPrivateKey, try_catch, bind.
  rewrite base64ToBuffer_bufferToBase64. simpl.
  rewrite (rsa_oaep_correct _ _ HK _ _ Hc). simpl.
  rewrite aes_raw_roundtrip. unfold logged. simpl. by rewrite <- app_assoc.
Qed.

Lemma decryptWithAES_run (k : AESKey) (iv m : list Byte.byte) (w : World) :
  decryptWithAES (bufferToBase64 (aes_gcm_encrypt k iv m)) (bufferToBase64 iv) k w
  = (Ok (TextDecoder_decode m), logged w [SubtleDecrypt "AES-GCM"]).
Proof.
  unfold decryptWithAES, try_catch, bind.
  rewrite !base64ToBuffer_bufferToBase64. simpl.
  by rewrite aes_gcm_correct.
Qed.

Lemma hybrid_packet_props (content iv key : string) :
  let fields := match hybrid_packet content iv key with
                | JObj f => f | _ => ∅ end in
  fields !! "v" = Some (JStr "h1") ∧ fields !! "key" = Some (JStr key)
  ∧ fields !! "content" = Some (JStr content) ∧ fields !! "iv" = Some (JStr iv)
  ∧ fields !! "keys" = None.
Proof. simpl. repeat split; by simplify_map_eq. Qed.

Lemma encryptMessage_hybrid (message : string) pk (w : World) c :
  let k := aes_generate (tick w) in
  let iv := random_values (S (tick w)) 12 in
  rsa_oaep_encrypt pk (aes_export_raw k) = Some c →
  encryptMessage message pk w
  = (Ok (JSON_stringify
           (hybrid_packet
              (bufferToBase64 (aes_gcm_encrypt k iv (TextEncoder_encode message)))
              (bufferToBase64 iv) (bufferToBase64 c))),
     logged (drawn (drawn w))
       [GenerateKey "AES-GCM"; GetRandomValues 12; SubtleEncrypt "AES-GCM";
        SubtleExportKey "raw"; SubtleEncrypt "RSA-OAEP"]).
Proof.
  intros k iv Hc. unfold encryptMessage, try_catch. unfold bind at 1.
  rewrite generateAESKey_run. unfold bind at 1. rewrite encryptWithAES_run.
  unfold bind at 1. rewrite (encryptAESKeyForUser_run _ _ _ c) by exact Hc.
  unfold ret, logged, drawn. simpl. by rewrite <- !app_assoc.
Qed.

Lemma decryptMessage_hybrid (k : AESKey) (iv m : list Byte.byte) pk sk c
    (w : World) :
  KeyPair pk sk → iv ≠ [] →
  rsa_oaep_encrypt pk (aes_export_raw k) = Some c →
  decryptMessage
    (JSON_stringify
       (hybrid_packet (bufferToBase64 (aes_gcm_encrypt k iv m))
          (bufferToBase64 iv) (bufferToBase64 c))) sk w
  = (Ok (TextDecoder_decode m),
     logged w [SubtleDecrypt "RSA-OAEP"; SubtleImportKey "raw";
               SubtleDecrypt "AES-GCM"]).
Proof.
  intros HK Hiv Hc. unfold decryptMessage, decryptMessage_try, try_catch.
  rewrite JSON_roundtrip_h1.
  destruct (hybrid_packet_props (bufferToBase64 (aes_gcm_encrypt k iv m))
              (bufferToBase64 iv) (bufferToBase64 c))
    as (Hv & Hkey & Hcontent & Hiv' & _).
  unfold hybrid_packet in *. simpl in Hv, Hkey, Hcontent, Hiv'.
  unfold bind, get_prop, ret. rewrite Hv, Hkey, Hcontent, Hiv'.
  unfold is_h1. simpl strict_eq_str.
  rewrite !truthy_JStr.
  2:{ by apply bufferToBase64_nonempty. }
  2:{ apply bufferToBase64_nonempty, aes_gcm_ciphertext_nonempty. }
  2:{ apply bufferToBase64_nonempty. intros ->.
      pose proof (rsa_oaep_ciphertext_long _ _ HK _ _ Hc) as Hlen.
      simpl in Hlen. lia. }
  simpl. unfold to_str. rewrite !ToString_JStr.
  rewrite (decryptAESKeyWithUserPrivateKey_run k pk sk _ c HK Hc).
  rewrite decryptWithAES_run. unfold logged. simpl. by rewrite <- app_assoc.
Qed.

(** C3, as the code has it.  For a key pair, [encryptMessage] returns a
    ciphertext from which [decryptMessage] gives back the plaintext as
    [TextDecoder] reads the bytes [TextEncoder] wrote for it: the
    plaintext itself when the text codec carries it unchanged, and another
    string when it does not. *)
Theorem encrypt_decrypt_roundtrip (message : string) pk sk (w : World) :
  KeyPair pk sk →
  let reread := TextDecoder_decode (TextEncoder_encode message) in
  ∃ c w1, encryptMessage message pk w = (Ok c, w1)
          ∧ (∀ w2, (decryptMessage c sk w2).1 = Ok reread)
          ∧ (reread = message → ∀ w2, (decryptMessage c sk w2).1 = Ok message)
          ∧ (reread ≠ message → ∀ w2, (decryptMessage c sk w2).1 ≠ Ok message).
Proof.
  intros HK reread.
  destruct (rsa_oaep_wraps_keys _ _ HK (tick w)) as [c Hc].
  eexists _, _. split; [by apply encryptMessage_hybrid|].
  assert (Hdec : ∀ w2,
    (decryptMessage
       (JSON_stringify
          (hybrid_packet
             (bufferToBase64
                (aes_gcm_encrypt (aes_generate (tick w))
                   (random_values (S (tick w)) 12) (TextEncoder_encode message)))
             (bufferToBase64 (random_values (S (tick w)) 12))
             (bufferToBase64 c))) sk w2).1 = Ok reread).
  { intros w2. rewrite (decryptMessage_hybrid _ _ _ pk sk c) by
      first [done | intros Hnil;
                    pose proof (random_values_length (S (tick w)) 12) as Hl;
                    rewrite Hnil in Hl; discriminate].
    reflexivity. }
  split; [exact Hdec|]. split.
  - intros Heq w2. by rewrite Hdec, Heq.
  - intros Hne w2. rewrite Hdec. intros Heq. apply Hne. by inversion Heq.
Qed.

(** The legacy path: a bare base64 RSA-OAEP ciphertext is decrypted by
    one RSA-OAEP call and read as text, whether or not the base64 text
    happens to parse as a JSON primitive. *)
Lemma legacy_ciphertext_decrypts sk (c plain : list Byte.byte) (w : World) :
  rsa_oaep_decrypt sk c = Some plain →
  (3 < length c)%nat →
  decryptMessage (bufferToBase64 c) sk w
  = (Ok (TextDecoder_decode plain), logged w [SubtleDecrypt "RSA-OAEP"]).
Proof.
  intros Hdec Hlen.
  assert (Hlegacy : legacy_rsa (bufferToBase64 c) sk w
                    = (Ok (TextDecoder_decode plain),
                       logged w [SubtleDecrypt "RSA-OAEP"])).
  { unfold legacy_rsa, bind. rewrite base64ToBuffer_bufferToBase64. simpl.
    by rewrite Hdec. }
  unfold decryptMessage, decryptMessage_try, try_catch.
  destruct (JSON_parse (bufferToBase64 c)) as [j|] eqn:Hj.
  - pose proof (btoa_parse_primitive _ _ Hj) as Hprim.
    destruct j; simpl in Hprim; try done.
    + apply btoa_parse_null in Hj.
      rewrite string_of_list_byte_length in Hj. lia.
    + unfold bind, get_prop, ret. simpl. by rewrite Hlegacy.
    + unfold bind, get_prop, ret. simpl. by rewrite Hlegacy.
  - by rewrite Hlegacy.
Qed.

End WithLaws.

End CryptoFacts.

(** ** The executable platform satisfies the laws *)

Module ModelFacts.
Import Model.

Lemma dec_str_enc_str (s rest : string) :
  dec_str (enc_str s +:+ rest) = Some (s, rest).
Proof. induction s as [|c s IH]; simpl; [done|]. by rewrite IH. Qed.

Lemma parse_btoa (s : string) : parse (String "b" s) = None.
Proof. reflexivity. Qed.

#[export] Instance laws : PlatformLaws.
Proof.
  split; simpl.
  - done.
  - done.
  - intros s j Hj. discriminate Hj.
  - intros s Hj. discriminate Hj.
  - intros content iv key. unfold stringify, parse, Crypto.hybrid_packet.
    simplify_map_eq. simpl. by rewrite !dec_str_enc_str.
  - done.
  - done.
  - done.
  - done.
  - intros t n. apply repeat_length.
Qed.

Lemma byte_eqb_refl (b : Byte.byte) : Byte.eqb b b = true.
Proof. by destruct b. Qed.

Lemma keypair (k : Byte.byte) : KeyPair (H:=platform) k k.
Proof.
  split; simpl.
  - intros m c Hc. inversion Hc; subst c. simpl.
    by rewrite !byte_eqb_refl.
  - intros t. by eexists.
  - intros m c Hc. inversion Hc; subst c. simpl. lia.
Qed.

End ModelFacts.

(** ** Decoding: fallbacks, mismatches, failures *)

Module DecodeFacts.
Import Crypto Chat Observations CryptoFacts.

Section WithPlatform.
Context `{Platform}.

Lemma get_prop_non_null (j : json) (k : string) (w : World) :
  j ≠ JNull →
  get_prop j k w
  = (Ok (match j with JObj f => f !! k | _ => None end), w).
Proof. by destruct j. Qed.

Lemma decryptMessage_not_hybrid (s : string) sk (w : World) :
  not_hybrid h1_shape s → decryptMessage s sk w = legacy_or_placeholder s sk w.
Proof.
  unfold decryptMessage, decryptMessage_try, legacy_or_placeholder, try_catch.
  intros [Hnone|(j & Hj & Hnull & Hshape)]; [by rewrite Hnone|].
  rewrite Hj. unfold bind. rewrite !get_prop_non_null by done.
  destruct j; simpl in *; try done. by rewrite Hshape.
Qed.

Lemma decryptMessageContent_not_hybrid me sk (msg : Message) raw (w : World) :
  encrypted_content msg = Some raw → raw ≠ "" →
  not_hybrid chat_shape raw →
  decryptMessageContent me sk msg w = (Ok raw, w).
Proof.
  intros Hraw Hne Hnot. unfold decryptMessageContent, try_catch.
  rewrite Hraw, (bool_decide_eq_false_2 _ Hne).
  destruct Hnot as [Hnone|(j & Hj & Hnull & Hshape)]; [by rewrite Hnone|].
  rewrite Hj. unfold bind. rewrite !get_prop_non_null by done.
  destruct j; simpl in *; try done.
  rewrite <- !negb_andb, Hshape. done.
Qed.


(** C5.  [decryptMessageContent] on an envelope with truthy [iv] and
    [content] and a [keys] object without an entry for the local user,
    whose id is not the name of a property that every object inherits,
    returns the key-mismatch placeholder and leaves the world as it was:
    nothing is thrown, no platform call (so no decryption) is made.  And
    on no input at all does it throw. *)
Theorem key_mismatch_placeholder me sk (msg : Message) raw
    (fields keys : gmap string json) (w : World) :
  encrypted_content msg = Some raw → raw ≠ "" →
  JSON_parse raw = Some (JObj fields) →
  truthy (fields !! "iv") = true → truthy (fields !! "content") = true →
  fields !! "keys" = Some (JObj keys) → keys !! me = None →
  Object_prototype_property me = false →
  decryptMessageContent me sk msg w
  = (Ok "[Secure Signal: Key mismatch for current node]", w)
  ∧ ∀ msg' w', ∃ d, (decryptMessageContent me sk msg' w').1 = Ok d.
Proof.
  intros Hraw Hne Hj Hiv Hcontent Hkeys Hme Hown. split.
  - unfold decryptMessageContent, try_catch.
    rewrite Hraw, (bool_decide_eq_false_2 _ Hne), Hj.
    unfold bind, get_prop, ret. rewrite Hiv, Hcontent, Hkeys. simpl.
    by rewrite Hme.
  - intros msg' w'. unfold decryptMessageContent.
    apply ViewFacts.try_catch_ret_total.
Qed.

Lemma decryptToBlob_bad_iv buf iv key mime (w : World) :
  atob iv = None →
  decryptToBlob buf iv key mime w
  = (Throw "InvalidCharacterError",
     logged w [ConsoleError "Blob decryption failed:"]).
Proof.
  intros Hiv. unfold decryptToBlob, try_catch, bind, base64ToBuffer, bind.
  by rewrite Hiv.
Qed.

Lemma decryptToBlob_auth_failure buf iv b key mime (w : World) :
  atob iv = Some b →
  aes_gcm_decrypt key (list_byte_of_string b) buf = None →
  decryptToBlob buf iv key mime w
  = (Throw "OperationError",
     logged w [SubtleDecrypt "AES-GCM"; ConsoleError "Blob decryption failed:"]).
Proof.
  intros Hiv Hdec. unfold decryptToBlob, try_catch, bind, base64ToBuffer, bind.
  rewrite Hiv. simpl. rewrite Hdec. unfold logged. simpl.
  by rewrite <- app_assoc.
Qed.

(** C9.  [decryptMessage] returns on every input; whenever its [try]
    block throws, for instance on text that is neither JSON nor base64,
    or on a legacy ciphertext RSA-OAEP rejects, the result is the
    placeholder "[Secure Signal]".  [decryptToBlob] instead rethrows: a
    malformed nonce or a failed AES-GCM authentication reaches the
    caller as an exception. *)
Theorem text_swallows_blob_throws :
  (∀ s sk w, ∃ r, (decryptMessage s sk w).1 = Ok r)
  ∧ (∀ s sk w e w', decryptMessage_try s sk w = (Throw e, w') →
                    decryptMessage s sk w = (Ok "[Secure Signal]", w'))
  ∧ (∀ s sk w, JSON_parse s = None → atob s = None →
               decryptMessage s sk w = (Ok "[Secure Signal]", w))
  ∧ (∀ s b sk w, JSON_parse s = None → atob s = Some b →
                 rsa_oaep_decrypt sk (list_byte_of_string b) = None →
                 (decryptMessage s sk w).1 = Ok "[Secure Signal]")
  ∧ (∀ buf iv key mime w, atob iv = None →
       (decryptToBlob buf iv key mime w).1 = Throw "InvalidCharacterError")
  ∧ (∀ buf iv b key mime w,
       atob iv = Some b →
       aes_gcm_decrypt key (list_byte_of_string b) buf = None →
       (decryptToBlob buf iv key mime w).1 = Throw "OperationError").
Proof.
  repeat split.
  - intros s sk w. unfold decryptMessage. apply ViewFacts.try_catch_ret_total.
  - intros s sk w e w' Htry. unfold decryptMessage, try_catch. by rewrite Htry.
  - intros s sk w Hj Hb. unfold decryptMessage, decryptMessage_try, try_catch.
    rewrite Hj. unfold legacy_rsa, bind, base64ToBuffer, bind. by rewrite Hb.
  - intros s b sk w Hj Hb Hrsa.
    unfold decryptMessage, decryptMessage_try, try_catch.
    rewrite Hj. unfold legacy_rsa, bind, base64ToBuffer, bind. rewrite Hb.
    simpl. by rewrite Hrsa.
  - intros. by rewrite decryptToBlob_bad_iv.
  - intros buf iv b key mime w Hiv Hdec.
    by rewrite (decryptToBlob_auth_failure _ _ b).
Qed.

End WithPlatform.

End DecodeFacts.

(** ** Runs on the executable platform *)

Module Runs.
Import Crypto Chat Observations Model ModelFacts Samples.

Lemma encrypt_decrypt_roundtrip_witness :
  ∃ c w1, encryptMessage (H:=platform) "hi" Byte.x01 world0 = (Ok c, w1)
          ∧ ∀ w2, (decryptMessage (H:=platform) c Byte.x01 w2).1 = Ok "hi".
Proof.
  destruct (CryptoFacts.encrypt_decrypt_roundtrip (H:=platform) "hi" Byte.x01
              Byte.x01 world0 (ModelFacts.keypair Byte.x01))
    as (c & w1 & Henc & Hdec & _).
  exists c, w1. split; [exact Henc|]. exact Hdec.
Defined.

(** C3 as stated fails for a plaintext that starts with a byte-order
    mark: [TextEncoder] writes the mark as the bytes EF BB BF, and
    [TextDecoder], which [decryptWithAES] constructs without [ignoreBOM],
    drops them, so the message comes back without its first character. *)
Lemma byte_order_mark_is_dropped :
  let message := string_of_list_byte
                   [Byte.xef; Byte.xbb; Byte.xbf; Byte.x68; Byte.x69] in
  message ≠ "hi"
  ∧ ∃ c w1,
      encryptMessage (H:=Model2.platform) message Byte.x42 world0 = (Ok c, w1)
      ∧ decryptMessage (H:=Model2.platform) c Byte.x42 w1
        = (Ok "hi", logged w1 [SubtleDecrypt "RSA-OAEP"; SubtleImportKey "raw";
                               SubtleDecrypt "AES-GCM"]).
Proof.
  intros message. split; [vm_compute; discriminate|].
  eexists _, _. split; [vm_compute; reflexivity|]. vm_compute. reflexivity.
Qed.



Lemma key_mismatch_placeholder_witness :
  decryptMessageContent (H:=platform) "alice" (Some Byte.x01) for_bob_row world0
  = (Ok "[Secure Signal: Key mismatch for current node]", world0).
Proof.
  refine (proj1 (DecodeFacts.key_mismatch_placeholder (H:=platform) "alice" (Some Byte.x01)
            for_bob_row "[bob]"
            (<["keys" := JObj (<["bob" := JStr "bWJvYg=="]> ∅)]>
              (<["content" := JStr "Yw=="]> (<["iv" := JStr "aXY="]> ∅)))
            (<["bob" := JStr "bWJvYg=="]> ∅) world0
            eq_refl _ eq_refl _ _ _ _ _)); by vm_compute.
Defined.

Lemma text_swallows_blob_throws_witness :
  decryptMessage (H:=platform) "not base64" Byte.x01 world0 = (Ok "[Secure Signal]", world0)
  ∧ (decryptToBlob (H:=platform) [] "not base64" [] "image/jpeg" world0).1
    = Throw "InvalidCharacterError"
  ∧ (decryptToBlob (H:=platform) [] "biv" [] "image/jpeg" world0).1 = Throw "OperationError".
Proof.
  destruct (DecodeFacts.text_swallows_blob_throws (H:=platform))
    as (_ & _ & Htext & _ & Hiv & Hauth).
  split; [by apply Htext|]. split; [by apply Hiv|].
  by apply (Hauth [] "biv" "iv").
Defined.

End Runs.

(** ** Sending: the envelope *)

Module EnvelopeFacts.
Import Crypto Chat Observations CryptoFacts.

Section Send.
Context `{Platform}.
Variables (me contact : string) (profiles : gmap string string)
          (upload_error : option string)
          (getPublicUrl : string → string) (inserted_id : string).

Lemma importPublicKey_run pem der key (w : World) :
  atob pem = Some der → spki_import (list_byte_of_string der) = Some key →
  importPublicKey pem w = (Ok key, logged w [SubtleImportKey "spki"]).
Proof.
  intros Hder Hkey. unfold importPublicKey, bind, base64ToBuffer, bind.
  rewrite Hder. simpl. by rewrite Hkey.
Qed.

Lemma sendMessage_text_run newMessage mode myKey mediaType ppem pder partnerKey
    cp cme (w : World) :
  let text := String_trim newMessage in
  let k := aes_generate (tick w) in
  let iv := random_values (S (tick w)) 12 in
  let content := bufferToBase64 (aes_gcm_encrypt k iv (TextEncoder_encode text)) in
  let env := envelope me contact (bufferToBase64 iv) content None
               (bufferToBase64 cme) (bufferToBase64 cp) in
  let m := messageData me contact mode (clock w) (JSON_stringify env)
             mediaType None in
  text ≠ "" →
  profiles !! contact = Some ppem → ppem ≠ "" →
  atob ppem = Some pder →
  spki_import (list_byte_of_string pder) = Some partnerKey →
  rsa_oaep_encrypt partnerKey (aes_export_raw k) = Some cp →
  rsa_oaep_encrypt myKey (aes_export_raw k) = Some cme →
  sendMessage me contact profiles false upload_error getPublicUrl inserted_id
    newMessage mode (Some myKey) mediaType None w
  = (Ok tt,
     mkWorld (S (S (tick w))) (clock w) (trace w ++ text_events inserted_id m text)
       (<[inserted_id := m]> (db w))).
Proof.
  intros text k iv content env m Htext Hp Hpne Hder Hkey Hcp Hcme.
  unfold sendMessage. fold text.
  rewrite (bool_decide_eq_false_2 _ Htext). simpl.
  rewrite Hp, (bool_decide_eq_false_2 _ Hpne).
  unfold try_catch.
  unfold bind at 1. unfold ret at 1.
  unfold bind at 1. rewrite generateAESKey_run.
  unfold bind at 1. unfold ret at 1. cbv zeta. simpl fst. simpl snd.
  unfold bind at 1. rewrite encryptWithAES_run.
  unfold bind at 1. rewrite (importPublicKey_run _ pder partnerKey) by done.
  unfold bind at 1. rewrite (encryptAESKeyForUser_run _ _ _ cp) by done.
  unfold bind at 1. rewrite (encryptAESKeyForUser_run _ _ _ cme) by done.
  autorewrite with world. simpl app.
  unfold bind at 1, Date_now at 1. autorewrite with world.
  unfold bind at 1, db_insert at 1. unfold bind at 1, emit at 1.
  unfold bind at 1, get_db at 1. unfold bind at 1, set_db at 1. unfold ret at 1.
  unfold bind at 1, ret at 1. unfold bind at 1, emit at 1. unfold emit.
  autorewrite with world. reflexivity.
Qed.

Lemma sendMessage_media_run newMessage mode myKey mediaType blob ppem pder
    partnerKey cp cme (w : World) :
  let text := String_trim newMessage in
  let contentToEncrypt := if bool_decide (text = "") then " " else text in
  let k := aes_generate (tick w) in
  let media_iv := random_values (S (tick w)) 12 in
  let iv := random_values (S (S (tick w))) 12 in
  let content :=
    bufferToBase64 (aes_gcm_encrypt k iv (TextEncoder_encode contentToEncrypt)) in
  let env := envelope me contact (bufferToBase64 iv) content
               (Some (bufferToBase64 media_iv))
               (bufferToBase64 cme) (bufferToBase64 cp) in
  let path := "chat/" +:+ me +:+ "/" +:+
              (mediaType +:+ "-" +:+ ToString (JNum (clock w)) +:+ ".enc") in
  let m := messageData me contact mode (clock w) (JSON_stringify env)
             mediaType (Some (getPublicUrl path)) in
  let url := object_url (S (S (S (tick w)))) blob in
  upload_error = None →
  profiles !! contact = Some ppem → ppem ≠ "" →
  atob ppem = Some pder →
  spki_import (list_byte_of_string pder) = Some partnerKey →
  rsa_oaep_encrypt partnerKey (aes_export_raw k) = Some cp →
  rsa_oaep_encrypt myKey (aes_export_raw k) = Some cme →
  sendMessage me contact profiles false upload_error getPublicUrl inserted_id
    newMessage mode (Some myKey) mediaType (Some blob) w
  = (Ok tt,
     mkWorld (S (S (S (S (tick w))))) (clock w)
       (trace w ++ media_events inserted_id m path url)
       (<[inserted_id := m]> (db w))).
Proof.
  intros text contentToEncrypt k media_iv iv content env path m url
    Hup Hp Hpne Hder Hkey Hcp Hcme.
  unfold sendMessage. fold text. rewrite andb_false_r.
  rewrite Hp, (bool_decide_eq_false_2 _ Hpne), Hup.
  unfold try_catch.
  unfold bind at 1. unfold ret at 1.
  unfold bind at 1. rewrite generateAESKey_run.
  unfold bind at 1. unfold bind at 1.
  unfold encryptBlob at 1. unfold bind at 1. unfold getRandomValues at 1.
  unfold bind at 1, emit at 1. unfold bind at 1, draw at 1. unfold ret at 1.
  unfold bind at 1, emit at 1. unfold ret at 1.
  unfold bind at 1, Date_now at 1. unfold bind at 1, emit at 1. unfold ret at 1.
  autorewrite with world. cbv zeta. simpl fst. simpl snd.
  fold text. fold contentToEncrypt.
  unfold bind at 1. rewrite encryptWithAES_run.
  unfold bind at 1. rewrite (importPublicKey_run _ pder partnerKey) by done.
  unfold bind at 1. rewrite (encryptAESKeyForUser_run _ _ _ cp) by done.
  unfold bind at 1. rewrite (encryptAESKeyForUser_run _ _ _ cme) by done.
  autorewrite with world.
  unfold bind at 1, Date_now at 1. autorewrite with world.
  unfold bind at 1, db_insert at 1. unfold bind at 1, emit at 1.
  unfold bind at 1, get_db at 1. unfold bind at 1, set_db at 1. unfold ret at 1.
  unfold bind at 1. unfold bind at 1, draw at 1. unfold bind at 1, emit at 1.
  unfold ret at 1. unfold bind at 1, emit at 1. unfold emit.
  autorewrite with world. reflexivity.
Qed.

Lemma logged_nil (w : World) : logged w [] = w.
Proof. destruct w. unfold logged. simpl. by rewrite app_nil_r. Qed.

Lemma bind_run {A B} (m : Eff A) (k : A → Eff B) (w w' : World) (a : A) :
  m w = (Ok a, w') → bind m k w = k a w'.
Proof. intros Hm. unfold bind. by rewrite Hm. Qed.

(** Past the guards, a send that has to fetch the sender's key from the
    profile goes on as one that has it at hand, one key import later. *)
Lemma sendMessage_own_key newMessage mode myPublicKey myKey mediaType mediaBlob
    ppem (w : World) :
  (String_trim newMessage ≠ "" ∨ is_Some mediaBlob) →
  profiles !! contact = Some ppem → ppem ≠ "" →
  own_key profiles me myPublicKey myKey →
  sendMessage me contact profiles false upload_error getPublicUrl inserted_id
    newMessage mode myPublicKey mediaType mediaBlob w
  = sendMessage me contact profiles false upload_error getPublicUrl inserted_id
      newMessage mode (Some myKey) mediaType mediaBlob
      (logged w (own_key_events myPublicKey)).
Proof.
  intros Hgo Hp Hpne [->|(-> & pem & der & Hme & Hne & Hder & Hkey)].
  - simpl. by rewrite logged_nil.
  - assert (Hcond : bool_decide (String_trim newMessage = "")
                    && match mediaBlob with None => true | Some _ => false end
                    = false).
    { destruct Hgo as [Ht|[blob ->]]; [|apply andb_false_r].
      by rewrite (bool_decide_eq_false_2 _ Ht). }
    unfold sendMessage. rewrite Hcond, Hp, (bool_decide_eq_false_2 _ Hpne).
    rewrite Hme, (bool_decide_eq_false_2 _ Hne).
    unfold try_catch.
    rewrite (bind_run _ _ w (logged w [SubtleImportKey "spki"]) (Some myKey)).
    2:{ unfold bind. by rewrite (importPublicKey_run pem der myKey). }
    simpl own_key_events.
    rewrite (bind_run (ret (Some myKey)) _ (logged w [SubtleImportKey "spki"])
               (logged w [SubtleImportKey "spki"]) (Some myKey)) by done.
    reflexivity.
Qed.

Lemma sendMessage_text_run_any newMessage mode myPublicKey myKey mediaType
    ppem pder partnerKey cp cme (w : World) :
  let text := String_trim newMessage in
  let k := aes_generate (tick w) in
  let iv := random_values (S (tick w)) 12 in
  let content := bufferToBase64 (aes_gcm_encrypt k iv (TextEncoder_encode text)) in
  let env := envelope me contact (bufferToBase64 iv) content None
               (bufferToBase64 cme) (bufferToBase64 cp) in
  let m := messageData me contact mode (clock w) (JSON_stringify env)
             mediaType None in
  text ≠ "" →
  profiles !! contact = Some ppem → ppem ≠ "" →
  atob ppem = Some pder →
  spki_import (list_byte_of_string pder) = Some partnerKey →
  own_key profiles me myPublicKey myKey →
  rsa_oaep_encrypt partnerKey (aes_export_raw k) = Some cp →
  rsa_oaep_encrypt myKey (aes_export_raw k) = Some cme →
  sendMessage me contact profiles false upload_error getPublicUrl inserted_id
    newMessage mode myPublicKey mediaType None w
  = (Ok tt,
     mkWorld (S (S (tick w))) (clock w)
       (trace w ++ own_key_events myPublicKey ++ text_events inserted_id m text)
       (<[inserted_id := m]> (db w))).
Proof.
  intros text k iv content env m Htext Hp Hpne Hder Hkey Hown Hcp Hcme.
  rewrite (sendMessage_own_key newMessage mode myPublicKey myKey mediaType None
             ppem w) by (try done; by left).
  rewrite (sendMessage_text_run newMessage mode myKey mediaType ppem pder
             partnerKey cp cme (logged w (own_key_events myPublicKey))) by done.
  unfold logged. simpl. by rewrite <- app_assoc.
Qed.

Lemma sendMessage_media_run_any newMessage mode myPublicKey myKey mediaType blob
    ppem pder partnerKey cp cme (w : World) :
  let text := String_trim newMessage in
  let contentToEncrypt := if bool_decide (text = "") then " " else text in
  let k := aes_generate (tick w) in
  let media_iv := random_values (S (tick w)) 12 in
  let iv := random_values (S (S (tick w))) 12 in
  let content :=
    bufferToBase64 (aes_gcm_encrypt k iv (TextEncoder_encode contentToEncrypt)) in
  let env := envelope me contact (bufferToBase64 iv) content
               (Some (bufferToBase64 media_iv))
               (bufferToBase64 cme) (bufferToBase64 cp) in
  let path := "chat/" +:+ me +:+ "/" +:+
              (mediaType +:+ "-" +:+ ToString (JNum (clock w)) +:+ ".enc") in
  let m := messageData me contact mode (clock w) (JSON_stringify env)
             mediaType (Some (getPublicUrl path)) in
  let url := object_url (S (S (S (tick w)))) blob in
  upload_error = None →
  profiles !! contact = Some ppem → ppem ≠ "" →
  atob ppem = Some pder →
  spki_import (list_byte_of_string pder) = Some partnerKey →
  own_key profiles me myPublicKey myKey →
  rsa_oaep_encrypt partnerKey (aes_export_raw k) = Some cp →
  rsa_oaep_encrypt myKey (aes_export_raw k) = Some cme →
  sendMessage me contact profiles false upload_error getPublicUrl inserted_id
    newMessage mode myPublicKey mediaType (Some blob) w
  = (Ok tt,
     mkWorld (S (S (S (S (tick w))))) (clock w)
       (trace w ++ own_key_events myPublicKey
          ++ media_events inserted_id m path url)
       (<[inserted_id := m]> (db w))).
Proof.
  intros text contentToEncrypt k media_iv iv content env path m url
    Hup Hp Hpne Hder Hkey Hown Hcp Hcme.
  rewrite (sendMessage_own_key newMessage mode myPublicKey myKey mediaType
             (Some blob) ppem w) by (try done; by right).
  rewrite (sendMessage_media_run newMessage mode myKey mediaType blob ppem pder
             partnerKey cp cme (logged w (own_key_events myPublicKey))) by done.
  unfold logged. simpl. by rewrite <- app_assoc.
Qed.

Lemma envelope_fields iv content mediaIv kme kp :
  ∃ fields,
    envelope me contact iv content mediaIv kme kp = JObj fields
    ∧ dom fields = ({["iv"; "content"; "media_iv"; "keys"]} : gset string)
    ∧ fields !! "v" = None
    ∧ fields !! "iv" = Some (JStr iv)
    ∧ fields !! "content" = Some (JStr content)
    ∧ fields !! "keys" = Some (JObj (keys_object me contact kme kp)).
Proof.
  eexists. split; [reflexivity|]. split.
  { rewrite !dom_insert_L, dom_empty_L. apply set_eq. intros x.
    rewrite !elem_of_union, !elem_of_singleton, elem_of_empty. tauto. }
  repeat split; by simplify_map_eq.
Qed.

Lemma keys_object_entries kme kp :
  dom (keys_object me contact kme kp) = ({[me; contact]} : gset string)
  ∧ keys_object me contact kme kp !! contact = Some (JStr kp)
  ∧ (me ≠ contact → keys_object me contact kme kp !! me = Some (JStr kme)).
Proof.
  unfold keys_object. split.
  { rewrite !dom_insert_L, dom_empty_L. apply set_eq. intros x.
    rewrite !elem_of_union, !elem_of_singleton, elem_of_empty. tauto. }
  split; [by simplify_map_eq|]. intros Hne. by simplify_map_eq.
Qed.


End Send.

End EnvelopeFacts.

(** ** Sending: the record that is created *)

Module SendCreates.
Import Crypto Chat Observations CryptoFacts SendFacts EnvelopeFacts.

Section Send.
Context `{Platform}.
Variables (me contact : string) (profiles : gmap string string)
          (upload_error : option string)
          (getPublicUrl : string → string) (inserted_id : string).

(** C6.  A successful [sendMessage] creates one record, from the local
    user to the contact and not yet viewed, which has, for the
    conversation's mode and the instant of sending: [is_view_once] true
    iff the mode is "view"; [is_disappearing] true iff the mode ends with
    "_view"; [disappearing_duration] 1, 60, 180 for "1m_view", "1h_view",
    "3h_view" and null otherwise; [expires_at] the instant plus 180
    minutes for "3h", plus 1 minute for "1m", null otherwise.  And
    whatever a [sendMessage] does, whether it succeeds or not, it asks the
    store to insert no record with other lifecycle fields. *)
Theorem lifecycle_fields_at_send newMessage mode myPublicKey myKey mediaType
    mediaBlob ppem pder partnerKey cp cme (w : World) :
  let text := String_trim newMessage in
  let k := aes_generate (tick w) in
  (text ≠ "" ∨ is_Some mediaBlob) →
  (is_Some mediaBlob → upload_error = None) →
  profiles !! contact = Some ppem → ppem ≠ "" →
  atob ppem = Some pder →
  spki_import (list_byte_of_string pder) = Some partnerKey →
  own_key profiles me myPublicKey myKey →
  rsa_oaep_encrypt partnerKey (aes_export_raw k) = Some cp →
  rsa_oaep_encrypt myKey (aes_export_raw k) = Some cme →
  let w1 := (sendMessage me contact profiles false upload_error getPublicUrl
               inserted_id newMessage mode myPublicKey mediaType mediaBlob w).2 in
  (∃ evs m,
     trace w1 = trace w ++ evs
     ∧ DbInsert m ∈ evs
     ∧ (∀ m', DbInsert m' ∈ evs → m' = m)
     ∧ db w1 !! inserted_id = Some m
     ∧ sender_id m = me ∧ receiver_id m = contact
     ∧ is_viewed m = Some false
     ∧ lifecycle_of mode (clock w) m)
  ∧ (∀ insert_error newMessage' myPublicKey' mediaType' mediaBlob' w',
       ∃ evs,
         trace (sendMessage me contact profiles insert_error upload_error
                  getPublicUrl inserted_id newMessage' mode myPublicKey'
                  mediaType' mediaBlob' w').2
         = trace w' ++ evs
         ∧ ∀ m, DbInsert m ∈ evs → lifecycle_of mode (clock w') m).
Proof.
  intros text k Hpayload Hup Hp Hpne Hder Hkey Hown Hcp Hcme w1. split.
  - assert (Hkey_events : ∀ m', DbInsert m' ∉ own_key_events myPublicKey).
    { intros m' Hin. destruct myPublicKey; simpl in Hin; [inversion Hin|].
      apply list_elem_of_singleton in Hin. discriminate. }
    unfold w1. destruct mediaBlob as [blob|].
    + rewrite (sendMessage_media_run_any me contact profiles upload_error
                 getPublicUrl inserted_id newMessage mode myPublicKey myKey
                 mediaType blob ppem pder partnerKey cp cme w)
        by (try done; by apply Hup).
      eexists _, _. split; [reflexivity|]. simpl.
      split.
      { apply elem_of_app. right.
        unfold media_events. do 11 apply list_elem_of_further.
        apply list_elem_of_here. }
      split.
      { intros m' [Hin|Hin]%elem_of_app; [by apply Hkey_events in Hin|].
        unfold media_events in Hin.
        repeat (apply elem_of_cons in Hin as [Hin|Hin];
                [first [discriminate | by inversion Hin]|]).
        inversion Hin. }
      split; [apply lookup_insert_eq|].
      split; [done|]. split; [done|]. split; [done|].
      apply messageData_lifecycle.
    + destruct Hpayload as [Htext|[? ?]]; [|done].
      rewrite (sendMessage_text_run_any me contact profiles upload_error
                 getPublicUrl inserted_id newMessage mode myPublicKey myKey
                 mediaType ppem pder partnerKey cp cme w) by done.
      eexists _, _. split; [reflexivity|]. simpl.
      split.
      { apply elem_of_app. right.
        unfold text_events. do 8 apply list_elem_of_further.
        apply list_elem_of_here. }
      split.
      { intros m' [Hin|Hin]%elem_of_app; [by apply Hkey_events in Hin|].
        unfold text_events in Hin.
        repeat (apply elem_of_cons in Hin as [Hin|Hin];
                [first [discriminate | by inversion Hin]|]).
        inversion Hin. }
      split; [apply lookup_insert_eq|].
      split; [done|]. split; [done|]. split; [done|].
      apply messageData_lifecycle.
  - intros. apply inserts_carry_lifecycle_fields.
Qed.

End Send.

End SendCreates.

(** ** A send on the executable platform *)

Module SendRuns.
Import Crypto Chat Observations Model ModelFacts Samples EnvelopeFacts.



Lemma lifecycle_fields_at_send_witness :
  let send := sendMessage (H:=platform) "alice" "bob" bob_profile false None
                (λ p, p) "m1" "hi" "1h_view" (Some Byte.x41) "text" None in
  ∃ m, DbInsert m ∈ trace (send world0).2
       ∧ db (send world0).2 !! "m1" = Some m
       ∧ is_viewed m = Some false
       ∧ is_view_once m = Some false
       ∧ is_disappearing m = Some true
       ∧ disappearing_duration m = Some 60
       ∧ expires_at m = None.
Proof.
  intros send.
  destruct (SendCreates.lifecycle_fields_at_send (H:=platform)
              "alice" "bob" bob_profile None (λ p, p) "m1"
              "hi" "1h_view" (Some Byte.x41) Byte.x41 "text" None "bB" "B" Byte.x42
              (Byte.x42 :: Byte.x42 :: Byte.x42 :: Byte.x42 :: repeat Byte.x2a 32)
              (Byte.x41 :: Byte.x41 :: Byte.x41 :: Byte.x41 :: repeat Byte.x2a 32)
              world0
              ltac:(left; discriminate) ltac:(intros [? ?]; discriminate)
              eq_refl ltac:(discriminate) eq_refl eq_refl ltac:(by left)
              eq_refl eq_refl)
    as [(evs & m & Ht & Hin & _ & Hdb & _ & _ & Hv & Hlife) _].
  destruct Hlife as ((b1 & Hb1 & Hiff1) & (b2 & Hb2 & Hiff2) & _ & H60 & _ & _
                     & _ & _ & Hexp).
  exists m. split.
  { unfold send. rewrite Ht. apply elem_of_app. by right. }
  split; [exact Hdb|]. split; [exact Hv|].
  split.
  { rewrite Hb1. f_equal. destruct b1; [|done].
    by discriminate (proj1 Hiff1 eq_refl). }
  split.
  { rewrite Hb2. f_equal. destruct b2; [done|].
    by discriminate (proj2 Hiff2 ltac:(by exists "1h")). }
  split; [by apply H60|].
  apply Hexp; discriminate.
Defined.

(** The record of [alice]'s send under "3h" expires 180 minutes after
    instant 1000. *)
Example sent_record_expiry :
  DbInsert sent_record ∈ trace (alice_sends world0).2
  ∧ expires_at sent_record = Some (1000 + 180 * (60 * 1000))
  ∧ is_view_once sent_record = Some false
  ∧ is_disappearing sent_record = Some false
  ∧ disappearing_duration sent_record = None.
Proof.
  split; [|by vm_compute].
  replace (trace (alice_sends world0).2) with (text_events "m1" sent_record "hi")
    by (by vm_compute).
  unfold text_events. do 8 apply list_elem_of_further. apply list_elem_of_here.
Qed.

End SendRuns.

(** ** More on the cleanup sweep *)

Module CleanupMore.
Import Cleanup CleanupFacts.

Lemma select_ids_after_sweep (now now' : Z) (tbl : Table) (i : string) :
  i ∈ select_ids now' (POST no_faults now tbl).2
  ↔ ∃ m, tbl !! i = Some m ∧ completed now' m ∧ ¬ completed now m.
Proof.
  rewrite select_ids_elem. setoid_rewrite selected_completed.
  setoid_rewrite (table_after_POST no_faults now tbl) ; [|done|done].
  destruct (decide (i ∈ select_ids now tbl)) as [Hin|Hout].
  - split; [by intros (m & Hl & _)|].
    intros (m & Hl & Hc & Hn). exfalso.
    apply select_ids_elem in Hin as (m' & Hl' & Hs). rewrite Hl in Hl'.
    inversion Hl'; subst m'. by apply selected_completed in Hs.
  - split.
    + intros (m & Hl & Hc). exists m. split; [done|]. split; [done|].
      intros Hnow. apply Hout, select_ids_elem. exists m.
      by rewrite selected_completed.
    + intros (m & Hl & Hc & Hn). by exists m.
Qed.

Lemma nil_of_no_elem {A} (l : list A) : (∀ x, x ∉ l) → l = [].
Proof.
  destruct l as [|a l]; [done|]. intros Hl. destruct (Hl a). apply list_elem_of_here.
Qed.

(** X1.  A sweep at [now'] right after a successful sweep at [now] asks for
    exactly the rows that completed in between; at the same instant it asks
    for nothing, answers "No messages to delete" and leaves the table as the
    first sweep left it. *)
Theorem second_sweep (f : Faults) (now now' : Z) (tbl : Table) :
  fetch_error f = None →
  let after := (POST no_faults now tbl).2 in
  (∀ i, i ∈ requested (POST f now' after)
        ↔ ∃ m, tbl !! i = Some m ∧ completed now' m ∧ ¬ completed now m)
  ∧ POST f now after
    = (mkResponse (DeletedBody "No messages to delete" 0) 200, None, after).
Proof.
  intros Hf after. split.
  - intros i. rewrite requested_POST, spread_Set_elem by done.
    apply select_ids_after_sweep.
  - assert (Hnil : select_ids now after = []).
    { apply nil_of_no_elem. intros i Hi.
      apply select_ids_after_sweep in Hi as (m & _ & Hc & Hn). by apply Hn. }
    unfold POST, POST_after_fetch. rewrite Hf. simpl. by rewrite Hnil.
Qed.

Lemma second_sweep_witness :
  POST no_faults 100 (POST no_faults 100 sample_table).2
  = (mkResponse (DeletedBody "No messages to delete" 0) 200, None,
     (POST no_faults 100 sample_table).2)
  ∧ ("b" ∈ requested (POST no_faults 600 (POST no_faults 100 sample_table).2)).
Proof.
  destruct (second_sweep no_faults 100 600 sample_table eq_refl) as [Hreq _].
  destruct (second_sweep no_faults 100 100 sample_table eq_refl) as [_ Hsame].
  split; [exact Hsame|]. apply Hreq.
  exists (sample_row (Some true) (Some false) (Some 500)).
  split; [vm_compute; reflexivity|]. split.
  - repeat split; [by right|]. right. exists 500. split; [reflexivity|lia].
  - intros (_ & _ & [Hn|(t & Ht & Hlt)]); [discriminate|].
    inversion Ht; subst t. lia.
Defined.

(** X2.  Whatever the store answers, a response other than 200 comes with an
    untouched table. *)
Theorem failed_sweep_deletes_nothing (f : Faults) (now : Z) (tbl : Table) :
  status (POST f now tbl).1.1 ≠ 200 → (POST f now tbl).2 = tbl.
Proof.
  unfold POST, POST_after_fetch.
  destruct (fetch_error f); [done|]. simpl.
  destruct (length (spread_Set (select_ids now tbl)) =? 0)%nat; [done|].
  destruct (delete_error f); [done|]. simpl. intros Hs. by destruct Hs.
Qed.

Lemma failed_sweep_deletes_nothing_witness :
  (POST (mkFaults None (Some "timeout")) 100 sample_table).2 = sample_table.
Proof.
  apply failed_sweep_deletes_nothing. vm_compute. discriminate.
Defined.

Lemma fold_Set_add_NoDup_app (l acc : list string) :
  NoDup (acc ++ l) → fold_left Set_add l acc = acc ++ l.
Proof.
  revert acc. induction l as [|x l IH]; intros acc Hnd; simpl.
  - by rewrite app_nil_r.
  - assert (Hx : x ∉ acc).
    { apply NoDup_app in Hnd as (_ & Hdisj & _). intros Hin.
      apply (Hdisj x Hin). apply list_elem_of_here. }
    unfold Set_add. destruct (decide (x ∈ acc)); [done|].
    rewrite IH; rewrite <- app_assoc; done.
Qed.

Lemma spread_Set_NoDup_id (l : list string) : NoDup l → spread_Set l = l.
Proof. intros Hl. unfold spread_Set. by rewrite fold_Set_add_NoDup_app. Qed.

Lemma delete_in_select_ids (now : Z) (tbl : Table) :
  delete_in (select_ids now tbl) tbl
  = filter (λ kv, ¬ (selected now kv.2 = true)) tbl.
Proof.
  apply map_eq. intros i. rewrite delete_in_lookup.
  destruct (decide (i ∈ select_ids now tbl)) as [Hin|Hout].
  - symmetry. apply map_lookup_filter_None. right. intros m Hl Hn.
    apply select_ids_elem in Hin as (m' & Hl' & Hs). rewrite Hl in Hl'.
    inversion Hl'; subst m'. by apply Hn.
  - destruct (tbl !! i) as [m|] eqn:Hl.
    + symmetry. apply map_lookup_filter_Some. split; [done|]. simpl.
      intros Hs. apply Hout, select_ids_elem. by exists m.
    + symmetry. apply map_lookup_filter_None. by left.
Qed.

(** X3.  The [deleted] count of a successful sweep is the number of rows that
    left the table. *)
Theorem deleted_count_is_rows_removed (now : Z) (tbl : Table) :
  ∃ message,
    body (POST no_faults now tbl).1.1
    = DeletedBody message
        (Z.of_nat (size tbl) - Z.of_nat (size (POST no_faults now tbl).2)).
Proof.
  assert (Hids : spread_Set (select_ids now tbl) = select_ids now tbl).
  { apply spread_Set_NoDup_id. unfold select_ids. apply NoDup_fst_map_to_list. }
  assert (Hlen : length (select_ids now tbl)
                 = size (filter (λ kv : string * Message, selected now kv.2 = true) tbl)).
  { unfold select_ids. by rewrite length_fmap, length_map_to_list. }
  assert (Hsize : size tbl
                  = (size (filter (λ kv : string * Message, selected now kv.2 = true) tbl)
                     + size (filter (λ kv : string * Message,
                                       ¬ (selected now kv.2 = true)) tbl))%nat).
  { rewrite <- map_size_disj_union by apply map_disjoint_filter_complement.
    by rewrite map_filter_union_complement. }
  unfold POST, POST_after_fetch. simpl. rewrite Hids.
  destruct (length (select_ids now tbl) =? 0)%nat eqn:E; simpl.
  - eexists. f_equal. apply Nat.eqb_eq in E. lia.
  - eexists. f_equal. rewrite delete_in_select_ids. lia.
Qed.

End CleanupMore.

(** ** The clear-chat route *)

Module ClearFacts.
Import Clear.

Section WithLaws.
Context `{PlatformLaws}.

Lemma between_sym (u c : string) (m : Message) : between u c m = between c u m.
Proof. unfold between. apply orb_comm. Qed.

Lemma delete_between_lookup (u c : string) (tbl : Table) (i : string) :
  delete_between u c tbl !! i
  = match tbl !! i with
    | Some m => if between u c m then None else Some m
    | None => None
    end.
Proof.
  unfold delete_between. destruct (tbl !! i) as [m|] eqn:Hl.
  - destruct (between u c m) eqn:Hb.
    + apply map_lookup_filter_None. right. intros m' Hl' Hn.
      rewrite Hl in Hl'. inversion Hl'; subst m'. simpl in Hn. congruence.
    + by apply map_lookup_filter_Some.
  - apply map_lookup_filter_None. by left.
Qed.

Lemma POST_clear_request type_error (u c : string) (tbl : Table) :
  u ≠ "" → c ≠ "" →
  POST type_error None (clear_request u c) tbl
  = (mkResponse SuccessBody 200, delete_between u c tbl).
Proof.
  intros Hu Hc. unfold POST, clear_request, own_prop.
  rewrite lookup_insert_ne by done. rewrite !lookup_insert_eq.
  rewrite !CryptoFacts.truthy_JStr by done. simpl.
  unfold Crypto.to_str. by rewrite !ToString_JStr.
Qed.

(** X4.  Clearing the chat of two users whose ids are not empty and made of
    letters, digits, [-] and [_] only removes every message between them,
    in both directions and whatever its lifecycle fields, and no other row;
    it does the same whichever of the two asks, and a second clear finds
    nothing left to remove. *)
Theorem clear_removes_the_conversation type_error (u c : string) (tbl : Table) :
  u ≠ "" → c ≠ "" → plain_id u = true → plain_id c = true →
  let r := POST type_error None (clear_request u c) tbl in
  status r.1 = 200
  ∧ (∀ i, r.2 !! i = match tbl !! i with
                     | Some m =>
                         if bool_decide
                              ((sender_id m = u ∧ receiver_id m = c)
                               ∨ (sender_id m = c ∧ receiver_id m = u))
                         then None else Some m
                     | None => None
                     end)
  ∧ POST type_error None (clear_request c u) tbl = r
  ∧ POST type_error None (clear_request u c) r.2 = r.
Proof.
  intros Hu Hc _ _ r. unfold r. rewrite !POST_clear_request by done. simpl.
  split; [done|]. split; [|split].
  - intros i. rewrite delete_between_lookup. destruct (tbl !! i) as [m|]; [|done].
    unfold between.
    destruct (decide (sender_id m = u)), (decide (receiver_id m = c)),
      (decide (sender_id m = c)), (decide (receiver_id m = u));
      repeat (first [rewrite bool_decide_eq_true_2 by tauto
                    |rewrite bool_decide_eq_false_2 by tauto]); done.
  - f_equal. apply map_eq. intros i. rewrite !delete_between_lookup.
    destruct (tbl !! i) as [m|]; [|done]. by rewrite between_sym.
  - f_equal. apply map_eq. intros i. rewrite !delete_between_lookup.
    destruct (tbl !! i) as [m|]; [|done].
    destruct (between u c m) eqn:Hb; [done|]. by rewrite Hb.
Qed.

(** X5.  A clear request that does not answer 200 (a body that is not JSON, a
    missing or blank id, an error of the store) deletes nothing; a blank
    [userId] or [contactId] is answered with 400. *)
Theorem failed_clear_deletes_nothing type_error delete_error request (tbl : Table) :
  (status (POST type_error delete_error request tbl).1 ≠ 200 →
   (POST type_error delete_error request tbl).2 = tbl)
  ∧ ∀ u c, u = "" ∨ c = "" →
      POST type_error delete_error (clear_request u c) tbl
      = (mkResponse (ErrorBody "Missing parameters") 400, tbl).
Proof.
  split.
  - unfold POST. destruct request as [msg|parsed]; [done|].
    destruct parsed; try done;
      repeat match goal with
             | |- context [if ?b then _ else _] => destruct b
             | |- context [match delete_error with _ => _ end] =>
                 destruct delete_error
             end; simpl; try done; intros Hs; by destruct Hs.
  - intros u c Hblank. unfold POST, clear_request, own_prop.
    destruct (decide ("contactId" = "userId")) as [Heq|Hne]; [discriminate|].
    rewrite lookup_insert_ne by done. rewrite !lookup_insert_eq.
    destruct Hblank as [-> | ->]; simpl; [done|].
    by rewrite orb_true_r.
Qed.

End WithLaws.

End ClearFacts.

(** ** Tokens *)

Module TokenFacts.
Import Token.

Lemma byte_hex_digits (b : Byte.byte) :
  ∃ hi lo h l, byte_hex b = String hi (String lo "")
               ∧ hex_value hi = Some h ∧ hex_value lo = Some l
               ∧ Byte.of_N (16 * h + l) = Some b.
Proof. destruct b; eexists _, _, _, _; repeat split; reflexivity. Qed.

Lemma byte_hex_decode (b : Byte.byte) (rest : string) :
  hex_decode (byte_hex b +:+ rest)
  = match hex_decode rest with Some bs => Some (b :: bs) | None => None end.
Proof.
  destruct (byte_hex_digits b) as (hi & lo & h & l & -> & Hh & Hl & Hb).
  simpl. rewrite Hh, Hl. change ("" +:+ rest) with rest.
  destruct (hex_decode rest); [|done]. by rewrite Hb.
Qed.

Lemma byte_hex_shape (b : Byte.byte) :
  ∃ hi lo, byte_hex b = String hi (String lo "")
           ∧ is_hex hi = true ∧ is_hex lo = true.
Proof. destruct b; by eexists _, _. Qed.

Lemma join_map_decode (bytes : list Byte.byte) :
  hex_decode (join_map byte_hex bytes) = Some bytes.
Proof.
  induction bytes as [|b bytes IH]; simpl; [done|].
  by rewrite byte_hex_decode, IH.
Qed.

Lemma join_map_length (bytes : list Byte.byte) :
  String.length (join_map byte_hex bytes) = (2 * length bytes)%nat.
Proof.
  induction bytes as [|b bytes IH]; simpl; [done|].
  destruct (byte_hex_shape b) as (hi & lo & -> & _). simpl.
  change ("" +:+ join_map byte_hex bytes) with (join_map byte_hex bytes).
  rewrite IH. lia.
Qed.

Lemma join_map_hex (bytes : list Byte.byte) :
  Forall (λ c, is_hex c = true) (list_ascii_of_string (join_map byte_hex bytes)).
Proof.
  induction bytes as [|b bytes IH]; simpl; [constructor|].
  destruct (byte_hex_shape b) as (hi & lo & -> & Hhi & Hlo). simpl.
  change ("" +:+ join_map byte_hex bytes) with (join_map byte_hex bytes).
  by repeat constructor.
Qed.

Section WithLaws.
Context `{PlatformLaws}.

(** X6.  For [n] up to 65536, [generateSecureToken n] returns [2 n]
    lower-case hexadecimal digits, two per random byte, from which the
    bytes drawn can be read back: no entropy is lost in the encoding.  For
    a larger [n] it throws, without drawing any entropy. *)
Theorem token_is_hex_of_the_entropy (n : nat) (w : World) :
  (Z.of_nat n ≤ 65536 →
   ∃ token,
     (generateSecureToken n w).1 = Ok token
     ∧ String.length token = (2 * n)%nat
     ∧ Forall (λ c, is_hex c = true) (list_ascii_of_string token)
     ∧ hex_decode token = Some (random_values (tick w) n))
  ∧ (65536 < Z.of_nat n → ∃ e, generateSecureToken n w = (Throw e, w)).
Proof.
  unfold generateSecureToken. split.
  - intros Hn. destruct (Z.ltb_spec 65536 (Z.of_nat n)) as [?|_]; [lia|].
    eexists. split; [reflexivity|]. simpl. split; [|split].
    + by rewrite join_map_length, random_values_length.
    + apply join_map_hex.
    + apply join_map_decode.
  - intros Hn. destruct (Z.ltb_spec 65536 (Z.of_nat n)) as [_|?]; [|lia].
    by eexists.
Qed.

End WithLaws.

End TokenFacts.

(** ** Round trips of the building blocks *)

Module RoundTrips.
Import Crypto CryptoFacts.

Section WithLaws.
Context `{PlatformLaws}.

(** X7.  What [encryptWithAES] returns, [decryptWithAES] turns back, under
    the same key, into the text as [TextDecoder] reads the bytes
    [TextEncoder] wrote for it: the text itself when the text codec
    carries it unchanged.  Content that is not base64 makes
    [decryptWithAES] throw, after logging, rather than return a value. *)
Theorem aes_text_roundtrip (text : string) (key : AESKey) (w : World) :
  let reread := TextDecoder_decode (TextEncoder_encode text) in
  (∃ content iv w1,
     encryptWithAES text key w = (Ok (content, iv), w1)
     ∧ (∀ w2, (decryptWithAES content iv key w2).1 = Ok reread)
     ∧ (reread = text → ∀ w2, (decryptWithAES content iv key w2).1 = Ok text))
  ∧ ∀ bad iv w2, atob bad = None →
      decryptWithAES bad iv key w2
      = (Throw "InvalidCharacterError",
         logged w2 [ConsoleError "AES Decryption failed:"]).
Proof.
  intros reread. split.
  - eexists _, _, _. split; [apply encryptWithAES_run|]. split.
    + intros w2. by rewrite decryptWithAES_run.
    + intros Hutf w2. rewrite decryptWithAES_run. simpl. f_equal. exact Hutf.
  - intros bad iv w2 Hbad.
    unfold decryptWithAES, try_catch, bind, base64ToBuffer, bind. by rewrite Hbad.
Qed.

(** X8.  A raw AES key wrapped for a user is unwrapped to the same key by that
    user's private key. *)
Theorem key_wrap_roundtrip (k : AESKey) pk sk (c : list Byte.byte) (w : World) :
  KeyPair pk sk → rsa_oaep_encrypt pk (aes_export_raw k) = Some c →
  ∃ wrapped w1,
    encryptAESKeyForUser k pk w = (Ok wrapped, w1)
    ∧ ∀ w2, (decryptAESKeyWithUserPrivateKey wrapped sk w2).1 = Ok k.
Proof.
  intros HK Hc. eexists _, _. split; [by apply encryptAESKeyForUser_run|].
  intros w2. by rewrite (decryptAESKeyWithUserPrivateKey_run k pk sk w2 c).
Qed.

(** X9.  [encryptBlob] gives an opaque [application/octet-stream] blob and a
    nonce from which [decryptToBlob] restores the bytes; the type of the
    restored blob is the one the caller of [decryptToBlob] names, not the
    original one. *)
Theorem blob_roundtrip (blob : Blob) (key : AESKey) (mimeType : string) (w : World) :
  ∃ encryptedBlob iv w1,
    encryptBlob blob key w = (Ok (encryptedBlob, iv), w1)
    ∧ blob_type encryptedBlob = "application/octet-stream"
    ∧ ∀ w2, (decryptToBlob (blob_bytes encryptedBlob) iv key mimeType w2).1
            = Ok (mkBlob (blob_bytes blob) mimeType).
Proof.
  eexists _, _, _. split.
  { unfold encryptBlob, bind, getRandomValues, bind, emit, draw, ret. simpl.
    reflexivity. }
  split; [reflexivity|].
  intros w2. simpl. unfold decryptToBlob, try_catch, bind.
  rewrite base64ToBuffer_bufferToBase64. simpl. by rewrite aes_gcm_correct.
Qed.

(** X10.  When the hybrid path fails because RSA-OAEP cannot wrap the AES key,
    [encryptMessage] falls back to a bare base64 RSA-OAEP ciphertext of the
    message.  With the private key that decrypts it (the ciphertext being
    longer than three bytes, as any RSA-OAEP ciphertext is),
    [decryptMessage] reads it back through its legacy path, by one RSA-OAEP
    decryption and nothing else, as the text [TextDecoder] reads from the
    bytes [TextEncoder] wrote: the message itself when the text codec
    carries it unchanged.  If RSA-OAEP cannot encrypt the message either,
    [encryptMessage] throws. *)
Theorem encrypt_falls_back_to_rsa (message : string) pk sk (w : World) :
  rsa_oaep_encrypt pk (aes_export_raw (aes_generate (tick w))) = None →
  let reread := TextDecoder_decode (TextEncoder_encode message) in
  (∀ c, rsa_oaep_encrypt pk (TextEncoder_encode message) = Some c →
        (encryptMessage message pk w).1 = Ok (bufferToBase64 c)
        ∧ (rsa_oaep_decrypt sk c = Some (TextEncoder_encode message) →
           (3 < length c)%nat →
           ∀ w2, decryptMessage (bufferToBase64 c) sk w2
                 = (Ok reread, logged w2 [SubtleDecrypt "RSA-OAEP"])
                 ∧ (reread = message →
                    (decryptMessage (bufferToBase64 c) sk w2).1 = Ok message)))
  ∧ (rsa_oaep_encrypt pk (TextEncoder_encode message) = None →
     (encryptMessage message pk w).1 = Throw "OperationError").
Proof.
  intros Hwrap reread.
  assert (E : (encryptMessage message pk w).1
              = match rsa_oaep_encrypt pk (TextEncoder_encode message) with
                | Some c => Ok (bufferToBase64 c)
                | None => Throw "OperationError"
                end).
  { unfold encryptMessage, try_catch. unfold bind at 1.
    rewrite generateAESKey_run. unfold bind at 1. rewrite encryptWithAES_run.
    unfold bind at 1. unfold encryptAESKeyForUser, bind, emit. simpl.
    rewrite Hwrap. simpl.
    by destruct (rsa_oaep_encrypt pk (TextEncoder_encode message)). }
  split.
  - intros c Hc. rewrite E, Hc. split; [done|].
    intros Hdec Hlen w2.
    rewrite (legacy_ciphertext_decrypts sk c (TextEncoder_encode message) w2)
      by done.
    split; [done|]. intros Hutf. simpl. f_equal. exact Hutf.
  - intros Hnone. by rewrite E, Hnone.
Qed.

End WithLaws.

End RoundTrips.

(** ** What is sent can be read: both parties decrypt the stored envelope *)

Module Model2Facts.
Import Model Model2.

#[export] Instance laws2 : PlatformLaws (H:=Model2.platform).
Proof.
  split; simpl.
  - done.
  - done.
  - intros s j Hj. discriminate Hj.
  - intros s Hj. discriminate Hj.
  - intros content iv key.
    unfold Model2.stringify, Crypto.hybrid_packet. simplify_map_eq.
    unfold Model.stringify. simplify_map_eq. simpl.
    by rewrite !ModelFacts.dec_str_enc_str.
  - done.
  - done.
  - done.
  - done.
  - intros t n. apply repeat_length.
Qed.

Lemma keypair2 (k : Byte.byte) :
  k ≠ Byte.x00 → KeyPair (H:=Model2.platform) k k.
Proof.
  intros Hk.
  assert (E : ∀ m, Model2.rsa_encrypt k m = Some (k :: k :: k :: k :: m)).
  { intros m. unfold Model2.rsa_encrypt.
    destruct (Byte.eqb k Byte.x00) eqn:Hb; [|done].
    apply Byte.byte_dec_bl in Hb. done. }
  split; simpl.
  - intros m c Hc. rewrite E in Hc. inversion Hc; subst c. simpl.
    by rewrite !ModelFacts.byte_eqb_refl.
  - intros t. rewrite E. by eexists.
  - intros m c Hc. rewrite E in Hc. inversion Hc; subst c. simpl. lia.
Qed.

End Model2Facts.

Module ConversationFacts.
Import Crypto Chat Observations CryptoFacts EnvelopeFacts.

Section WithLaws.
Context `{PlatformLaws}.

Lemma random_values_nonempty (t : nat) : random_values t 12 ≠ [].
Proof.
  intros Hnil. pose proof (random_values_length t 12) as Hl.
  rewrite Hnil in Hl. discriminate.
Qed.

(** The common prefix of a successful decryption: parse, shape test, key
    lookup and unwrapping. *)
Lemma decryptMessageContent_unwrap me sk pk (msg : Message) raw
    (fields keys : gmap string json) (iv ct c : list Byte.byte) (k : AESKey)
    (w : World) :
  encrypted_content msg = Some raw → raw ≠ "" →
  JSON_parse raw = Some (JObj fields) →
  fields !! "iv" = Some (JStr (bufferToBase64 iv)) → iv ≠ [] →
  fields !! "content" = Some (JStr (bufferToBase64 ct)) → ct ≠ [] →
  fields !! "keys" = Some (JObj keys) →
  keys !! me = Some (JStr (bufferToBase64 c)) →
  KeyPair pk sk → rsa_oaep_encrypt pk (aes_export_raw k) = Some c →
  is_image_or_snapshot (media_type msg) = false →
  decryptMessageContent me (Some sk) msg w
  = try_catch
      (let! decrypted :=
         decryptWithAES (bufferToBase64 ct) (bufferToBase64 iv) k in
       ret (if bool_decide (decrypted = "") then "[Empty Signal]" else decrypted))
      (λ _, ret "[Secure Signal]")
      (logged w [SubtleDecrypt "RSA-OAEP"; SubtleImportKey "raw"]).
Proof.
  intros Hraw Hne Hj Hiv Hivne Hct Hctne Hkeys Hme HK Hc Hmedia.
  unfold decryptMessageContent, try_catch.
  rewrite Hraw, (bool_decide_eq_false_2 _ Hne), Hj.
  unfold bind at 1. unfold get_prop at 1. unfold ret at 1. rewrite Hiv.
  unfold bind at 1. unfold get_prop at 1. unfold ret at 1. rewrite Hct.
  unfold bind at 1. unfold get_prop at 1. unfold ret at 1. rewrite Hkeys.
  rewrite !truthy_JStr by (by apply bufferToBase64_nonempty). simpl.
  unfold bind at 1. unfold ret at 1. rewrite Hme.
  assert (Hcne : c ≠ []).
  { intros ->. pose proof (rsa_oaep_ciphertext_long _ _ HK _ _ Hc) as Hl.
    simpl in Hl. lia. }
  rewrite truthy_JStr by (by apply bufferToBase64_nonempty). simpl.
  unfold bind at 1. unfold to_str at 1. rewrite ToString_JStr.
  rewrite (decryptAESKeyWithUserPrivateKey_run k pk sk w c HK Hc).
  rewrite Hmedia. unfold to_str. by rewrite !ToString_JStr.
Qed.

Lemma decryptMessageContent_text me sk pk (msg : Message) raw
    (fields keys : gmap string json) (iv c : list Byte.byte) (k : AESKey)
    (text : string) (w : World) :
  encrypted_content msg = Some raw → raw ≠ "" →
  JSON_parse raw = Some (JObj fields) →
  fields !! "iv" = Some (JStr (bufferToBase64 iv)) → iv ≠ [] →
  fields !! "content"
  = Some (JStr (bufferToBase64 (aes_gcm_encrypt k iv (TextEncoder_encode text)))) →
  fields !! "keys" = Some (JObj keys) →
  keys !! me = Some (JStr (bufferToBase64 c)) →
  KeyPair pk sk → rsa_oaep_encrypt pk (aes_export_raw k) = Some c →
  is_image_or_snapshot (media_type msg) = false →
  (decryptMessageContent me (Some sk) msg w).1
  = Ok (if bool_decide (TextDecoder_decode (TextEncoder_encode text) = "")
        then "[Empty Signal]"
        else TextDecoder_decode (TextEncoder_encode text)).
Proof.
  intros Hraw Hne Hj Hiv Hivne Hct Hkeys Hme HK Hc Hmedia.
  rewrite (decryptMessageContent_unwrap me sk pk msg raw fields keys iv
             (aes_gcm_encrypt k iv (TextEncoder_encode text)) c k w);
    try done; [|apply aes_gcm_ciphertext_nonempty].
  unfold try_catch, bind. by rewrite decryptWithAES_run.
Qed.

Lemma decryptMessageContent_media me sk pk (msg : Message) raw
    (fields keys : gmap string json) (iv miv ct c bytes : list Byte.byte)
    (k : AESKey) (url : string) (w : World) :
  encrypted_content msg = Some raw → raw ≠ "" →
  JSON_parse raw = Some (JObj fields) →
  fields !! "iv" = Some (JStr (bufferToBase64 iv)) → iv ≠ [] →
  fields !! "content" = Some (JStr (bufferToBase64 ct)) → ct ≠ [] →
  fields !! "media_iv" = Some (JStr (bufferToBase64 miv)) → miv ≠ [] →
  fields !! "keys" = Some (JObj keys) →
  keys !! me = Some (JStr (bufferToBase64 c)) →
  KeyPair pk sk → rsa_oaep_encrypt pk (aes_export_raw k) = Some c →
  is_image_or_snapshot (media_type msg) = true →
  media_url msg = Some url → url ≠ "" →
  http_get url = Some (aes_gcm_encrypt k miv bytes) →
  (decryptMessageContent me (Some sk) msg w).1
  = Ok (object_url (tick w)
          (mkBlob bytes (if bool_decide (media_type msg = "snapshot")
                         then "image/jpeg" else "image/*"))).
Proof.
  intros Hraw Hne Hj Hiv Hivne Hct Hctne Hmiv Hmivne Hkeys Hme HK Hc Hmedia
    Hurl Hurlne Hget.
  unfold decryptMessageContent, try_catch.
  rewrite Hraw, (bool_decide_eq_false_2 _ Hne), Hj.
  unfold bind at 1. unfold get_prop at 1. unfold ret at 1. rewrite Hiv.
  unfold bind at 1. unfold get_prop at 1. unfold ret at 1. rewrite Hct.
  unfold bind at 1. unfold get_prop at 1. unfold ret at 1. rewrite Hkeys.
  rewrite !truthy_JStr by (by apply bufferToBase64_nonempty). simpl.
  unfold bind at 1. unfold ret at 1. rewrite Hme.
  assert (Hcne : c ≠ []).
  { intros ->. pose proof (rsa_oaep_ciphertext_long _ _ HK _ _ Hc) as Hl.
    simpl in Hl. lia. }
  rewrite truthy_JStr by (by apply bufferToBase64_nonempty). simpl.
  unfold bind at 1. unfold to_str at 1. rewrite ToString_JStr.
  rewrite (decryptAESKeyWithUserPrivateKey_run k pk sk w c HK Hc).
  rewrite Hmedia, Hurl, (bool_decide_eq_false_2 _ Hurlne).
  rewrite Hget.
  unfold bind, emit, lift, get_prop, ret. cbn [fst snd]. rewrite Hmiv.
  rewrite truthy_JStr by (by apply bufferToBase64_nonempty).
  unfold to_str. rewrite ToString_JStr.
  unfold decryptToBlob, try_catch, bind.
  rewrite base64ToBuffer_bufferToBase64. cbn [fst snd].
  unfold lift. rewrite aes_gcm_correct. unfold emit, ret, draw. by cbn.
Qed.

Lemma envelope_with_media me contact iv content mediaIv kme kp :
  ∃ fields,
    envelope me contact iv content (Some mediaIv) kme kp = JObj fields
    ∧ fields !! "iv" = Some (JStr iv)
    ∧ fields !! "content" = Some (JStr content)
    ∧ fields !! "media_iv" = Some (JStr mediaIv)
    ∧ fields !! "keys" = Some (JObj (keys_object me contact kme kp)).
Proof. eexists. split; [reflexivity|]. repeat split; by simplify_map_eq. Qed.

Section Send.
Variables (me contact : string) (profiles : gmap string string)
          (upload_error : option string)
          (getPublicUrl : string → string) (inserted_id : string).

(** X11.  A message without attachment that [sendMessage] stores, of a media
    type other than [image] and [snapshot], is decrypted by the receiver
    with their private key, and by a sender other than the receiver with
    theirs, to the text that was typed as [TextDecoder] reads the bytes
    [TextEncoder] wrote for it (the typed text itself when the text codec
    carries it unchanged), or to "[Empty Signal]" when that reading is
    empty.  This holds whether the sender's public key was at hand or had
    to be imported from the profile, provided [JSON.parse] gives back the
    envelope handed to [JSON.stringify]. *)
Theorem sent_text_is_read_by_both newMessage mode mediaType myPublicKey
    ppem pder partnerKey partnerSk myKey mySk (cp cme : list Byte.byte)
    (w : World) :
  let text := String_trim newMessage in
  let k := aes_generate (tick w) in
  let iv := random_values (S (tick w)) 12 in
  let content := bufferToBase64 (aes_gcm_encrypt k iv (TextEncoder_encode text)) in
  let env := envelope me contact (bufferToBase64 iv) content None
               (bufferToBase64 cme) (bufferToBase64 cp) in
  let reread := TextDecoder_decode (TextEncoder_encode text) in
  let shown := if bool_decide (reread = "") then "[Empty Signal]" else reread in
  text ≠ "" →
  profiles !! contact = Some ppem → ppem ≠ "" →
  atob ppem = Some pder →
  spki_import (list_byte_of_string pder) = Some partnerKey →
  own_key profiles me myPublicKey myKey →
  KeyPair partnerKey partnerSk → KeyPair myKey mySk →
  rsa_oaep_encrypt partnerKey (aes_export_raw k) = Some cp →
  rsa_oaep_encrypt myKey (aes_export_raw k) = Some cme →
  is_image_or_snapshot mediaType = false →
  JSON_stringify env ≠ "" → JSON_parse (JSON_stringify env) = Some env →
  ∃ m,
    db (sendMessage me contact profiles false upload_error getPublicUrl
          inserted_id newMessage mode myPublicKey mediaType None w).2
    !! inserted_id = Some m
    ∧ (∀ w2, (decryptMessageContent contact (Some partnerSk) m w2).1 = Ok shown)
    ∧ (me ≠ contact →
       ∀ w2, (decryptMessageContent me (Some mySk) m w2).1 = Ok shown)
    ∧ (reread = text → shown = text).
Proof.
  intros text k iv content env reread shown Htext Hp Hpne Hder Hkey Hown
    HKp HKm Hcp Hcme Hmedia Hne Hjson.
  rewrite (sendMessage_text_run_any me contact profiles upload_error getPublicUrl
             inserted_id newMessage mode myPublicKey myKey mediaType ppem pder
             partnerKey cp cme w) by done.
  fold text k iv content env.
  eexists. split; [apply lookup_insert_eq|].
  destruct (envelope_fields me contact getPublicUrl (bufferToBase64 iv) content
              None (bufferToBase64 cme) (bufferToBase64 cp))
    as (fields & Henv & _ & _ & Hiv & Hct & Hkeys).
  destruct (keys_object_entries me contact getPublicUrl (bufferToBase64 cme)
              (bufferToBase64 cp))
    as (_ & Hkc & Hkme).
  fold env in Henv.
  assert (Hj : JSON_parse (JSON_stringify env) = Some (JObj fields))
    by (by rewrite Hjson, Henv).
  pose proof (random_values_nonempty (S (tick w))) as Hivne.
  split; [|split].
  - intros w2.
    by apply (decryptMessageContent_text contact partnerSk partnerKey _
                (JSON_stringify env) fields
                (keys_object me contact (bufferToBase64 cme) (bufferToBase64 cp))
                iv cp k text w2).
  - intros Hneq w2. specialize (Hkme Hneq).
    by apply (decryptMessageContent_text me mySk myKey _
                (JSON_stringify env) fields
                (keys_object me contact (bufferToBase64 cme) (bufferToBase64 cp))
                iv cme k text w2).
  - intros Hutf. unfold shown. rewrite Hutf.
    by rewrite (bool_decide_eq_false_2 _ Htext).
Qed.

(** X12.  An attachment that [sendMessage] stores is shown to the receiver
    as a picture, a blob of the original bytes, when its media type is
    [image] or [snapshot] and the store serves what was uploaded; the
    blob's type is then [image/jpeg] for a snapshot and [image/*]
    otherwise, whatever the type of the original.  For any other media
    type (the file input passes [video]) the receiver sees the
    accompanying text only, as [TextDecoder] reads the bytes [TextEncoder]
    wrote for it, a single space standing in for no text, and
    "[Empty Signal]" for an empty reading.  This holds whether the
    sender's public key was at hand or had to be imported from the
    profile, provided [JSON.parse] gives back the envelope handed to
    [JSON.stringify]. *)
Theorem sent_attachment_as_received newMessage mode mediaType myPublicKey blob
    ppem pder partnerKey partnerSk myKey (cp cme : list Byte.byte) (w : World) :
  let text := String_trim newMessage in
  let contentToEncrypt := if bool_decide (text = "") then " " else text in
  let k := aes_generate (tick w) in
  let media_iv := random_values (S (tick w)) 12 in
  let iv := random_values (S (S (tick w))) 12 in
  let content :=
    bufferToBase64 (aes_gcm_encrypt k iv (TextEncoder_encode contentToEncrypt)) in
  let env := envelope me contact (bufferToBase64 iv) content
               (Some (bufferToBase64 media_iv))
               (bufferToBase64 cme) (bufferToBase64 cp) in
  let path := "chat/" +:+ me +:+ "/" +:+
              (mediaType +:+ "-" +:+ ToString (JNum (clock w)) +:+ ".enc") in
  let reread := TextDecoder_decode (TextEncoder_encode contentToEncrypt) in
  upload_error = None →
  profiles !! contact = Some ppem → ppem ≠ "" →
  atob ppem = Some pder →
  spki_import (list_byte_of_string pder) = Some partnerKey →
  own_key profiles me myPublicKey myKey →
  KeyPair partnerKey partnerSk →
  rsa_oaep_encrypt partnerKey (aes_export_raw k) = Some cp →
  rsa_oaep_encrypt myKey (aes_export_raw k) = Some cme →
  (is_image_or_snapshot mediaType = true →
   getPublicUrl path ≠ ""
   ∧ http_get (getPublicUrl path)
     = Some (aes_gcm_encrypt k media_iv (blob_bytes blob))) →
  JSON_stringify env ≠ "" → JSON_parse (JSON_stringify env) = Some env →
  ∃ m,
    db (sendMessage me contact profiles false upload_error getPublicUrl
          inserted_id newMessage mode myPublicKey mediaType (Some blob) w).2
    !! inserted_id = Some m
    ∧ ∀ w2,
        (decryptMessageContent contact (Some partnerSk) m w2).1
        = Ok (if is_image_or_snapshot mediaType
              then object_url (tick w2)
                     (mkBlob (blob_bytes blob)
                        (if bool_decide (mediaType = "snapshot")
                         then "image/jpeg" else "image/*"))
              else if bool_decide (reread = "") then "[Empty Signal]"
                   else reread).
Proof.
  intros text contentToEncrypt k media_iv iv content env path reread Hup Hp
    Hpne Hder Hkey Hown HKp Hcp Hcme Hpic Hne Hjson.
  rewrite (sendMessage_media_run_any me contact profiles upload_error
             getPublicUrl inserted_id newMessage mode myPublicKey myKey
             mediaType blob ppem pder partnerKey cp cme w) by done.
  fold text contentToEncrypt k media_iv iv content env path.
  eexists. split; [apply lookup_insert_eq|].
  destruct (envelope_with_media me contact (bufferToBase64 iv) content
              (bufferToBase64 media_iv) (bufferToBase64 cme) (bufferToBase64 cp))
    as (fields & Henv & Hiv & Hct & Hmiv & Hkeys).
  destruct (keys_object_entries me contact getPublicUrl (bufferToBase64 cme)
              (bufferToBase64 cp))
    as (_ & Hkc & _).
  fold env in Henv.
  assert (Hj : JSON_parse (JSON_stringify env) = Some (JObj fields))
    by (by rewrite Hjson, Henv).
  intros w2.
  destruct (is_image_or_snapshot mediaType) eqn:Hmedia.
  - destruct (Hpic eq_refl) as [Hurl Hget].
    apply (decryptMessageContent_media contact partnerSk partnerKey
             (messageData me contact mode (clock w) (JSON_stringify env)
                mediaType (Some (getPublicUrl path)))
             (JSON_stringify env) fields
             (keys_object me contact (bufferToBase64 cme) (bufferToBase64 cp))
             iv media_iv
             (aes_gcm_encrypt k iv (TextEncoder_encode contentToEncrypt))
             cp (blob_bytes blob) k (getPublicUrl path) w2);
      try done; try apply random_values_nonempty.
    apply aes_gcm_ciphertext_nonempty.
  - apply (decryptMessageContent_text contact partnerSk partnerKey _
             (JSON_stringify env) fields
             (keys_object me contact (bufferToBase64 cme) (bufferToBase64 cp))
             iv cp k contentToEncrypt w2);
      try done; try apply random_values_nonempty.
Qed.

End Send.

End WithLaws.

End ConversationFacts.

(** ** Sending: guards and failures *)

Module SendGuards.
Import Crypto Chat Observations ViewFacts.

#[local] Existing Instance same_store_preorder.

Ltac keep_store :=
  repeat first
    [ apply (preserves_ret same_store)
    | apply (preserves_throw same_store)
    | apply (preserves_lift same_store)
    | apply (preserves_Date_now same_store)
    | apply (preserves_get_db same_store)
    | apply (preserves_importPublicKey same_store same_store_emit)
    | apply (preserves_generateAESKey same_store same_store_draw same_store_emit)
    | apply (preserves_encryptBlob same_store same_store_draw same_store_emit)
    | apply (preserves_encryptWithAES same_store same_store_draw same_store_emit)
    | apply (preserves_encryptAESKeyForUser same_store same_store_emit)
    | apply (preserves_draw same_store same_store_draw)
    | apply (preserves_emit same_store same_store_emit); simpl; tauto
    | apply (preserves_bind same_store); [|intros ?]
    | apply (preserves_try_catch same_store); [|intros ?]
    | assumption
    | case_match ].

Section Send.
Context `{Platform}.
Variables (me contact : string) (profiles : gmap string string)
          (insert_error : bool) (upload_error : option string)
          (getPublicUrl : string → string) (inserted_id : string).

Lemma preserves_bind_throws {A B} (m : Eff A) (k : A → Eff B) :
  preserves same_store m → (∀ w, ∃ e, (m w).1 = Throw e) →
  preserves same_store (bind m k).
Proof.
  intros Hm Ht w. unfold bind. specialize (Hm w). destruct (Ht w) as [e He].
  destruct (m w) as [[a|e'] w1]; simpl in *; [discriminate|done].
Qed.

Lemma sendMessage_never_throws newMessage mode myPublicKey mediaType mediaBlob
    (w : World) :
  (sendMessage me contact profiles insert_error upload_error getPublicUrl
     inserted_id newMessage mode myPublicKey mediaType mediaBlob w).1 = Ok tt.
Proof.
  unfold sendMessage. case_match; [done|].
  unfold try_catch. destruct (_ w) as [[[]|e] w1]; reflexivity.
Qed.

Lemma failed_insert_keeps_store newMessage mode myPublicKey mediaType mediaBlob :
  insert_error = true →
  preserves same_store
    (sendMessage me contact profiles insert_error upload_error getPublicUrl
       inserted_id newMessage mode myPublicKey mediaType mediaBlob).
Proof.
  intros ->.
  apply (preserves_sendMessage same_store same_store_draw same_store_emit).
  intros packet mediaUrl k Hk w.
  unfold bind, Date_now, db_insert, bind, emit, ret. simpl.
  etransitivity; [|apply Hk]. by split.
Qed.

Lemma failed_upload_keeps_store newMessage mode myPublicKey mediaType blob e :
  upload_error = Some e →
  preserves same_store
    (sendMessage me contact profiles insert_error upload_error getPublicUrl
       inserted_id newMessage mode myPublicKey mediaType (Some blob)).
Proof.
  intros ->. unfold sendMessage. rewrite andb_false_r.
  apply (preserves_try_catch same_store); [|intros ?; keep_store].
  case_match; [|keep_store]. case_match; [keep_store|].
  apply (preserves_bind same_store); [keep_store|intros [pk|]; [|keep_store]].
  apply (preserves_bind same_store); [keep_store|intros aesKey].
  apply preserves_bind_throws; [keep_store|].
  intros w. exists e. reflexivity.
Qed.

(** X13.  [sendMessage] never throws.  When the store rejects the insert, or an
    attachment cannot be uploaded, the messages table is left as it was. *)
Theorem failed_send_stores_nothing newMessage mode myPublicKey mediaType
    mediaBlob (w : World) :
  let w' := (sendMessage me contact profiles insert_error upload_error
               getPublicUrl inserted_id newMessage mode myPublicKey mediaType
               mediaBlob w).2 in
  (sendMessage me contact profiles insert_error upload_error getPublicUrl
     inserted_id newMessage mode myPublicKey mediaType mediaBlob w).1 = Ok tt
  ∧ (insert_error = true → db w' = db w)
  ∧ (is_Some mediaBlob → is_Some upload_error → db w' = db w).
Proof.
  intros w'. split; [apply sendMessage_never_throws|]. split.
  - intros Hins.
    apply (failed_insert_keeps_store newMessage mode myPublicKey mediaType
             mediaBlob Hins w).
  - intros [blob ->] [e He].
    apply (failed_upload_keeps_store newMessage mode myPublicKey mediaType
             blob e He w).
Qed.

(** X14.  The guards of [sendMessage], in the order the code tests them: with a
    blank input and no attachment nothing happens at all; without a public
    key on the partner's profile the send ends, once that profile was read,
    with a toast; and so it does, once both profiles were read, when the
    user's own key is neither loaded nor on their profile.  In none of
    these cases is a key generated or imported, anything encrypted or
    uploaded, or a row of [messages] written: the reads of [profiles],
    which the model has as lookups in the answers, are all the store is
    asked. *)
Theorem send_guards newMessage mode myPublicKey mediaType mediaBlob (w : World) :
  let send := sendMessage me contact profiles insert_error upload_error
                getPublicUrl inserted_id newMessage mode myPublicKey mediaType
                mediaBlob in
  let absent (key : option string) := key = None ∨ key = Some "" in
  (String_trim newMessage = "" → mediaBlob = None → send w = (Ok tt, w))
  ∧ (String_trim newMessage ≠ "" ∨ is_Some mediaBlob →
     (absent (profiles !! contact) →
      send w = (Ok tt, logged w [ToastError
                  "Partner node not synchronized. Encryption impossible."]))
     ∧ (¬ absent (profiles !! contact) → myPublicKey = None →
        absent (profiles !! me) →
        send w = (Ok tt, logged w [ToastError
                    "Your encryption keys are not ready."]))).
Proof.
  intros send absent. split.
  - intros Hblank ->. unfold send, sendMessage.
    by rewrite (bool_decide_eq_true_2 _ Hblank).
  - intros Hgo.
    assert (Hcond : bool_decide (String_trim newMessage = "")
                    && match mediaBlob with None => true | Some _ => false end
                    = false).
    { destruct Hgo as [Hne|[blob ->]]; [|apply andb_false_r].
      by rewrite (bool_decide_eq_false_2 _ Hne). }
    split.
    + intros Habs. unfold send, sendMessage. rewrite Hcond.
      destruct Habs as [->| ->]; reflexivity.
    + intros Hpartner -> Habs. unfold send, sendMessage. rewrite Hcond.
      destruct (profiles !! contact) as [pk|] eqn:Hpk;
        [|exfalso; apply Hpartner; by left].
      rewrite bool_decide_eq_false_2
        by (intros ->; apply Hpartner; by right).
      destruct Habs as [->| ->]; reflexivity.
Qed.

End Send.

End SendGuards.

(** ** AES keys as text *)

Module KeysFacts.
Import Crypto Keys CryptoFacts.

Section WithLaws.
Context `{PlatformLaws}.

(** X15.  [importAESKey] gives back the key that [exportKey] wrote out.  Text
    that is not base64 makes [importAESKey] throw before any key import is
    attempted, and bytes that are no raw AES key make it throw after. *)
Theorem aes_key_text_roundtrip (key : AESKey) (w : World) :
  (∃ text w1, exportKey key w = (Ok text, w1)
     ∧ ∀ w2, importAESKey text w2 = (Ok key, logged w2 [SubtleImportKey "raw"]))
  ∧ (∀ bad w2, atob bad = None →
       importAESKey bad w2 = (Throw "InvalidCharacterError", w2))
  ∧ (∀ s raw w2, atob s = Some raw →
       aes_import_raw (list_byte_of_string raw) = None →
       importAESKey s w2 = (Throw "DataError", logged w2 [SubtleImportKey "raw"])).
Proof.
  split; [|split].
  - eexists _, _. split; [reflexivity|]. intros w2.
    unfold importAESKey. unfold bind at 1.
    rewrite base64ToBuffer_bufferToBase64.
    unfold bind, emit. simpl. by rewrite aes_raw_roundtrip.
  - intros bad w2 Hbad. unfold importAESKey, bind, base64ToBuffer, bind.
    by rewrite Hbad.
  - intros s raw w2 Hs Hraw. unfold importAESKey, bind, base64ToBuffer, bind.
    rewrite Hs. simpl. by rewrite Hraw.
Qed.

End WithLaws.

End KeysFacts.

(** ** Fetching: what it touches, and fetching again *)

Module FetchFacts.
Import Chat Observations ViewFacts.

Section Fetch.
Context `{Platform}.
Variables (me contact : string) (privateKey : option PrivateKey).

Lemma to_update_inv (w : World) (i : string) (m : Message) :
  (i, m) ∈ to_update me contact w →
  db w !! i = Some m ∧ in_conversation me contact m && unviewed me m = true.
Proof.
  intros Hin. apply list_elem_of_In, filter_In in Hin as [Hin Hu].
  apply list_elem_of_In, elem_of_map_to_list, map_lookup_filter_Some in Hin
    as [Hi Hc].
  simpl in *. split; [done|]. by rewrite Hc, Hu.
Qed.

Lemma fetchMessages_lookup (w : World) (i : string) :
  dates_in_range me contact w →
  db (fetchMessages me contact privateKey false w).2 !! i
  = (λ m, if in_conversation me contact m && unviewed me m
          then apply_patch (view_patch (clock w) m) m else m)
    <$> db w !! i.
Proof.
  intros Hd. pose proof (proj1 (dates_in_range_forallb me contact w) Hd) as Hf.
  destruct (db w !! i) as [m|] eqn:Hi; simpl.
  - destruct (in_conversation me contact m && unviewed me m) eqn:Hm.
    + apply andb_true_iff in Hm as [Hc Hu]. by apply fetchMessages_row.
    + rewrite fetchMessages_db, Hf, apply_updates_other; [done|].
      intros [[j p] [Hj Hin]]%list_elem_of_fmap. simpl in Hj. subst j.
      apply list_elem_of_fmap in Hin as [[j m'] [Heq Hin]].
      inversion Heq; subst j p. apply to_update_inv in Hin as [Hi' Hm'].
      congruence.
  - rewrite fetchMessages_db, Hf, apply_updates_other; [done|].
    intros [[j p] [Hj Hin]]%list_elem_of_fmap. simpl in Hj. subst j.
    apply list_elem_of_fmap in Hin as [[j m'] [Heq Hin]].
    inversion Heq; subst j p. apply to_update_inv in Hin as [Hi' _].
    congruence.
Qed.

(** Whether or not the fetch went through, a row is its old self, or its
    old self with [baseUpdate] applied if the loop was to update it. *)
Lemma fetchMessages_lookup_any (w : World) (i : string) :
  db (fetchMessages me contact privateKey false w).2 !! i = db w !! i
  ∨ ∃ m, db w !! i = Some m
         ∧ in_conversation me contact m && unviewed me m = true
         ∧ db (fetchMessages me contact privateKey false w).2 !! i
           = Some (apply_patch (view_patch (clock w) m) m).
Proof.
  destruct (forallb (λ kv, expiry_is_date (clock w) kv.2) (to_update me contact w))
    eqn:Hf.
  - apply dates_in_range_forallb in Hf.
    rewrite (fetchMessages_lookup w i Hf).
    destruct (db w !! i) as [m|]; simpl; [|by left].
    destruct (in_conversation me contact m && unviewed me m) eqn:Hm;
      [right; by exists m|by left].
  - left. by rewrite fetchMessages_db, Hf.
Qed.

Lemma viewed_is_not_marked_again (now : Z) (m : Message) :
  in_conversation me contact (apply_patch (view_patch now m) m)
  && unviewed me (apply_patch (view_patch now m) m) = false.
Proof. unfold unviewed. simpl. by rewrite !andb_false_r. Qed.

(** After a fetch that went through, the next one has nothing to update. *)
Lemma nothing_left_to_update (w w2 : World) :
  dates_in_range me contact w →
  db w2 = db (fetchMessages me contact privateKey false w).2 →
  to_update me contact w2 = [].
Proof.
  intros Hd Hdb.
  destruct (to_update me contact w2) as [|[j r] l] eqn:E; [done|]. exfalso.
  assert (Hin : (j, r) ∈ to_update me contact w2) by (rewrite E; left).
  apply to_update_inv in Hin as [Hj Hm].
  rewrite Hdb, (fetchMessages_lookup w j Hd) in Hj.
  destruct (db w !! j) as [m|]; simpl in Hj; [|done].
  destruct (in_conversation me contact m && unviewed me m) eqn:Hm'.
  - inversion Hj; subst r. by rewrite viewed_is_not_marked_again in Hm.
  - inversion Hj; subst r. congruence.
Qed.

(** X16.  [fetchMessages] creates and deletes no row and changes only rows of
    the conversation that are addressed to the local user and not yet
    viewed.  When every expiry it computes is a date, fetching again, at
    whatever later instant, changes nothing: [viewed_at] and [expires_at]
    are those of the first fetch.  When some expiry is no date the fetch
    changes no row at all, and neither does a fetch whose query fails. *)
Theorem fetch_marks_once (w : World) :
  let w1 := (fetchMessages me contact privateKey false w).2 in
  (∀ i, is_Some (db w1 !! i) ↔ is_Some (db w !! i))
  ∧ (∀ i m, db w !! i = Some m →
       ¬ (receiver_id m = me ∧ sender_id m = contact
          ∧ truthy_bool (is_viewed m) = false) →
       db w1 !! i = Some m)
  ∧ (dates_in_range me contact w →
     ∀ w2, db w2 = db w1 →
       db (fetchMessages me contact privateKey false w2).2 = db w1)
  ∧ (¬ dates_in_range me contact w → db w1 = db w)
  ∧ db (fetchMessages me contact privateKey true w).2 = db w.
Proof.
  intros w1. split; [|split; [|split; [|split]]].
  - intros i. unfold w1.
    destruct (fetchMessages_lookup_any w i) as [->|(m & Hi & _ & ->)]; [done|].
    rewrite Hi. split; intros _; by eexists.
  - intros i m Hi Hno. unfold w1.
    destruct (fetchMessages_lookup_any w i) as [->|(m' & Hi' & Hm & _)]; [done|].
    exfalso. apply Hno. assert (m' = m) as -> by congruence.
    apply andb_true_iff in Hm as [Hc Hu].
    unfold unviewed in Hu. apply andb_true_iff in Hu as [Hr Hv].
    apply bool_decide_eq_true in Hr. apply negb_true_iff in Hv.
    split; [done|]. split; [|done].
    unfold in_conversation in Hc. apply orb_true_iff in Hc as [Hc|Hc];
      apply andb_true_iff in Hc as [Hs Hr'];
      apply bool_decide_eq_true in Hs, Hr'; congruence.
  - intros Hd w2 Hdb. rewrite fetchMessages_db.
    rewrite (nothing_left_to_update w w2 Hd Hdb). simpl. exact Hdb.
  - intros Hno. by apply fetchMessages_cancelled.
  - unfold fetchMessages, bind, try_catch, bind, emit, get_db, ret. reflexivity.
Qed.

End Fetch.

End FetchFacts.

(** ** A snapshot between opening, fetching and the sweep *)

Module LifecycleFacts.
Import Chat Observations SnapshotFacts CleanupFacts ViewFacts.

Lemma sweep_row (now : Z) (tbl : Table) (i : string) (m : Message) :
  tbl !! i = Some m →
  (Cleanup.POST Cleanup.no_faults now tbl).2 !! i
  = if Cleanup.selected now m then None else Some m.
Proof.
  intros Hi. rewrite table_after_POST by done.
  destruct (decide (i ∈ Cleanup.select_ids now tbl)) as [Hin|Hout].
  - apply select_ids_elem in Hin as (m' & Hi' & Hs).
    assert (m' = m) as -> by congruence. by rewrite Hs.
  - destruct (Cleanup.selected now m) eqn:Hs; [|done].
    exfalso. apply Hout, select_ids_elem. by exists m.
Qed.

(** X17.  The first opening of a snapshot by its receiver, from a list
    element that holds the stored row, writes [is_viewed = false], so no
    sweep deletes the row then, whatever its flags and expiry were.  A
    second opening from an element refreshed to the row as the first
    opening left it writes [is_viewed = true], and the next sweep deletes
    the row exactly when it is not saved and has no expiry or one that is
    past.  A second opening from the element as it was writes
    [is_viewed = false] again, and no sweep deletes the row. *)
Theorem snapshot_is_swept_after_second_open (me : string) (m0 m1 : ChatMessage)
    (w : World) (now : Z) :
  let m := row m0 in
  let w1 := (openSnapshot me m0 w).2 in
  let w2 := (openSnapshot me m1 w1).2 in
  let w2' := (openSnapshot me m0 w1).2 in
  db w !! id m0 = Some m → receiver_id m = me → or_zero (view_count m) = 0 →
  id m1 = id m0 → db w1 !! id m0 = Some (row m1) →
  (is_Some (db w1 !! id m0)
   ∧ (Cleanup.POST Cleanup.no_faults now (db w1)).2 !! id m0 = db w1 !! id m0)
  ∧ (is_Some (db w2 !! id m0)
     ∧ ((Cleanup.POST Cleanup.no_faults now (db w2)).2 !! id m0 = None
        ↔ (is_saved m = None ∨ is_saved m = Some false)
          ∧ (expires_at m = None ∨ ∃ t, expires_at m = Some t ∧ t < now)))
  ∧ (is_Some (db w2' !! id m0)
     ∧ (Cleanup.POST Cleanup.no_faults now (db w2')).2 !! id m0 = db w2' !! id m0).
Proof.
  intros m w1 w2 w2' Hi Hme H0 Hid Hm1.
  destruct (openSnapshot_shown me m0 m 0 w Hme H0 ltac:(lia) Hi) as [_ L1].
  fold w1 in L1. change (2 <=? 0 + 1) with false in L1.
  change (0 + 1) with 1 in L1.
  assert (Hrow : row m1 = apply_patch (mkPatch (Some false) None (Some 1) None) m)
    by congruence.
  assert (L2 : db w2 !! id m0
               = Some (apply_patch (mkPatch (Some true) None (Some 2) None) (row m1))).
  { rewrite <- Hid in Hm1 |- *.
    assert (Hme1 : receiver_id (row m1) = me) by (by rewrite Hrow).
    assert (Hc1 : or_zero (view_count (row m1)) = 1) by (by rewrite Hrow).
    by destruct (openSnapshot_shown me m1 (row m1) 1 w1 Hme1 Hc1 ltac:(lia) Hm1)
      as [_ L]. }
  assert (L2' : db w2' !! id m0
                = Some (apply_patch (mkPatch (Some false) None (Some 1) None) (row m1))).
  { by destruct (openSnapshot_shown me m0 (row m1) 0 w1 Hme H0 ltac:(lia) Hm1)
      as [_ L]. }
  split; [|split].
  - split; [by rewrite L1|].
    by rewrite (sweep_row now (db w1) (id m0) _ L1), L1.
  - split; [by rewrite L2|].
    rewrite (sweep_row now (db w2) (id m0) _ L2). rewrite Hrow.
    set (m2 := apply_patch _ (apply_patch _ m)).
    destruct (Cleanup.selected now m2) eqn:Hs.
    + apply selected_completed in Hs as (_ & Hsaved & Hexp). done.
    + split; [discriminate|]. intros [Hsaved Hexp].
      assert (Cleanup.selected now m2 = true) as Hs'; [|congruence].
      apply selected_completed. done.
  - split; [by rewrite L2'|].
    by rewrite (sweep_row now (db w2') (id m0) _ L2'), L2'.
Qed.

Section Fetch.
Context `{Platform}.
Variables (me contact : string) (privateKey : option PrivateKey).

(** X18.  Opening a snapshot undoes its viewing: the next [fetchMessages] all
    of whose expiries are dates marks it viewed anew and counts the
    disappearing time, when the row has a duration other than zero, from
    that later instant, replacing whatever expiry an earlier viewing had
    set.  A next fetch some expiry of which is no date leaves the row as
    the opening wrote it. *)
Theorem opening_restarts_the_expiry (m0 : ChatMessage) (w : World) :
  let m := row m0 in
  let w1 := (openSnapshot me m0 w).2 in
  db w !! id m0 = Some m → sender_id m = contact → receiver_id m = me →
  or_zero (view_count m) = 0 →
  ∀ w2, db w2 = db w1 →
    (dates_in_range me contact w2 →
     ∃ m', db (fetchMessages me contact privateKey false w2).2 !! id m0 = Some m'
       ∧ is_viewed m' = Some true
       ∧ viewed_at m' = Some (clock w2)
       ∧ view_count m' = Some 1
       ∧ (∀ d, is_disappearing m = Some true → disappearing_duration m = Some d →
               d ≠ 0 → expires_at m' = Some (clock w2 + d * (60 * 1000))))
    ∧ (¬ dates_in_range me contact w2 →
       ∃ m', db (fetchMessages me contact privateKey false w2).2 !! id m0 = Some m'
         ∧ is_viewed m' = Some false ∧ view_count m' = Some 1
         ∧ viewed_at m' = viewed_at m ∧ expires_at m' = expires_at m).
Proof.
  intros m w1 Hi Hs Hr H0 w2 Hdb.
  destruct (openSnapshot_shown me m0 m 0 w Hr H0 ltac:(lia) Hi) as [_ L1].
  fold w1 in L1. change (2 <=? 0 + 1) with false in L1.
  change (0 + 1) with 1 in L1. rewrite <- Hdb in L1.
  set (m1 := apply_patch (mkPatch (Some false) None (Some 1) None) m) in *.
  split.
  - intros Hd. exists (apply_patch (view_patch (clock w2) m1) m1).
    split.
    + apply fetchMessages_row; [done|done| |].
      * unfold in_conversation. simpl.
        rewrite (bool_decide_eq_true_2 _ Hs), (bool_decide_eq_true_2 _ Hr).
        apply orb_true_r.
      * unfold unviewed. simpl. by rewrite (bool_decide_eq_true_2 _ Hr).
    + repeat split; try done.
      intros d Hdis Hdur Hd0. unfold view_patch. simpl. rewrite Hdis, Hdur. simpl.
      destruct (Z.eqb_spec d 0) as [?|_]; [done|]. simpl. f_equal. lia.
  - intros Hno. exists m1. split; [|done].
    by rewrite (fetchMessages_cancelled me contact privateKey w2 Hno).
Qed.

End Fetch.

End LifecycleFacts.

(** ** Realtime inserts *)

Module LiveFacts.
Import Chat Live Observations ViewFacts.

#[local] Existing Instance same_store_preorder.

Lemma add_message_ids (prev : list ChatMessage) (msg : ChatMessage) :
  id <$> add_message prev msg
  = if decide (id msg ∈ id <$> prev) then id <$> prev else (id <$> prev) ++ [id msg].
Proof.
  unfold add_message.
  destruct (existsb (λ m, bool_decide (id m = id msg)) prev) eqn:E.
  - apply existsb_exists in E as (m & Hin & Hid).
    apply bool_decide_eq_true in Hid.
    rewrite decide_True; [done|].
    apply list_elem_of_fmap. exists m. split; [done|]. by apply list_elem_of_In.
  - rewrite decide_False; [by rewrite fmap_app|].
    intros (m & Hid & Hin)%list_elem_of_fmap.
    assert (existsb (λ m, bool_decide (id m = id msg)) prev = true) as E';
      [|congruence].
    apply existsb_exists. exists m. split; [by apply list_elem_of_In|].
    by apply bool_decide_eq_true.
Qed.

Section Session.
Context `{Platform}.
Variables (me contact : string) (privateKey : option PrivateKey).

Lemma decryptMessageContent_run (m : Message) (w : World) :
  ∃ d w1, decryptMessageContent me privateKey m w = (Ok d, w1)
          ∧ db w1 = db w ∧ clock w1 = clock w
          ∧ ∃ evs, trace w1 = trace w ++ evs.
Proof.
  destruct (decryptMessageContent_total me privateKey m w) as [d Hd].
  pose proof (preserves_decryptMessageContent same_store
                same_store_draw same_store_emit me privateKey m w) as [Hdb Hc].
  assert (Htr : ∃ evs,
            trace (decryptMessageContent me privateKey m w).2 = trace w ++ evs).
  { assert (Hpre : PreOrder (λ w w' : World, ∃ evs, trace w' = trace w ++ evs)).
    { split.
      - intros x. exists []. by rewrite app_nil_r.
      - intros x y z [e1 H1] [e2 H2]. exists (e1 ++ e2).
        by rewrite H2, H1, app_assoc. }
    apply (preserves_decryptMessageContent
             (λ w w' : World, ∃ evs, trace w' = trace w ++ evs)).
    - intros w0. exists []. simpl. by rewrite app_nil_r.
    - intros ev w0 _. by exists [ev]. }
  destruct (decryptMessageContent me privateKey m w) as [r w1].
  simpl in *. subst r. by exists d, w1.
Qed.



(** X20.  The handler accepts exactly the rows the query of [fetchMessages]
    returns: any other row changes neither the list nor the world.  A row
    the local user sent to a contact other than themselves is added to the
    list and causes no update.  Adding never duplicates an id. *)
Theorem insert_event_of_other_rows (prev : list ChatMessage) (i : string)
    (m : Message) (w : World) :
  let r := on_insert me contact privateKey prev i m w in
  (in_conversation me contact m = false → r = (Ok prev, w))
  ∧ (sender_id m = me → receiver_id m = contact → me ≠ contact →
     ∃ d, (decryptMessageContent me privateKey m w).1 = Ok d
          ∧ r = (Ok (add_message prev (mkChatMessage i m d)),
                 (decryptMessageContent me privateKey m w).2)
          ∧ db r.2 = db w)
  ∧ (∀ msg, NoDup (id <$> prev) → NoDup (id <$> add_message prev msg)).
Proof.
  intros r. split; [|split].
  - intros Hc. unfold r, on_insert. unfold in_conversation in Hc.
    rewrite orb_comm, (andb_comm (bool_decide (receiver_id m = me))). 
    by rewrite Hc.
  - intros Hs Hr Hne.
    destruct (decryptMessageContent_run m w) as (d & w1 & Hd & Hdb & Hc & _).
    exists d. rewrite Hd. simpl. unfold r, on_insert.
    rewrite (bool_decide_eq_true_2 _ Hs), (bool_decide_eq_true_2 _ Hr).
    rewrite (bool_decide_eq_false_2 (receiver_id m = me)) by congruence.
    simpl. unfold bind. rewrite Hd. done.
  - intros msg Hnd. rewrite add_message_ids.
    destruct (decide (id msg ∈ id <$> prev)) as [Hin|Hout]; [done|].
    apply NoDup_app. split; [done|]. split; [|apply NoDup_singleton].
    intros x Hx Hx'. apply list_elem_of_singleton in Hx'. by subst x.
Qed.

End Session.

End LiveFacts.

(** ** The auto-delete setting *)

Module SettingsFacts.
Import Live.

(** X21.  Choosing a mode writes it for both directions of the conversation, so
    that each side reads it back as its own setting, and touches no other
    conversation; a first [fetchSettings] without a row reports no mode and
    creates the row with "none" for the local side only. *)
Theorem auto_delete_mode_is_shared (me contact mode : string) (settings : Settings) :
  me ≠ contact →
  let s1 := (updateAutoDeleteMode me contact mode settings).2 in
  (fetchSettings me contact s1 = (Some (mode_or_none (Some mode)), s1)
   ∧ fetchSettings contact me s1 = (Some (mode_or_none (Some mode)), s1)
   ∧ ∀ k, k ≠ (me, contact) → k ≠ (contact, me) → s1 !! k = settings !! k)
  ∧ (settings !! (me, contact) = None →
     let r := fetchSettings me contact settings in
     r.1 = None
     ∧ fetchSettings me contact r.2 = (Some "none", r.2)
     ∧ r.2 !! (contact, me) = settings !! (contact, me)).
Proof.
  intros Hne s1.
  assert (Hs1 : s1 = <[(contact, me) := Some mode]>
                       (<[(me, contact) := Some mode]> settings)).
  { unfold s1, updateAutoDeleteMode, upsert. simpl.
    rewrite bool_decide_eq_true_2; [done|].
    apply NoDup_cons. split; [|apply NoDup_singleton].
    intros Hin%list_elem_of_singleton. inversion Hin. done. }
  assert (Hpair : (contact, me) ≠ (me, contact)) by (intros Heq; by inversion Heq).
  split; [split; [|split]|].
  - unfold fetchSettings. rewrite Hs1 at 1.
    by rewrite lookup_insert_ne, lookup_insert_eq.
  - unfold fetchSettings. rewrite Hs1 at 1. by rewrite lookup_insert_eq.
  - intros k H1 H2. rewrite Hs1. by rewrite !lookup_insert_ne.
  - intros Hnone r. unfold r, fetchSettings. rewrite Hnone. simpl.
    rewrite lookup_insert_eq. simpl. split; [done|]. split; [done|].
    by rewrite lookup_insert_ne.
Qed.

End SettingsFacts.

(** ** From sending to the sweep *)

Module SweepFacts.
Import Chat Observations ViewFacts LifecycleFacts.

Lemma messageData_duration me contact mode now packet mediaType mediaUrl d :
  disappearing_duration (messageData me contact mode now packet mediaType mediaUrl)
  = Some d →
  d ≠ 0
  ∧ is_disappearing (messageData me contact mode now packet mediaType mediaUrl)
    = Some true.
Proof.
  unfold messageData. simpl.
  repeat case_bool_decide; subst; intros Hd; inversion Hd; subst d; done.
Qed.

Lemma expires_after_view (now : Z) (m : Message) :
  expires_at (apply_patch (view_patch now m) m)
  = if truthy_bool (is_disappearing m) && truthy_num (disappearing_duration m)
    then Some (now + or_zero (disappearing_duration m) * 60 * 1000)
    else expires_at m.
Proof.
  unfold view_patch. simpl.
  by destruct (truthy_bool (is_disappearing m)
               && truthy_num (disappearing_duration m)).
Qed.

Section Fetch.
Context `{Platform}.
Variables (me contact : string) (privateKey : option PrivateKey).

(** X22.  A row as [sendMessage] builds it stays in the table through every
    sweep until its receiver has fetched it.  After a fetch at instant [T]
    all of whose expiries are dates, a sweep at [now] deletes it when its
    disappearing time of [d] minutes is over ([T + d] minutes before
    [now]); without such a time, as under the modes "none" and "view", it
    deletes the row at once, unless an expiry set at sending is still to
    come.  After a fetch some expiry of which is no date the row is as
    before the fetch, and stays through every sweep. *)
Theorem sent_row_is_swept_after_viewing (i mode packet mediaType : string)
    (mediaUrl : option string) (t0 : Z) (w : World) :
  let m := messageData contact me mode t0 packet mediaType mediaUrl in
  db w !! i = Some m →
  let T := clock w in
  let w1 := (fetchMessages me contact privateKey false w).2 in
  (∀ now, (Cleanup.POST Cleanup.no_faults now (db w)).2 !! i = Some m)
  ∧ (dates_in_range me contact w →
     ∀ now,
       (Cleanup.POST Cleanup.no_faults now (db w1)).2 !! i = None
       ↔ match disappearing_duration m, expires_at m with
         | Some d, _ => T + d * (60 * 1000) < now
         | None, Some e => e < now
         | None, None => True
         end)
  ∧ (¬ dates_in_range me contact w →
     ∀ now, (Cleanup.POST Cleanup.no_faults now (db w1)).2 !! i = Some m).
Proof.
  intros m Hi T w1. split; [|split].
  - intros now. by rewrite (sweep_row now (db w) i m Hi).
  - intros Hd now.
    assert (L1 : db w1 !! i = Some (apply_patch (view_patch T m) m)).
    { unfold w1. apply fetchMessages_row; [done|done| |].
      - unfold in_conversation, m. simpl.
        rewrite (bool_decide_eq_true_2 (contact = contact)) by done.
        rewrite (bool_decide_eq_true_2 (me = me)) by done. apply orb_true_r.
      - unfold unviewed, m. simpl.
        by rewrite (bool_decide_eq_true_2 (me = me)). }
    rewrite (sweep_row now (db w1) i _ L1).
    set (m1 := apply_patch (view_patch T m) m).
    assert (Hsel : Cleanup.selected now m1
                   = match expires_at m1 with None => true | Some t => t <? now end)
      by reflexivity.
    assert (Hexp : expires_at m1
                   = match disappearing_duration m with
                     | Some d => Some (T + d * (60 * 1000))
                     | None => expires_at m
                     end).
    { unfold m1. rewrite expires_after_view.
      destruct (disappearing_duration m) as [d|] eqn:Hdur.
      - destruct (messageData_duration _ _ _ _ _ _ _ _ Hdur) as [Hd0 Hdis].
        fold m in Hdis. rewrite Hdis. simpl.
        destruct (Z.eqb_spec d 0) as [?|_]; [done|]. simpl. f_equal. lia.
      - simpl. by rewrite andb_false_r. }
    rewrite Hsel, Hexp.
    destruct (disappearing_duration m) as [d|].
    + destruct (Z.ltb_spec (T + d * (60 * 1000)) now); split; try done; lia.
    + destruct (expires_at m) as [e|]; [|done].
      destruct (Z.ltb_spec e now); split; try done; lia.
  - intros Hno now. unfold w1.
    rewrite (fetchMessages_cancelled me contact privateKey w Hno).
    by rewrite (sweep_row now (db w) i m Hi).
Qed.

End Fetch.

End SweepFacts.

(** ** Placeholders of the chat *)

Module PlaceholderFacts.
Import Crypto Chat Observations CryptoFacts.

Section WithLaws.
Context `{PlatformLaws}.

(** X23.  For an envelope that holds a wrapped key for the local user:
    without a private key the chat shows "[Decrypting...]" and calls no
    cryptography; when the key cannot be unwrapped, the attachment cannot
    be fetched, or the content does not decrypt, it shows
    "[Secure Signal]" and does not throw; an attachment without URL gives
    "[Media Missing]"; and text that decrypts to the empty string gives
    "[Empty Signal]". *)
Theorem placeholders_of_a_keyed_envelope me (msg : Message) raw
    (fields keys : gmap string json) (iv content wrapped : string) (w : World) :
  encrypted_content msg = Some raw → raw ≠ "" →
  JSON_parse raw = Some (JObj fields) →
  fields !! "iv" = Some (JStr iv) → iv ≠ "" →
  fields !! "content" = Some (JStr content) → content ≠ "" →
  fields !! "keys" = Some (JObj keys) →
  keys !! me = Some (JStr wrapped) → wrapped ≠ "" →
  decryptMessageContent me None msg w = (Ok "[Decrypting...]", w)
  ∧ ∀ sk,
      (∀ e, (decryptAESKeyWithUserPrivateKey wrapped sk w).1 = Throw e →
            (decryptMessageContent me (Some sk) msg w).1 = Ok "[Secure Signal]")
      ∧ (∀ k w1, decryptAESKeyWithUserPrivateKey wrapped sk w = (Ok k, w1) →
           (is_image_or_snapshot (media_type msg) = true →
            (media_url msg = None ∨ media_url msg = Some "" →
             decryptMessageContent me (Some sk) msg w = (Ok "[Media Missing]", w1))
            ∧ (∀ url, media_url msg = Some url → url ≠ "" → http_get url = None →
                 decryptMessageContent me (Some sk) msg w
                 = (Ok "[Secure Signal]", logged w1 [Fetch url])))
           ∧ (is_image_or_snapshot (media_type msg) = false →
              (∀ e, (decryptWithAES content iv k w1).1 = Throw e →
                    (decryptMessageContent me (Some sk) msg w).1
                    = Ok "[Secure Signal]")
              ∧ (∀ w2, decryptWithAES content iv k w1 = (Ok "", w2) →
                    decryptMessageContent me (Some sk) msg w
                    = (Ok "[Empty Signal]", w2)))).
Proof.
  intros Hraw Hne Hj Hiv Hivne Hct Hctne Hkeys Hme Hwne.
  assert (E : ∀ privateKey,
    decryptMessageContent me privateKey msg w
    = try_catch
        (match privateKey with
         | None => ret "[Decrypting...]"
         | Some sk =>
           let! aesKey := decryptAESKeyWithUserPrivateKey wrapped sk in
           if is_image_or_snapshot (media_type msg) then
             match media_url msg with
             | None => ret "[Media Missing]"
             | Some url =>
               if bool_decide (url = "") then ret "[Media Missing]" else
               do! emit (Fetch url) in
               let! encryptedArrayBuffer := lift "TypeError" (http_get url) in
               let mimeType :=
                 if bool_decide (media_type msg = "snapshot")
                 then "image/jpeg" else "image/*" in
               let! media_iv := get_prop (JObj fields) "media_iv" in
               let! decryptedBlob :=
                 decryptToBlob encryptedArrayBuffer
                   (to_str (if truthy media_iv then media_iv else Some (JStr iv)))
                   aesKey mimeType in
               let! t := draw in
               let url := object_url t decryptedBlob in
               do! emit (SetBlobUrl url) in
               ret url
             end
           else
             let! decrypted := decryptWithAES content iv aesKey in
             ret (if bool_decide (decrypted = "")
                  then "[Empty Signal]" else decrypted)
         end)
        (λ _, ret "[Secure Signal]") w).
  { intros privateKey. unfold decryptMessageContent, try_catch.
    rewrite Hraw, (bool_decide_eq_false_2 _ Hne), Hj.
    unfold bind at 1. unfold get_prop at 1. unfold ret at 1. rewrite Hiv.
    unfold bind at 1. unfold get_prop at 1. unfold ret at 1. rewrite Hct.
    unfold bind at 1. unfold get_prop at 1. unfold ret at 1. rewrite Hkeys.
    rewrite !truthy_JStr by done. simpl.
    unfold bind at 1. unfold ret at 1. rewrite Hme.
    rewrite truthy_JStr by done. simpl.
    unfold to_str. by rewrite !ToString_JStr. }
  split; [by rewrite E|].
  intros sk. rewrite E. unfold try_catch. split.
  - intros e He. unfold bind at 1.
    destruct (decryptAESKeyWithUserPrivateKey wrapped sk w) as [r w1].
    simpl in He. by subst r.
  - intros k w1 Hk. split.
    + intros ->. split.
      * intros [E1|E1]; rewrite E1; unfold bind; by rewrite Hk.
      * intros url -> Hurl Hget. rewrite (bool_decide_eq_false_2 _ Hurl).
        unfold bind, emit. by rewrite Hk, Hget.
    + intros ->. split.
      * intros e He. unfold bind. rewrite Hk.
        destruct (decryptWithAES content iv k w1) as [r w2].
        simpl in He. by subst r.
      * intros w2 Hd. unfold bind. by rewrite Hk, Hd.
Qed.

End WithLaws.

End PlaceholderFacts.

(** ** The two envelope formats *)

Module FormatFacts.
Import Crypto Chat Observations CryptoFacts DecodeFacts EnvelopeFacts.

Section WithLaws.
Context `{PlatformLaws}.

(** X24.  The library and the chat do not read each other's envelopes.  What
    [encryptMessage] writes has no [keys], so the chat shows the JSON text
    itself, undecrypted and without calling any cryptography; what
    [sendMessage] writes has no [v] tag, so [decryptMessage] takes it for a
    legacy ciphertext, fails to decode the JSON text as base64 and returns
    the placeholder. *)
Theorem formats_do_not_mix :
  (∀ content iv key me sk (msg : Message) (w : World),
     let raw := JSON_stringify (hybrid_packet content iv key) in
     encrypted_content msg = Some raw → raw ≠ "" →
     decryptMessageContent me sk msg w = (Ok raw, w))
  ∧ (∀ me contact iv content mediaIv kme kp sk (w : World),
       let env := envelope me contact iv content mediaIv kme kp in
       let raw := JSON_stringify env in
       JSON_parse raw = Some env → atob raw = None →
       decryptMessage raw sk w = (Ok "[Secure Signal]", w)).
Proof.
  split.
  - intros content iv key me sk msg w raw Hraw Hne.
    apply (decryptMessageContent_not_hybrid me sk msg raw w Hraw Hne).
    right. exists (hybrid_packet content iv key).
    split; [apply JSON_roundtrip_h1|]. split; [done|].
    destruct (hybrid_packet_props content iv key) as (_ & _ & _ & _ & Hkeys).
    unfold hybrid_packet in *. simpl in *. rewrite Hkeys. simpl.
    apply andb_false_r.
  - intros me contact iv content mediaIv kme kp sk w env raw Hj Hatob.
    destruct (envelope_fields me contact (λ p, p) iv content mediaIv kme kp)
      as (fields & Henv & _ & Hv & _).
    rewrite decryptMessage_not_hybrid.
    + unfold legacy_or_placeholder, try_catch, legacy_rsa, bind, base64ToBuffer, bind.
      by rewrite Hatob.
    + right. exists env. split; [done|]. unfold env. rewrite Henv.
      split; [done|]. simpl. unfold is_h1. by rewrite Hv.
Qed.

End WithLaws.

End FormatFacts.

(** ** Further runs on the executable platforms *)

Module MoreRuns.
Import Crypto Chat Observations Samples ModelFacts Model2Facts.

Lemma clear_removes_the_conversation_witness :
  let tbl : Table := <["m1" := legacy_row]> (<["m2" := for_bob_row]> ∅) in
  let r := Clear.POST (H:=Model.platform) "TypeError" None
             (Clear.clear_request "alice" "bob") tbl in
  Clear.status r.1 = 200
  ∧ r.2 !! "m1" = None
  ∧ r.2 !! "m2" = Some for_bob_row.
Proof.
  pose proof (ClearFacts.clear_removes_the_conversation (H:=Model.platform)
                "TypeError" "alice" "bob"
                (<["m1" := legacy_row]> (<["m2" := for_bob_row]> ∅))
                ltac:(discriminate) ltac:(discriminate) eq_refl eq_refl)
    as (Hs & Hrow & _).
  split; [exact Hs|]. split.
  - exact (Hrow "m1").
  - exact (Hrow "m2").
Defined.

Lemma token_is_hex_of_the_entropy_witness :
  ∃ token,
    (Token.generateSecureToken (H:=Model.platform) 2 Model.world0).1 = Ok token
    ∧ String.length token = 4%nat
    ∧ Forall (λ c, Token.is_hex c = true) (list_ascii_of_string token)
    ∧ Token.hex_decode token = Some [Byte.x00; Byte.x00].
Proof.
  exact (proj1 (TokenFacts.token_is_hex_of_the_entropy (H:=Model.platform) 2
                  Model.world0) ltac:(vm_compute; discriminate)).
Defined.

Lemma aes_text_roundtrip_witness :
  ∃ content iv w1,
    encryptWithAES (H:=Model.platform) "hi" [Byte.x2a] Model.world0
    = (Ok (content, iv), w1)
    ∧ ∀ w2, (decryptWithAES (H:=Model.platform) content iv [Byte.x2a] w2).1 = Ok "hi".
Proof.
  destruct (proj1 (RoundTrips.aes_text_roundtrip (H:=Model.platform) "hi" [Byte.x2a]
                     Model.world0))
    as (content & iv & w1 & He & _ & Hd).
  exists content, iv, w1. split; [exact He|]. exact (Hd eq_refl).
Defined.

Lemma key_wrap_roundtrip_witness :
  ∃ wrapped w1,
    encryptAESKeyForUser (H:=Model.platform) [Byte.x2a] Byte.x42 Model.world0
    = (Ok wrapped, w1)
    ∧ ∀ w2, (decryptAESKeyWithUserPrivateKey (H:=Model.platform) wrapped Byte.x42 w2).1
            = Ok [Byte.x2a].
Proof.
  exact (RoundTrips.key_wrap_roundtrip (H:=Model.platform) [Byte.x2a] Byte.x42
           Byte.x42 _ Model.world0 (ModelFacts.keypair Byte.x42) eq_refl).
Defined.

Lemma blob_roundtrip_witness :
  ∃ encryptedBlob iv w1,
    encryptBlob (H:=Model.platform) Model2.sample_blob [Byte.x2a] Model.world0
    = (Ok (encryptedBlob, iv), w1)
    ∧ blob_type encryptedBlob = "application/octet-stream"
    ∧ ∀ w2, (decryptToBlob (H:=Model.platform) (blob_bytes encryptedBlob) iv
               [Byte.x2a] "image/*" w2).1
            = Ok (mkBlob [Byte.x01; Byte.x02; Byte.x03] "image/*").
Proof.
  exact (RoundTrips.blob_roundtrip (H:=Model.platform) Model2.sample_blob [Byte.x2a]
           "image/*" Model.world0).
Defined.

Lemma encrypt_falls_back_to_rsa_witness :
  let c := Byte.x00 :: Byte.x00 :: Byte.x00 :: Byte.x00 :: list_byte_of_string "hi" in
  (encryptMessage (H:=Model2.platform) "hi" Byte.x00 Model.world0).1
  = Ok (bufferToBase64 (H:=Model2.platform) c)
  ∧ ∀ w2, decryptMessage (H:=Model2.platform)
            (bufferToBase64 (H:=Model2.platform) c) Byte.x00 w2
          = (Ok "hi", logged w2 [SubtleDecrypt "RSA-OAEP"]).
Proof.
  destruct (proj1 (RoundTrips.encrypt_falls_back_to_rsa (H:=Model2.platform) "hi"
                     Byte.x00 Byte.x00 Model.world0 eq_refl)
              (Byte.x00 :: Byte.x00 :: Byte.x00 :: Byte.x00 :: list_byte_of_string "hi")
              eq_refl) as [Henc Hdec].
  split; [exact Henc|].
  intros w2. exact (proj1 (Hdec eq_refl ltac:(simpl; lia) w2)).
Defined.

(** [alice] has her key only on her profile. *)
Lemma sent_text_is_read_by_both_witness :
  let profiles : gmap string string := <["alice" := "bA"]> bob_profile in
  ∃ m,
    db (sendMessage (H:=Model2.platform) "alice" "bob" profiles false None
          (λ p, p) "m1" "hi" "none" None "text" None Model.world0).2
    !! "m1" = Some m
    ∧ (∀ w2, (decryptMessageContent (H:=Model2.platform) "bob" (Some Byte.x42) m w2).1
             = Ok "hi")
    ∧ (∀ w2, (decryptMessageContent (H:=Model2.platform) "alice" (Some Byte.x41) m w2).1
             = Ok "hi").
Proof.
  intros profiles.
  destruct (ConversationFacts.sent_text_is_read_by_both (H:=Model2.platform)
              "alice" "bob" profiles None (λ p, p) "m1" "hi" "none" "text" None
              "bB" "B" Byte.x42 Byte.x42 Byte.x41 Byte.x41
              (Byte.x42 :: Byte.x42 :: Byte.x42 :: Byte.x42 :: repeat Byte.x2a 32)
              (Byte.x41 :: Byte.x41 :: Byte.x41 :: Byte.x41 :: repeat Byte.x2a 32)
              Model.world0
              ltac:(discriminate) eq_refl ltac:(discriminate) eq_refl eq_refl
              ltac:(right; split; [reflexivity|];
                    exists "bA", "A"; repeat split; discriminate)
              (Model2Facts.keypair2 Byte.x42 ltac:(discriminate))
              (Model2Facts.keypair2 Byte.x41 ltac:(discriminate))
              eq_refl eq_refl eq_refl
              ltac:(vm_compute; discriminate) ltac:(vm_compute; reflexivity))
    as (m & Hm & Hb & Ha & _).
  exists m. split; [exact Hm|]. split; [exact Hb|].
  exact (Ha ltac:(discriminate)).
Defined.

Lemma sent_attachment_as_received_witness :
  let profiles : gmap string string := <["alice" := "bA"]> bob_profile in
  ∃ m,
    db (sendMessage (H:=Model2.platform) "alice" "bob" profiles false None
          (λ p, p) "m1" "" "view" None "snapshot"
          (Some Model2.sample_blob) Model.world0).2
    !! "m1" = Some m
    ∧ ∀ w2,
        (decryptMessageContent (H:=Model2.platform) "bob" (Some Byte.x42) m w2).1
        = Ok (object_url (Platform:=Model2.platform) (tick w2)
                (mkBlob [Byte.x01; Byte.x02; Byte.x03] "image/jpeg")).
Proof.
  intros profiles.
  pose proof (ConversationFacts.sent_attachment_as_received (H:=Model2.platform)
                "alice" "bob" profiles None (λ p, p) "m1" "" "view" "snapshot" None
                Model2.sample_blob "bB" "B" Byte.x42 Byte.x42 Byte.x41
                (Byte.x42 :: Byte.x42 :: Byte.x42 :: Byte.x42 :: repeat Byte.x2a 32)
                (Byte.x41 :: Byte.x41 :: Byte.x41 :: Byte.x41 :: repeat Byte.x2a 32)
                Model.world0
                eq_refl eq_refl ltac:(discriminate) eq_refl eq_refl
                ltac:(right; split; [reflexivity|];
                      exists "bA", "A"; repeat split; discriminate)
                (Model2Facts.keypair2 Byte.x42 ltac:(discriminate))
                eq_refl eq_refl) as Hthm.
  specialize (Hthm ltac:(intros _; split;
                         [vm_compute; discriminate | vm_compute; reflexivity])).
  specialize (Hthm ltac:(vm_compute; discriminate)).
  specialize (Hthm ltac:(vm_compute; reflexivity)).
  destruct Hthm as (m & Hm & Hd).
  exists m. split; [exact Hm|]. intros w2. exact (Hd w2).
Defined.

Lemma aes_key_text_roundtrip_witness :
  ∃ text w1,
    Keys.exportKey (H:=Model.platform) [Byte.x2a] Model.world0 = (Ok text, w1)
    ∧ ∀ w2, Keys.importAESKey (H:=Model.platform) text w2
            = (Ok [Byte.x2a], logged w2 [SubtleImportKey "raw"]).
Proof.
  exact (proj1 (KeysFacts.aes_key_text_roundtrip (H:=Model.platform) [Byte.x2a]
                  Model.world0)).
Defined.

Lemma snapshot_is_swept_after_second_open_witness :
  let m0 := mkChatMessage "s1" sample_snapshot "blob:0" in
  let m1 := mkChatMessage "s1"
              (apply_patch (mkPatch (Some false) None (Some 1) None) sample_snapshot)
              "blob:0" in
  let w1 := (openSnapshot "bob" m0 sample_world).2 in
  let w2 := (openSnapshot "bob" m1 w1).2 in
  let w2' := (openSnapshot "bob" m0 w1).2 in
  db w1 !! "s1" = Some (row m1)
  ∧ (Cleanup.POST Cleanup.no_faults 2000 (db w1)).2 !! "s1" = db w1 !! "s1"
  ∧ (Cleanup.POST Cleanup.no_faults 2000 (db w2)).2 !! "s1" = None
  ∧ (Cleanup.POST Cleanup.no_faults 2000 (db w2')).2 !! "s1" = db w2' !! "s1".
Proof.
  intros m0 m1 w1 w2 w2'.
  pose proof (LifecycleFacts.snapshot_is_swept_after_second_open "bob" m0 m1
                sample_world 2000 eq_refl eq_refl eq_refl eq_refl eq_refl)
    as ((_ & H1) & (_ & H2) & (_ & H3)).
  split; [reflexivity|]. split; [exact H1|]. split; [|exact H3].
  apply H2. split; left; reflexivity.
Defined.

Lemma opening_restarts_the_expiry_witness :
  let m := messageData "alice" "bob" "1h_view" 0 "[bob]" "snapshot" None in
  let w := mkWorld 0 5000 [] (<["m1" := m]> ∅) in
  let w1 := (openSnapshot "bob" (mkChatMessage "m1" m "blob:0") w).2 in
  let w2 := mkWorld 0 9000 [] (db w1) in
  dates_in_range "bob" "alice" w2
  ∧ ∃ m', db (fetchMessages (H:=Model.platform) "bob" "alice" None false w2).2 !! "m1"
          = Some m'
      ∧ viewed_at m' = Some 9000
      ∧ expires_at m' = Some (9000 + 60 * (60 * 1000)).
Proof.
  intros m w w1 w2.
  assert (Hd : dates_in_range "bob" "alice" w2).
  { apply (ViewFacts.dates_in_range_forallb "bob" "alice"). vm_compute. reflexivity. }
  split; [exact Hd|].
  destruct (proj1 (LifecycleFacts.opening_restarts_the_expiry (H:=Model.platform)
                     "bob" "alice" None (mkChatMessage "m1" m "blob:0") w
                     eq_refl eq_refl eq_refl eq_refl w2 eq_refl) Hd)
    as (m' & Hl & _ & Hv & _ & He).
  exists m'. split; [exact Hl|]. split; [exact Hv|].
  exact (He 60 eq_refl eq_refl ltac:(discriminate)).
Defined.


Lemma auto_delete_mode_is_shared_witness :
  let s1 := (Live.updateAutoDeleteMode "alice" "bob" "view" ∅).2 in
  Live.fetchSettings "alice" "bob" s1 = (Some "view", s1)
  ∧ Live.fetchSettings "bob" "alice" s1 = (Some "view", s1).
Proof.
  pose proof (SettingsFacts.auto_delete_mode_is_shared "alice" "bob" "view" ∅
                ltac:(discriminate)) as ((H1 & H2 & _) & _).
  exact (conj H1 H2).
Defined.

Lemma sent_row_is_swept_after_viewing_witness :
  let m := messageData "alice" "bob" "1h_view" 0 "[bob]" "text" None in
  let w := mkWorld 0 5000 [] (<["m1" := m]> ∅) in
  let w1 := (fetchMessages (H:=Model.platform) "bob" "alice" None false w).2 in
  dates_in_range "bob" "alice" w
  ∧ (∀ now, (Cleanup.POST Cleanup.no_faults now (db w)).2 !! "m1" = Some m)
  ∧ (Cleanup.POST Cleanup.no_faults 3605001 (db w1)).2 !! "m1" = None.
Proof.
  intros m w w1.
  assert (Hd : dates_in_range "bob" "alice" w).
  { apply (ViewFacts.dates_in_range_forallb "bob" "alice"). vm_compute. reflexivity. }
  destruct (SweepFacts.sent_row_is_swept_after_viewing (H:=Model.platform)
              "bob" "alice" None "m1" "1h_view" "[bob]" "text" None 0 w eq_refl)
    as (H1 & H2 & _).
  split; [exact Hd|]. split; [exact H1|]. apply (H2 Hd). reflexivity.
Defined.

Lemma placeholders_of_a_keyed_envelope_witness :
  decryptMessageContent (H:=Model.platform) "bob" None for_bob_row Model.world0
  = (Ok "[Decrypting...]", Model.world0).
Proof.
  refine (proj1 (PlaceholderFacts.placeholders_of_a_keyed_envelope
                   (H:=Model.platform) "bob" for_bob_row "[bob]"
                   (<["keys" := JObj (<["bob" := JStr "bWJvYg=="]> ∅)]>
                     (<["content" := JStr "Yw=="]> (<["iv" := JStr "aXY="]> ∅)))
                   (<["bob" := JStr "bWJvYg=="]> ∅) "aXY=" "Yw==" "bWJvYg=="
                   Model.world0 eq_refl _ eq_refl _ _ _ _ _ _ _));
    first [discriminate | vm_compute; reflexivity].
Defined.

Lemma formats_do_not_mix_witness :
  let raw := JSON_stringify (Platform:=Model2.platform)
               (envelope "alice" "bob" "biv" "bct" None "bkme" "bkp") in
  decryptMessage (H:=Model2.platform) raw Byte.x42 Model.world0
  = (Ok "[Secure Signal]", Model.world0).
Proof.
  apply (proj2 (FormatFacts.formats_do_not_mix (H:=Model2.platform))
           "alice" "bob" "biv" "bct" None "bkme" "bkp" Byte.x42 Model.world0).
  - vm_compute. reflexivity.
  - reflexivity.
Defined.

End MoreRuns.
